(** * Loteria: scoring, generation and bet matching

    A shallow embedding of the analytical core of the repository
    (src/lib/probabilityScoring.ts, hotColdAnalysis.ts, frequencyModel.ts,
    smartCombinationGenerator.ts, drawChecker.ts) and the properties that
    its specification states about it.

    Conventions of the embedding:
    - lottery numbers, counters, indices and the integer sub-scores are [Z]
      (every such value stays far below 2^53, where JavaScript's number
      arithmetic on integers is exact);
    - every value the source obtains by a division or a multiplication with
      a fraction is an IEEE-754 binary64 value, computed with the operations
      of the Standard Library's [SpecFloat] (round to nearest, ties to even);
    - [Array.prototype.sort] is the stable sort the language prescribes for
      a consistent comparator;
    - [Math.sin], which the language leaves implementation-approximated, is
      a parameter of the generator;
    - a thrown TypeError is [None]; [null] is [None] too, where a function
      returns it;
    - parameters that a source function never reads (the [draws] of the
      selectors) are left out. *)

From Stdlib Require Import ZArith List String Ascii Bool Lia.
From Stdlib Require Import Permutation Sorted DecimalString SpecFloat.
From Stdlib Require DecimalN DecimalFacts.
Import ListNotations.

Local Open Scope Z_scope.

(* ================================================================== *)
(** ** JavaScript numbers (binary64) *)

Module Js.

Definition number := spec_float.

Definition prec : Z := 53.
Definition emax : Z := 1024.

Definition NaN : number := S754_nan.

(** An integer literal or integer-valued variable as a double. *)
Definition of_Z (z : Z) : number := binary_normalize prec emax z 0 false.

Definition add : number -> number -> number := SFadd prec emax.
Definition sub : number -> number -> number := SFsub prec emax.
Definition mul : number -> number -> number := SFmul prec emax.
Definition div : number -> number -> number := SFdiv prec emax.

(** A decimal literal [n/d] such as 0.8 = 8/10: the literal denotes the
    double nearest to the decimal value, which is what the correctly
    rounded quotient of the two integers is. *)
Definition lit (n d : Z) : number := div (of_Z n) (of_Z d).

Definition ltb : number -> number -> bool := SFltb.   (* x < y  *)
Definition leb : number -> number -> bool := SFleb.   (* x <= y *)
Definition gtb (x y : number) : bool := SFltb y x.    (* x > y  *)
Definition geb (x y : number) : bool := SFleb y x.    (* x >= y *)
Definition eqb : number -> number -> bool := SFeqb.   (* x === y *)

Definition is_nan (x : number) : bool :=
  match x with S754_nan => true | _ => false end.

Definition is_neg_zero (x : number) : bool :=
  match x with S754_zero true => true | _ => false end.

(** [Math.min(x, y)] and [Math.max(x, y)]. *)
Definition min (x y : number) : number :=
  if is_nan x || is_nan y then NaN
  else if ltb x y then x
  else if ltb y x then y
  else if is_neg_zero x then x else y.

Definition max (x y : number) : number :=
  if is_nan x || is_nan y then NaN
  else if ltb x y then y
  else if ltb y x then x
  else if is_neg_zero x then y else x.

(** [Math.floor(x)]. *)
Definition floor (x : number) : number :=
  match x with
  | S754_finite s m (Zneg p) =>
      let v := if s then Zneg m else Zpos m in
      let n := v / 2 ^ Zpos p in
      if n =? 0 then S754_zero s else of_Z n
  | _ => x
  end.

(** [Math.round(x)]: the nearest integer, a tie going up. *)
Definition round (x : number) : number :=
  match x with
  | S754_finite s m (Zneg p) =>
      let v := if s then Zneg m else Zpos m in
      let n := (2 * v + 2 ^ Zpos p) / 2 ^ (Zpos p + 1) in
      if n =? 0 then S754_zero s else of_Z n
  | _ => x
  end.

(** [Object.is(x, y)]: the same value, NaN included, the two zeros
    kept apart. *)
Definition same (x y : number) : bool :=
  match x, y with
  | S754_nan, S754_nan => true
  | S754_zero a, S754_zero b => Bool.eqb a b
  | S754_infinity a, S754_infinity b => Bool.eqb a b
  | S754_finite a m e, S754_finite b m' e' =>
      Bool.eqb a b && Pos.eqb m m' && Z.eqb e e'
  | _, _ => false
  end.

Definition string_of_N (n : N) : string :=
  NilZero.string_of_uint (N.to_uint n).

(** The last [k] characters of [s] and what precedes them. *)
Definition split_last (k : nat) (s : string) : string * string :=
  let n := String.length s in
  (substring 0 (n - k) s, substring (n - k) k s).

(** At least three digits, so that one stands before the point. *)
Definition pad_zeros (s : string) : string :=
  match String.length s with
  | 0%nat => "000"
  | 1%nat => String "0" (String "0" s)
  | 2%nat => String "0" s
  | _ => s
  end.

(** [x.toFixed(2)] for |x| < 1e21 (larger magnitudes, which the language
    prints in exponent notation, are printed positionally here; no value
    the scorer formats comes near them). *)
Definition toFixed2 (x : number) : string :=
  match x with
  | S754_nan => "NaN"
  | S754_infinity false => "Infinity"
  | S754_infinity true => "-Infinity"
  | S754_zero _ => "0.00"
  | S754_finite s m e =>
      let n := match e with
               | Zneg p => (2 * (Zpos m * 100) + 2 ^ Zpos p) / 2 ^ (Zpos p + 1)
               | _ => Zpos m * 2 ^ e * 100
               end in
      let digits := pad_zeros (string_of_N (Z.to_N n)) in
      let '(int_part, frac_part) := split_last 2 digits in
      ((if s then "-" else "") ++ int_part ++ "." ++ frac_part)%string
  end.

End Js.

(* ================================================================== *)
(** ** A stable sort with a JavaScript comparator *)

Section StableSort.

Context {A : Type}.

(** [cmp a b] is the sign of the comparator's value: [Lt] when it is
    negative ([a] goes first), [Gt] when it is positive ([b] goes first),
    [Eq] when it is zero or NaN (the two keep their order). *)
Variable cmp : A -> A -> comparison.

Fixpoint insertSorted (x : A) (l : list A) : list A :=
  match l with
  | [] => [x]
  | y :: l' =>
      match cmp x y with
      | Gt => y :: insertSorted x l'
      | _ => x :: l
      end
  end.

(** [arr.sort(cmp)]: every element is placed before the first one at its
    right that it does not have to follow, so equal elements keep the
    order they had. *)
Definition sort (l : list A) : list A := fold_right insertSorted [] l.

(** [a] may stand immediately before [b]: the comparator does not ask for
    [b] to go first. *)
Definition inOrder (a b : A) : Prop := cmp a b <> Gt.

End StableSort.

(** The comparators of the source: [(a, b) => a - b] and
    [(a, b) => key(b) - key(a)] on integer keys. *)
Definition ascending (a b : Z) : comparison := Z.compare (a - b) 0.

Definition descendingBy {A : Type} (key : A -> Z) (a b : A) : comparison :=
  Z.compare (key b - key a) 0.

(** [(a, b) => key(b) - key(a)] on doubles: a NaN difference counts as 0. *)
Definition descendingByNumber {A : Type} (key : A -> Js.number) (a b : A)
  : comparison :=
  match Js.sub (key b) (key a) with
  | S754_finite s _ _ | S754_infinity s => if s then Lt else Gt
  | _ => Eq
  end.

(** Whether a double is above zero. *)
Definition isPositive (x : Js.number) : Prop :=
  match x with
  | S754_finite false _ _ | S754_infinity false => True
  | _ => False
  end.

(** A double of the scorer: not NaN, not below zero, with a mantissa and
    an exponent of the format. *)
Definition regular (x : Js.number) : Prop :=
  match x with
  | S754_zero s | S754_infinity s => s = false
  | S754_nan => False
  | S754_finite s m e => s = false /\ Zpos m < 2 ^ 53 /\ -1074 <= e
  end.

(** The value of a regular finite double in units of 2^-1074. *)
Definition units (x : Js.number) : Z :=
  match x with
  | S754_finite false m e => Zpos m * 2 ^ (e + 1074)
  | _ => 0
  end.

(* ================================================================== *)
(** ** The data model *)

Module Draw.
Record t := mk { date : string; numbers : list Z; stars : list Z }.
End Draw.

(** The [type: 'numbers' | 'stars'] parameter. *)
Inductive PoolType := TNumbers | TStars.

(** [arr.includes(n)]. *)
Definition includes (l : list Z) (n : Z) : bool := existsb (Z.eqb n) l.

(** [type === 'numbers' ? draw.numbers : draw.stars]. *)
Definition poolOf (type : PoolType) (d : Draw.t) : list Z :=
  match type with TNumbers => Draw.numbers d | TStars => Draw.stars d end.

(** The counting loops: [draws.forEach(d => { if (pool.includes(n)) c++ })]. *)
Definition countIncluding (type : PoolType) (n : Z) (draws : list Draw.t) : Z :=
  fold_left (fun c d => if includes (poolOf type d) n then c + 1 else c) draws 0.

(** The search loop shared by the scorer and the classifier:
    [for (i = 0; i < draws.length; i++) if (found) { lastSeen = i; break }],
    started at index [i], with -1 for "not found". *)
Fixpoint findLastSeen (type : PoolType) (n : Z) (i : Z) (draws : list Draw.t) : Z :=
  match draws with
  | [] => -1
  | d :: rest =>
      if includes (poolOf type d) n then i
      else findLastSeen type n (i + 1) rest
  end.

(** [n % k] of the language: the remainder has the sign of the dividend. *)
Definition jsmod (n k : Z) : Z := Z.rem n k.

(* ================================================================== *)
(** ** probabilityScoring.ts *)

Module NumberProbability.
Record t := mk {
  number : Z;
  frequencyScore : Z;
  hotColdScore : Z;
  patternScore : Z;
  overdueScore : Z;
  totalScore : Z;
  winChance : Js.number
}.
End NumberProbability.

Module Breakdown.
Record t := mk {
  frequencyScore : Js.number;
  hotColdScore : Js.number;
  patternScore : Js.number;
  overdueScore : Js.number
}.
End Breakdown.

Module CombinationScore.
Record t := mk {
  numbers : list Z;
  stars : list Z;
  probabilityScore : Js.number;
  winChance : string;
  breakdown : Breakdown.t
}.
End CombinationScore.

Module ProbabilityScoring.

(** The bands of the frequency score, on the ratio of the appearances to
    the expected appearances. *)
Definition frequencyBand (ratio : Js.number) : Z :=
  if Js.geb ratio (Js.lit 8 10) && Js.leb ratio (Js.lit 12 10) then 40
  else if Js.geb ratio (Js.lit 6 10) && Js.ltb ratio (Js.lit 8 10) then 30
  else if Js.gtb ratio (Js.lit 12 10) && Js.leb ratio (Js.lit 15 10) then 35
  else if Js.gtb ratio (Js.lit 15 10) then 25
  else 20.

Definition calculateFrequencyScore (number : Z) (draws : list Draw.t)
    (type : PoolType) : Z :=
  let len := Js.of_Z (Z.of_nat (List.length draws)) in
  let expectedAppearances :=
    match type with
    | TNumbers => Js.mul len (Js.div (Js.of_Z 5) (Js.of_Z 50))
    | TStars => Js.mul len (Js.div (Js.of_Z 2) (Js.of_Z 12))
    end in
  let appearances := countIncluding type number draws in
  let ratio :=
    if Js.gtb expectedAppearances (Js.of_Z 0)
    then Js.div (Js.of_Z appearances) expectedAppearances
    else Js.of_Z 0 in
  frequencyBand ratio.

Definition calculateHotColdScore (number : Z) (draws : list Draw.t)
    (type : PoolType) : Z :=
  let recentDraws := firstn 10 draws in
  let midDraws := firstn 20 draws in
  let recentCount := countIncluding type number recentDraws in
  let midCount := countIncluding type number midDraws in
  let recentRate := Js.div (Js.of_Z recentCount) (Js.of_Z 10) in
  let midRate :=
    if (0 <? Z.of_nat (List.length midDraws))
    then Js.div (Js.of_Z midCount) (Js.of_Z 20)
    else Js.of_Z 0 in
  if (recentCount >=? 3) && Js.gtb recentRate midRate then 30
  else if recentCount >=? 2 then 25
  else if recentCount =? 1 then 20
  else if (recentCount =? 0) && (midCount >=? 2) then 22
  else 15.

Definition calculatePatternScore (number : Z) (type : PoolType) : Z :=
  match type with
  | TStars => 15
  | TNumbers =>
      let score := 10 in
      let score := if (number >=? 15) && (number <=? 35)
                   then score + 5 else score in
      let score := if negb (jsmod number 2 =? 0) then score + 3 else score in
      let score := if jsmod number 5 =? 0 then score - 3 else score in
      Z.max 0 (Z.min 20 score)
  end.

Definition calculateOverdueScore (number : Z) (draws : list Draw.t)
    (type : PoolType) : Z :=
  let expectedInterval := match type with TNumbers => 10 | TStars => 6 end in
  let lastSeen := findLastSeen type number 0 draws in
  if lastSeen =? -1 then 10
  else if lastSeen >? expectedInterval * 2 then 10
  else if lastSeen >? expectedInterval then 7
  else if lastSeen =? 0 then 2
  else 5.

(** [(totalScore / 100) * 100]. *)
Definition percentOf (totalScore : Z) : Js.number :=
  Js.mul (Js.div (Js.of_Z totalScore) (Js.of_Z 100)) (Js.of_Z 100).

(** Whether [percentOf t] is [t] itself, or differs from it for [t] in
    55..58, and rounds to [t]. *)
Definition percentExact (t : Z) : bool :=
  (if (55 <=? t) && (t <=? 58)
   then negb (Js.eqb (percentOf t) (Js.of_Z t))
   else Js.same (percentOf t) (Js.of_Z t))
  && Js.same (Js.round (percentOf t)) (Js.of_Z t).

Definition calculateNumberProbability (number : Z) (draws : list Draw.t)
    (type : PoolType) : NumberProbability.t :=
  let frequencyScore := calculateFrequencyScore number draws type in
  let hotColdScore := calculateHotColdScore number draws type in
  let patternScore := calculatePatternScore number type in
  let overdueScore := calculateOverdueScore number draws type in
  let totalScore := frequencyScore + hotColdScore + patternScore + overdueScore in
  let winChance := percentOf totalScore in
  NumberProbability.mk number frequencyScore hotColdScore patternScore
    overdueScore totalScore winChance.

(** [for (i = 1; i <= maxNumber; i++) ...]: the integers 1..maxNumber. *)
Definition range1 (maxNumber : nat) : list Z :=
  map Z.of_nat (seq 1 maxNumber).

(** [type === 'numbers' ? 50 : 12]. *)
Definition maxNumber (type : PoolType) : nat :=
  match type with TNumbers => 50%nat | TStars => 12%nat end.

Definition getAllNumberProbabilities (draws : list Draw.t) (type : PoolType)
    : list NumberProbability.t :=
  let probabilities :=
    map (fun i => calculateNumberProbability i draws type)
        (range1 (maxNumber type)) in
  sort (descendingBy NumberProbability.totalScore) probabilities.

(** The four running totals of [scoreCombination]. *)
Record Totals := mkTotals {
  totalFrequency : Z;
  totalHotCold : Z;
  totalPattern : Z;
  totalOverdue : Z
}.

Definition addProbability (t : Totals) (prob : NumberProbability.t) : Totals :=
  mkTotals (totalFrequency t + NumberProbability.frequencyScore prob)
           (totalHotCold t + NumberProbability.hotColdScore prob)
           (totalPattern t + NumberProbability.patternScore prob)
           (totalOverdue t + NumberProbability.overdueScore prob).

(** [Math.round(x * 10) / 10]. *)
Definition round1 (x : Js.number) : Js.number :=
  Js.div (Js.round (Js.mul x (Js.of_Z 10))) (Js.of_Z 10).

(** [n / 10] as a double. *)
Definition tenth (n : Z) : Js.number := Js.div (Js.of_Z n) (Js.of_Z 10).

(** Whether [tenth n] is zero or a finite double of the format, below
    [tenth (n + 1)]. *)
Definition tenthOk (n : Z) : bool :=
  match tenth n with
  | S754_zero false => n =? 0
  | S754_finite false m e => (-1074 <=? e) && (Zpos m <? 2 ^ 53)
  | _ => false
  end
  && (units (tenth n) <? units (tenth (n + 1))).

Definition scoreCombination (numbers stars : list Z) (draws : list Draw.t)
    : CombinationScore.t :=
  let t := mkTotals 0 0 0 0 in
  let t := fold_left (fun t num =>
             addProbability t (calculateNumberProbability num draws TNumbers))
             numbers t in
  let t := fold_left (fun t star =>
             addProbability t (calculateNumberProbability star draws TStars))
             stars t in
  let count := Js.of_Z (Z.of_nat (List.length numbers) + Z.of_nat (List.length stars)) in
  let avgFrequency := Js.div (Js.of_Z (totalFrequency t)) count in
  let avgHotCold := Js.div (Js.of_Z (totalHotCold t)) count in
  let avgPattern := Js.div (Js.of_Z (totalPattern t)) count in
  let avgOverdue := Js.div (Js.of_Z (totalOverdue t)) count in
  let evenCount :=
    Z.of_nat (List.length (filter (fun n => jsmod n 2 =? 0) numbers)) in
  let lowCount := Z.of_nat (List.length (filter (fun n => n <=? 25) numbers)) in
  let balanceBonus := 0 in
  let balanceBonus := if (evenCount >=? 2) && (evenCount <=? 3)
                      then balanceBonus + 3 else balanceBonus in
  let balanceBonus := if (lowCount >=? 2) && (lowCount <=? 3)
                      then balanceBonus + 3 else balanceBonus in
  let probabilityScore :=
    Js.min (Js.of_Z 100)
      (Js.add (Js.add (Js.add (Js.add avgFrequency avgHotCold) avgPattern)
                 avgOverdue) (Js.of_Z balanceBonus)) in
  let winChance :=
    Js.toFixed2 (Js.mul (Js.div probabilityScore (Js.of_Z 100)) (Js.of_Z 15)) in
  CombinationScore.mk numbers stars
    (round1 probabilityScore)
    (winChance ++ "%")
    (Breakdown.mk (round1 avgFrequency) (round1 avgHotCold)
       (round1 (Js.add avgPattern (Js.of_Z balanceBonus)))
       (round1 avgOverdue)).

End ProbabilityScoring.

(* ================================================================== *)
(** ** hotColdAnalysis.ts *)

Inductive StreakType := hot | cold | neutral.
Inductive Trend := rising | falling | stable.

Module HotColdNumber.
Record t := mk {
  number : Z;
  appearances : Z;
  streakType : StreakType;
  streak : Z;
  trend : Trend
}.
End HotColdNumber.

Module HotColdAnalysis.

(** [draws.filter(d => pool(d).includes(num)).length]. *)
Definition filterCount (type : PoolType) (num : Z) (draws : list Draw.t) : Z :=
  Z.of_nat (List.length (filter (fun d => includes (poolOf type d) num) draws)).

(** The body of the loop of [analyzeTemperature] for one [num]. *)
Definition analyzeNumber (draws : list Draw.t) (type : PoolType) (num : Z)
    : HotColdNumber.t :=
  let recentDraws := firstn 10 draws in
  let midDraws := firstn 20 draws in
  let recentCount := filterCount type num recentDraws in
  let midCount := filterCount type num midDraws in
  let lastSeen := findLastSeen type num 0 draws in
  let streakType :=
    if recentCount >=? (match type with TNumbers => 3 | TStars => 4 end)
    then hot
    else if lastSeen >? 7 then cold
    else neutral in
  let recentRate := Js.div (Js.of_Z recentCount) (Js.of_Z 10) in
  let midRate := Js.div (Js.of_Z midCount) (Js.of_Z 20) in
  let trend :=
    if Js.gtb recentRate (Js.add midRate (Js.lit 1 10)) then rising
    else if Js.ltb recentRate (Js.sub midRate (Js.lit 1 10)) then falling
    else stable in
  HotColdNumber.mk num recentCount streakType
    (if lastSeen =? -1 then Z.of_nat (List.length draws) else lastSeen)
    trend.

Definition analyzeTemperature (allNumbers : list Z) (draws : list Draw.t)
    (type : PoolType) (maxNumber : Z) : list HotColdNumber.t :=
  let results :=
    map (analyzeNumber draws type)
        (ProbabilityScoring.range1 (Z.to_nat maxNumber)) in
  sort (descendingBy HotColdNumber.appearances) results.

Definition isHot (n : HotColdNumber.t) : bool :=
  match HotColdNumber.streakType n with hot => true | _ => false end.

Definition isCold (n : HotColdNumber.t) : bool :=
  match HotColdNumber.streakType n with cold => true | _ => false end.

Definition getHotNumbers (draws : list Draw.t) : list HotColdNumber.t :=
  filter (fun n => isHot n || (HotColdNumber.appearances n >=? 3))
         (analyzeTemperature [] draws TNumbers 50).

Definition getColdNumbers (draws : list Draw.t) : list HotColdNumber.t :=
  filter (fun n => isCold n || (HotColdNumber.streak n >? 5))
         (analyzeTemperature [] draws TNumbers 50).

Definition getHotStars (draws : list Draw.t) : list HotColdNumber.t :=
  filter (fun n => isHot n || (HotColdNumber.appearances n >=? 4))
         (analyzeTemperature [] draws TStars 12).

Definition getColdStars (draws : list Draw.t) : list HotColdNumber.t :=
  filter (fun n => isCold n || (HotColdNumber.streak n >? 3))
         (analyzeTemperature [] draws TStars 12).

Definition getOverdueNumbers (draws : list Draw.t) : list Z :=
  map HotColdNumber.number
      (filter (fun n => HotColdNumber.streak n >? 10)
              (analyzeTemperature [] draws TNumbers 50)).

Definition getOverdueStars (draws : list Draw.t) : list Z :=
  map HotColdNumber.number
      (filter (fun n => HotColdNumber.streak n >? 6)
              (analyzeTemperature [] draws TStars 12)).

(** The [HotColdAnalysis] interface. *)
Record Analysis := mkAnalysis {
  hotNumbers : list HotColdNumber.t;
  coldNumbers : list HotColdNumber.t;
  hotStars : list HotColdNumber.t;
  coldStars : list HotColdNumber.t;
  overdue : list Z;
  overdueStars : list Z
}.

Definition analyzeHotCold (draws : list Draw.t) : Analysis :=
  mkAnalysis (getHotNumbers draws) (getColdNumbers draws)
    (getHotStars draws) (getColdStars draws)
    (getOverdueNumbers draws) (getOverdueStars draws).

(** The object that [getHotColdRecommendation] returns. *)
Record Recommendation := mkRecommendation {
  useHot : list Z;
  useOverdue : list Z;
  avoidCold : list Z;
  hotStarsToUse : list Z
}.

Definition getHotColdRecommendation (draws : list Draw.t) : Recommendation :=
  let analysis := analyzeHotCold draws in
  mkRecommendation
    (map HotColdNumber.number (firstn 5 (hotNumbers analysis)))
    (firstn 3 (overdue analysis))
    (map HotColdNumber.number (firstn 5 (coldNumbers analysis)))
    (map HotColdNumber.number (firstn 2 (hotStars analysis))).

End HotColdAnalysis.

(* ================================================================== *)
(** ** frequencyModel.ts *)

Module FrequencyData.
Record t := mk {
  number : Z;
  count : Z;
  percentage : Js.number;
  lastSeen : Z
}.
End FrequencyData.

Module FrequencyModel.

(** A value of the [Map<number, { count, lastIndex }>]. *)
Record Entry := mkEntry { count : Z; lastIndex : Z }.

(** The map, as its entries in insertion order (the order in which
    [frequency.entries()] yields them). *)
Definition FrequencyMap := list (Z * Entry).

(** [for (i = 1; i <= max; i++) frequency.set(i, { count: 0, lastIndex: -1 })]. *)
Definition initial (max : nat) : FrequencyMap :=
  map (fun i => (i, mkEntry 0 (-1))) (ProbabilityScoring.range1 max).

(** One step of the inner loop: [current = frequency.get(num)!;
    current.count++; if (current.lastIndex === -1) current.lastIndex = index].
    [None] is the TypeError raised when [num] is not a key of the map. *)
Fixpoint record (num index : Z) (frequency : FrequencyMap)
    : option FrequencyMap :=
  match frequency with
  | [] => None
  | (k, current) :: rest =>
      if k =? num
      then Some ((k, mkEntry (count current + 1)
                       (if lastIndex current =? -1 then index
                        else lastIndex current)) :: rest)
      else option_map (cons (k, current)) (record num index rest)
  end.

(** [nums.forEach(num => ...)] for the draw at [index]. *)
Fixpoint recordAll (nums : list Z) (index : Z) (frequency : FrequencyMap)
    : option FrequencyMap :=
  match nums with
  | [] => Some frequency
  | num :: rest =>
      match record num index frequency with
      | Some frequency' => recordAll rest index frequency'
      | None => None
      end
  end.

(** [draws.forEach((draw, index) => ...)], from index [index] on. *)
Fixpoint countOccurrences (type : PoolType) (draws : list Draw.t) (index : Z)
    (frequency : FrequencyMap) : option FrequencyMap :=
  match draws with
  | [] => Some frequency
  | draw :: rest =>
      match recordAll (poolOf type draw) index frequency with
      | Some frequency' => countOccurrences type rest (index + 1) frequency'
      | None => None
      end
  end.

(** How often [n] occurs in the pools of the draws, every occurrence
    counted: what the counting loop is expected to leave in [count]. *)
Definition occurrences (type : PoolType) (n : Z) (draws : list Draw.t) : Z :=
  fold_right
    (fun d acc => Z.of_nat (count_occ Z.eq_dec (poolOf type d) n) + acc)
    0 draws.

(** The entry under [num] after one step of the inner loop. *)
Definition bumpAt (num index : Z) (p : Z * Entry) : Z * Entry :=
  let '(k, current) := p in
  if k =? num
  then (k, mkEntry (count current + 1)
             (if lastIndex current =? -1 then index else lastIndex current))
  else (k, current).

(** An entry after the whole inner loop for the draw at [index]. *)
Definition afterDraw (nums : list Z) (index : Z) (p : Z * Entry)
    : Z * Entry :=
  let '(k, e) := p in
  (k, mkEntry (count e + Z.of_nat (count_occ Z.eq_dec nums k))
        (if lastIndex e =? -1
         then (if includes nums k then index else -1)
         else lastIndex e)).

(** An entry after the outer loop over [draws], started at [index]. *)
Definition afterDraws (type : PoolType) (draws : list Draw.t) (index : Z)
    (p : Z * Entry) : Z * Entry :=
  let '(k, e) := p in
  (k, mkEntry (count e + occurrences type k draws)
        (if lastIndex e =? -1
         then findLastSeen type k index draws
         else lastIndex e)).

Definition toFrequencyData (total : Z) (e : Z * Entry) : FrequencyData.t :=
  let '(number, data) := e in
  FrequencyData.mk number (count data)
    (if total >? 0
     then Js.mul (Js.div (Js.of_Z (count data)) (Js.of_Z total)) (Js.of_Z 100)
     else Js.of_Z 0)
    (if lastIndex data =? -1 then total else lastIndex data).

Definition frequencyTable (type : PoolType) (max : nat) (draws : list Draw.t)
    : option (list FrequencyData.t) :=
  match countOccurrences type draws 0 (initial max) with
  | None => None
  | Some frequency =>
      let total := Z.of_nat (List.length draws) in
      Some (sort (descendingBy FrequencyData.count)
                 (map (toFrequencyData total) frequency))
  end.

Definition calculateNumberFrequency (draws : list Draw.t)
    : option (list FrequencyData.t) :=
  frequencyTable TNumbers 50 draws.

Definition calculateStarFrequency (draws : list Draw.t)
    : option (list FrequencyData.t) :=
  frequencyTable TStars 12 draws.

(** The [recentPatterns] object. *)
Record RecentPatterns := mkRecentPatterns {
  consecutiveNumbers : Z;
  evenOddRatio : string;
  lowHighRatio : string
}.

(** [for (i = 0; i < sorted.length - 1; i++)
      if (sorted[i + 1] - sorted[i] === 1) consecutiveCount++]. *)
Fixpoint countConsecutive (sortedNumbers : list Z) : Z :=
  match sortedNumbers with
  | a :: (b :: _) as rest =>
      (if b - a =? 1 then 1 else 0) + countConsecutive rest
  | _ => 0
  end.

(** The five counters of [analyzeRecentPatterns]. *)
Record PatternCounts := mkPatternCounts {
  consecutiveCount : Z;
  evenCount : Z;
  oddCount : Z;
  lowCount : Z;
  highCount : Z
}.

(** The body of [recentDraws.forEach(draw => ...)]. *)
Definition tallyDraw (c : PatternCounts) (draw : Draw.t) : PatternCounts :=
  let sortedNumbers := sort ascending (Draw.numbers draw) in
  let count (test : Z -> bool) :=
    Z.of_nat (List.length (filter test (Draw.numbers draw))) in
  mkPatternCounts (consecutiveCount c + countConsecutive sortedNumbers)
    (evenCount c + count (fun n => jsmod n 2 =? 0))
    (oddCount c + count (fun n => negb (jsmod n 2 =? 0)))
    (lowCount c + count (fun n => n <=? 25))
    (highCount c + count (fun n => negb (n <=? 25))).

(** The template literal [`${a}:${b}`] on two counters. *)
Definition ratio (a b : Z) : string :=
  (Js.string_of_N (Z.to_N a) ++ ":" ++ Js.string_of_N (Z.to_N b))%string.

Definition recentCounts (draws : list Draw.t) : PatternCounts :=
  fold_left tallyDraw (firstn 10 draws) (mkPatternCounts 0 0 0 0 0).

Definition analyzeRecentPatterns (draws : list Draw.t) : RecentPatterns :=
  if (List.length draws =? 0)%nat
  then mkRecentPatterns 0 "0:0" "0:0"
  else
    let c := recentCounts draws in
    mkRecentPatterns (consecutiveCount c)
      (ratio (evenCount c) (oddCount c))
      (ratio (lowCount c) (highCount c)).

(** [arr.slice(-k)]: the last [k] elements. *)
Definition lastn {A : Type} (k : nat) (l : list A) : list A :=
  skipn (List.length l - k) l.

(** The [FrequencyAnalysis] interface. *)
Record FrequencyAnalysis := mkFrequencyAnalysis {
  numberFrequency : list FrequencyData.t;
  starFrequency : list FrequencyData.t;
  mostCommonNumbers : list Z;
  mostCommonStars : list Z;
  leastCommonNumbers : list Z;
  leastCommonStars : list Z;
  recentPatterns : RecentPatterns
}.

(** [None] when one of the two frequency tables throws. *)
Definition analyzeFrequency (draws : list Draw.t) : option FrequencyAnalysis :=
  match calculateNumberFrequency draws with
  | None => None
  | Some numberFrequency =>
      match calculateStarFrequency draws with
      | None => None
      | Some starFrequency =>
          let recentPatterns := analyzeRecentPatterns draws in
          Some (mkFrequencyAnalysis numberFrequency starFrequency
                  (map FrequencyData.number (firstn 10 numberFrequency))
                  (map FrequencyData.number (firstn 4 starFrequency))
                  (map FrequencyData.number (lastn 10 numberFrequency))
                  (map FrequencyData.number (lastn 4 starFrequency))
                  recentPatterns)
      end
  end.

End FrequencyModel.

(* ================================================================== *)
(** ** drawChecker.ts *)

Module Bet.
Record t := mk { id : string; numbers : list Z; stars : list Z }.
End Bet.

Module MatchResult.
Record t := mk {
  betId : string;
  numbers : list Z;
  stars : list Z;
  matchedNumbers : list Z;
  matchedStars : list Z;
  numberMatchCount : Z;
  starMatchCount : Z;
  matchCode : string;
  isWinner : bool;
  prize : string
}.
End MatchResult.

Module DrawChecker.

Local Open Scope string_scope.

Definition PRIZE_TIERS : list (string * string) :=
  [ ("5+2", "🏆 JACKPOT!");
    ("5+1", "€300,000+");
    ("5+0", "€50,000+");
    ("4+2", "€3,000+");
    ("4+1", "€150+");
    ("4+0", "€50+");
    ("3+2", "€30+");
    ("3+1", "€12+");
    ("2+2", "€8+");
    ("3+0", "€10+");
    ("1+2", "€7+");
    ("2+1", "€5+") ].

(** [PRIZE_TIERS[key]]: the value of the object's own property [key], if
    any (a match code is digits, a plus sign and digits, so it names no
    inherited property). *)
Fixpoint lookup (key : string) (table : list (string * string))
    : option string :=
  match table with
  | [] => None
  | (k, v) :: rest => if String.eqb k key then Some v else lookup key rest
  end.

(** [value || fallback] on a looked-up string: undefined and the empty
    string are the falsy ones. *)
Definition orElse (value : option string) (fallback : string) : string :=
  match value with
  | Some v => if String.eqb v "" then fallback else v
  | None => fallback
  end.

(** The template literal [`${numberMatchCount}+${starMatchCount}`]. *)
Definition matchCodeOf (numberMatchCount starMatchCount : Z) : string :=
  Js.string_of_N (Z.to_N numberMatchCount) ++ "+"
    ++ Js.string_of_N (Z.to_N starMatchCount).

Definition checkBet (bet : Bet.t) (draw : Draw.t) : MatchResult.t :=
  let matchedNumbers :=
    filter (fun n => includes (Draw.numbers draw) n) (Bet.numbers bet) in
  let matchedStars :=
    filter (fun s => includes (Draw.stars draw) s) (Bet.stars bet) in
  let numberMatchCount := Z.of_nat (List.length matchedNumbers) in
  let starMatchCount := Z.of_nat (List.length matchedStars) in
  let matchCode := matchCodeOf numberMatchCount starMatchCount in
  let prize := orElse (lookup matchCode PRIZE_TIERS) "No prize" in
  let isWinner := negb (String.eqb prize "No prize") in
  MatchResult.mk (Bet.id bet) (Bet.numbers bet) (Bet.stars bet)
    matchedNumbers matchedStars numberMatchCount starMatchCount
    matchCode isWinner prize.

Definition checkAllBets (bets : list Bet.t) (draw : Draw.t)
    : list MatchResult.t :=
  map (fun bet => checkBet bet draw) bets.

(** The sort key of [findClosestBet]. *)
Definition closeness (r : MatchResult.t) : Z :=
  MatchResult.numberMatchCount r * 10 + MatchResult.starMatchCount r.

(** [None] is the [null] of the source. *)
Definition findClosestBet (bets : list Bet.t) (draw : Draw.t)
    : option MatchResult.t :=
  if (List.length bets =? 0)%nat then None
  else
    let results := checkAllBets bets draw in
    let results := sort (descendingBy closeness) results in
    nth_error results 0.

Definition hasHighPotential (result : MatchResult.t) : bool :=
  (MatchResult.numberMatchCount result >=? 4)%Z
  || ((MatchResult.numberMatchCount result >=? 3)%Z
      && (MatchResult.starMatchCount result >=? 2)%Z).

Definition getMatchSummary (result : MatchResult.t) : string :=
  if MatchResult.isWinner result
  then "🎉 " ++ MatchResult.matchCode result ++ " - " ++ MatchResult.prize result
  else if (MatchResult.numberMatchCount result >? 0)%Z
          || (MatchResult.starMatchCount result >? 0)%Z
       then MatchResult.matchCode result ++ " match"
       else "No matches".

End DrawChecker.

(* ================================================================== *)
(** ** smartCombinationGenerator.ts *)

Module GeneratedCombination.
(** [CombinationScore] extended with [rank] and [confidence]. *)
Record t := mk {
  numbers : list Z;
  stars : list Z;
  probabilityScore : Js.number;
  winChance : string;
  breakdown : Breakdown.t;
  rank : Z;
  confidence : string
}.

(** The object literal [{ ...score, rank, confidence }]. *)
Definition ofScore (score : CombinationScore.t) (rank : Z)
    (confidence : string) : t :=
  mk (CombinationScore.numbers score) (CombinationScore.stars score)
     (CombinationScore.probabilityScore score)
     (CombinationScore.winChance score)
     (CombinationScore.breakdown score) rank confidence.

(** The object literal [{ ...combo, rank }]. *)
Definition withRank (combo : t) (rank : Z) : t :=
  mk (numbers combo) (stars combo) (probabilityScore combo)
     (winChance combo) (breakdown combo) rank (confidence combo).
End GeneratedCombination.

Module SmartCombinationGenerator.

Import ProbabilityScoring.

Abbreviation numberOf := NumberProbability.number.

(** [candidates.find(c => !selected.includes(c.number))]. *)
Definition firstUnselected (candidates : list NumberProbability.t)
    (selected : list Z) : option NumberProbability.t :=
  find (fun c => negb (includes selected (numberOf c))) candidates.

(** [candidates.filter(c => !selected.includes(c.number))[0]]. *)
Definition firstRemaining (candidates : list NumberProbability.t)
    (selected : list Z) : option NumberProbability.t :=
  nth_error
    (filter (fun c => negb (includes selected (numberOf c))) candidates) 0.

(** The filling loops
    [while (selected.length < limit) { c = pick(selected);
       if (c) selected.push(c.number); else break; }].
    Every turn makes [selected] one longer, so [limit] turns are never
    exceeded ([fillWhile_exit] below); [fuel] counts them. *)
Fixpoint fillWhile (fuel : nat) (limit : nat)
    (pick : list Z -> option NumberProbability.t) (selected : list Z)
    : list Z :=
  match fuel with
  | O => selected
  | S fuel' =>
      if (List.length selected <? limit)%nat
      then match pick selected with
           | Some c => fillWhile fuel' limit pick (selected ++ [numberOf c])
           | None => selected
           end
      else selected
  end.

(** [if (!selected.includes(c.number)) selected.push(c.number)]. *)
Definition pushNew (selected : list Z) (c : NumberProbability.t) : list Z :=
  if includes selected (numberOf c) then selected
  else selected ++ [numberOf c].

(** One turn of the first loop of [selectBestNumbers]; once five are
    selected the turn changes nothing, which is the [break]. *)
Definition bestStep (selected : list Z) (candidate : NumberProbability.t)
    : list Z :=
  if (5 <=? List.length selected)%nat then selected
  else
    let hasConsecutive :=
      existsb (fun n => Z.abs (n - numberOf candidate) =? 1) selected in
    if (3 <=? List.length selected)%nat && hasConsecutive then selected
    else selected ++ [numberOf candidate].

Definition selectBestNumbers (numberProbs : list NumberProbability.t)
    : list Z :=
  let topCandidates := firstn 15 numberProbs in
  let selected := fold_left bestStep topCandidates [] in
  let selected := fillWhile 5 5 (firstRemaining topCandidates) selected in
  sort ascending selected.

Definition selectBestStars (starProbs : list NumberProbability.t) : list Z :=
  sort ascending (map numberOf (firstn 2 starProbs)).

Definition selectBalancedNumbers (numberProbs : list NumberProbability.t)
    : list Z :=
  let hotNumbers :=
    firstn 10 (sort (descendingBy NumberProbability.hotColdScore) numberProbs) in
  let overdueNumbers :=
    firstn 10 (sort (descendingBy NumberProbability.overdueScore) numberProbs) in
  let selected := fold_left pushNew (firstn 3 hotNumbers) [] in
  let selected :=
    fold_left (fun selected c =>
                 if (List.length selected <? 5)%nat then pushNew selected c
                 else selected)
              overdueNumbers selected in
  let selected := fillWhile 5 5 (firstUnselected numberProbs) selected in
  sort ascending selected.

Definition selectBalancedStars (starProbs : list NumberProbability.t)
    : list Z :=
  let hotStars :=
    sort (descendingBy NumberProbability.hotColdScore) starProbs in
  let overdueStars :=
    sort (descendingBy NumberProbability.overdueScore) starProbs in
  let selected :=
    match hotStars with
    | [] => []
    | s :: _ => [numberOf s]
    end in
  let selected :=
    match firstUnselected overdueStars selected with
    | Some star => selected ++ [numberOf star]
    | None => selected
    end in
  let selected := fillWhile 2 2 (firstUnselected starProbs) selected in
  sort ascending selected.

(** The state of the first loop of [selectPatternNumbers]. *)
Record Tally := mkTally {
  selectedOf : list Z;
  evenCount : Z;
  oddCount : Z;
  lowCount : Z;
  highCount : Z
}.

Definition patternStep (t : Tally) (candidate : NumberProbability.t) : Tally :=
  if (5 <=? List.length (selectedOf t))%nat then t
  else
    let isEven := jsmod (numberOf candidate) 2 =? 0 in
    let isLow := numberOf candidate <=? 25 in
    if isEven && (evenCount t >=? 3) then t
    else if negb isEven && (oddCount t >=? 3) then t
    else if isLow && (lowCount t >=? 3) then t
    else if negb isLow && (highCount t >=? 3) then t
    else
      mkTally (selectedOf t ++ [numberOf candidate])
        (if isEven then evenCount t + 1 else evenCount t)
        (if isEven then oddCount t else oddCount t + 1)
        (if isLow then lowCount t + 1 else lowCount t)
        (if isLow then highCount t else highCount t + 1).

Definition selectPatternNumbers (numberProbs : list NumberProbability.t)
    : list Z :=
  let topCandidates := firstn 20 numberProbs in
  let t := fold_left patternStep topCandidates (mkTally [] 0 0 0 0) in
  let selected :=
    fillWhile 5 5 (firstUnselected topCandidates) (selectedOf t) in
  sort ascending selected.

(** The inner loop of the weighted selection: the first unselected
    candidate at which the running weight reaches [randomValue]. *)
Fixpoint pickWeighted (randomValue : Js.number) (selected : list Z)
    (candidates : list NumberProbability.t) (cumulativeWeight : Z)
    : option Z :=
  match candidates with
  | [] => None
  | c :: rest =>
      if includes selected (numberOf c)
      then pickWeighted randomValue selected rest cumulativeWeight
      else
        let cumulativeWeight :=
          cumulativeWeight + NumberProbability.totalScore c in
        if Js.leb randomValue (Js.of_Z cumulativeWeight)
        then Some (numberOf c)
        else pickWeighted randomValue selected rest cumulativeWeight
  end.

(** A selection made of distinct numbers of the [universe]. *)
Definition goodSelection (universe selected : list Z) : Prop :=
  NoDup selected /\ incl selected universe.

(** A selection of [size] distinct numbers of 1..[max]. *)
Definition validSelection (size : nat) (max : Z) (selected : list Z) : Prop :=
  List.length selected = size
  /\ NoDup selected
  /\ Forall (fun x => 1 <= x <= max) selected.

Section WeightedRandom.

(** [Math.sin]. *)
Variable sin : Js.number -> Js.number.

(** [random(index)] with the multipliers [a] and [b] of the source:
    [x = Math.sin(seed * a + index * b) * 10000; x - Math.floor(x)]. *)
Definition random (a b seed index : Z) : Js.number :=
  let x := Js.mul (sin (Js.of_Z (seed * a + index * b))) (Js.of_Z 10000) in
  Js.sub x (Js.floor x).

(** One turn [i] of the selection loop, fallback included. *)
Definition weightedStep (a b seed : Z)
    (topCandidates : list NumberProbability.t) (totalWeight : Z)
    (selected : list Z) (i : Z) : list Z :=
  let randomValue := Js.mul (random a b seed i) (Js.of_Z totalWeight) in
  let selected :=
    match pickWeighted randomValue selected topCandidates 0 with
    | Some n => selected ++ [n]
    | None => selected
    end in
  if Z.of_nat (List.length selected) =? i
  then match firstUnselected topCandidates selected with
       | Some candidate => selected ++ [numberOf candidate]
       | None => selected
       end
  else selected.

Definition selectWeighted (a b : Z) (top picks : nat)
    (probs : list NumberProbability.t) (seed : Z) : list Z :=
  let topCandidates := firstn top probs in
  let weights := map NumberProbability.totalScore topCandidates in
  let totalWeight := fold_left (fun sum w => sum + w) weights 0 in
  let selected :=
    fold_left (weightedStep a b seed topCandidates totalWeight)
              (map Z.of_nat (seq 0 picks)) [] in
  sort ascending selected.

Definition selectWeightedRandomNumbers
    (numberProbs : list NumberProbability.t) (seed : Z) : list Z :=
  selectWeighted 12345 67890 25 5 numberProbs seed.

Definition selectWeightedRandomStars
    (starProbs : list NumberProbability.t) (seed : Z) : list Z :=
  selectWeighted 54321 98760 6 2 starProbs seed.

Definition calculateConfidence (probabilityScore : Js.number) (rank : Z)
    : string :=
  let confidence := Js.div probabilityScore (Js.of_Z 100) in
  let confidence :=
    Js.mul confidence
      (Js.max (Js.lit 5 10)
         (Js.sub (Js.of_Z 1) (Js.mul (Js.of_Z rank) (Js.lit 5 100)))) in
  Js.toFixed2 confidence.

(** The combination of slot [i]. *)
Definition generateSlot (draws : list Draw.t)
    (numberProbs starProbs : list NumberProbability.t) (i : Z)
    : GeneratedCombination.t :=
  let '(numbers, stars) :=
    if i =? 0 then
      (selectBestNumbers numberProbs, selectBestStars starProbs)
    else if i =? 1 then
      (selectBalancedNumbers numberProbs, selectBalancedStars starProbs)
    else if i =? 2 then
      (selectPatternNumbers numberProbs, selectBestStars starProbs)
    else
      (selectWeightedRandomNumbers numberProbs i,
       selectWeightedRandomStars starProbs i) in
  let score := scoreCombination numbers stars draws in
  let confidence :=
    calculateConfidence (CombinationScore.probabilityScore score) i in
  GeneratedCombination.ofScore score (i + 1) confidence.

(** [.map((combo, index) => ({ ...combo, rank: index + 1 }))]. *)
Fixpoint reRank (index : Z) (combos : list GeneratedCombination.t)
    : list GeneratedCombination.t :=
  match combos with
  | [] => []
  | combo :: rest =>
      GeneratedCombination.withRank combo (index + 1)
        :: reRank (index + 1) rest
  end.

Definition generateTopCombinations (draws : list Draw.t) (count : Z)
    : list GeneratedCombination.t :=
  let numCount := Z.min 10 (Z.max 1 count) in
  let numberProbs := getAllNumberProbabilities draws TNumbers in
  let starProbs := getAllNumberProbabilities draws TStars in
  let combinations :=
    map (generateSlot draws numberProbs starProbs)
        (map Z.of_nat (seq 0 (Z.to_nat numCount))) in
  reRank 0
    (sort (descendingByNumber GeneratedCombination.probabilityScore)
          combinations).

End WeightedRandom.

(** An element of the array that [rankCombinations] receives. *)
Record Combination := mkCombination {
  combinationNumbers : list Z;
  combinationStars : list Z
}.

(** [combinations.map((combo, index) => ...)] of [rankCombinations], from
    index [index] on. *)
Fixpoint scoreAll (index : Z) (combinations : list Combination)
    (draws : list Draw.t) : list GeneratedCombination.t :=
  match combinations with
  | [] => []
  | combo :: rest =>
      let score :=
        scoreCombination (combinationNumbers combo) (combinationStars combo)
          draws in
      let confidence :=
        calculateConfidence (CombinationScore.probabilityScore score) index in
      GeneratedCombination.ofScore score (index + 1) confidence
        :: scoreAll (index + 1) rest draws
  end.

(** The comparator is consistent when no score is NaN, that is when no
    combination is empty; the order of the result is then the one that the
    language prescribes. *)
Definition rankCombinations (combinations : list Combination)
    (draws : list Draw.t) : list GeneratedCombination.t :=
  reRank 0
    (sort (descendingByNumber GeneratedCombination.probabilityScore)
          (scoreAll 0 combinations draws)).

End SmartCombinationGenerator.

(* ================================================================== *)
(** ** Predicates of the statements *)

(** A decimal digit. *)
Definition is_digit (c : ascii) : bool :=
  (48 <=? nat_of_ascii c)%nat && (nat_of_ascii c <=? 57)%nat.

Fixpoint all_digits (s : string) : bool :=
  match s with
  | EmptyString => true
  | String c rest => is_digit c && all_digits rest
  end.

(** Larger key first and, under equal keys, smaller index first. *)
Definition keyThenIndex {A : Type} (key index : A -> Z) (a b : A) : Prop :=
  key b < key a \/ (key b = key a /\ index a < index b).

(* ================================================================== *)
(** * Properties *)

(** ** Lists and the stable sort *)

Lemma includes_In (l : list Z) (n : Z) : includes l n = true <-> In n l.
Proof.
  unfold includes. rewrite existsb_exists. split.
  - intros (x & Hx & Heq). apply Z.eqb_eq in Heq. now subst.
  - intros H. exists n. split; [assumption | apply Z.eqb_refl].
Qed.

Lemma includes_false (l : list Z) (n : Z) : includes l n = false <-> ~ In n l.
Proof.
  rewrite <- includes_In. destruct (includes l n); split; congruence.
Qed.

Section StableSortFacts.

Context {A : Type}.
Variable cmp : A -> A -> comparison.

Lemma insertSorted_perm (x : A) (l : list A) :
  Permutation (insertSorted cmp x l) (x :: l).
Proof.
  induction l as [|y l IH]; simpl.
  - apply Permutation_refl.
  - destruct (cmp x y); try apply Permutation_refl.
    eapply perm_trans; [apply perm_skip, IH | apply perm_swap].
Qed.

Lemma sort_perm (l : list A) : Permutation (sort cmp l) l.
Proof.
  induction l as [|x l IH]; simpl.
  - apply perm_nil.
  - eapply perm_trans; [apply insertSorted_perm | now apply perm_skip].
Qed.

Lemma sort_length (l : list A) : List.length (sort cmp l) = List.length l.
Proof. apply Permutation_length, sort_perm. Qed.

Lemma sort_In (l : list A) (x : A) : In x (sort cmp l) <-> In x l.
Proof.
  split; apply Permutation_in; [| apply Permutation_sym]; apply sort_perm.
Qed.

(** A comparator that never asks for both orders. *)
Hypothesis cmp_asym : forall x y, cmp x y = Gt -> cmp y x <> Gt.

Lemma insertSorted_HdRel (a x : A) (l : list A) :
  inOrder cmp a x -> HdRel (inOrder cmp) a l -> HdRel (inOrder cmp) a (insertSorted cmp x l).
Proof.
  intros Hax Hal. destruct l as [|y l]; simpl.
  - now constructor.
  - inversion Hal; subst. destruct (cmp x y); now constructor.
Qed.

Lemma insertSorted_Sorted (x : A) (l : list A) :
  Sorted (inOrder cmp) l -> Sorted (inOrder cmp) (insertSorted cmp x l).
Proof.
  induction l as [|y l IH]; simpl; intros Hs.
  - repeat constructor.
  - destruct (cmp x y) eqn:Hxy.
    + constructor; [assumption | constructor; unfold inOrder; congruence].
    + constructor; [assumption | constructor; unfold inOrder; congruence].
    + inversion Hs; subst. constructor; [now apply IH |].
      apply insertSorted_HdRel; [now apply cmp_asym | assumption].
Qed.

Lemma sort_Sorted (l : list A) : Sorted (inOrder cmp) (sort cmp l).
Proof.
  induction l as [|x l IH]; simpl.
  - constructor.
  - now apply insertSorted_Sorted.
Qed.

End StableSortFacts.

Lemma descendingBy_asym {A : Type} (key : A -> Z) (x y : A) :
  descendingBy key x y = Gt -> descendingBy key y x <> Gt.
Proof.
  unfold descendingBy. rewrite !Z.compare_gt_iff. lia.
Qed.

Lemma descendingBy_inOrder {A : Type} (key : A -> Z) (x y : A) :
  inOrder (descendingBy key) x y <-> key y <= key x.
Proof.
  unfold inOrder, descendingBy.
  destruct (Z.compare_spec (key y - key x) 0); split; intros; try lia;
    congruence.
Qed.

Lemma ascending_asym (x y : Z) : ascending x y = Gt -> ascending y x <> Gt.
Proof.
  unfold ascending. rewrite !Z.compare_gt_iff. lia.
Qed.

Lemma ascending_inOrder (x y : Z) : inOrder ascending x y <-> x <= y.
Proof.
  unfold inOrder, ascending.
  destruct (Z.compare_spec (x - y) 0); split; intros; try lia; congruence.
Qed.

Lemma Sorted_impl {A : Type} (R R' : A -> A -> Prop) (l : list A) :
  (forall a b, R a b -> R' a b) -> Sorted R l -> Sorted R' l.
Proof.
  intros HR. induction 1 as [|a l Hs IH Hd]; constructor.
  - exact IH.
  - destruct Hd; constructor. now apply HR.
Qed.

(** A list sorted by an integer key, largest first. *)
Lemma sort_descendingBy_Sorted {A : Type} (key : A -> Z) (l : list A) :
  StronglySorted (fun a b => key b <= key a) (sort (descendingBy key) l).
Proof.
  apply Sorted_StronglySorted.
  - intros a b c Hab Hbc; simpl in *; lia.
  - apply Sorted_impl with (R := inOrder (descendingBy key)).
    + intros a b. apply descendingBy_inOrder.
    + apply sort_Sorted. intros x y. apply descendingBy_asym.
Qed.

Lemma sort_ascending_Sorted (l : list Z) :
  StronglySorted Z.le (sort ascending l).
Proof.
  apply Sorted_StronglySorted.
  - intros a b c Hab Hbc; simpl in *; lia.
  - apply Sorted_impl with (R := inOrder ascending).
    + intros a b. apply ascending_inOrder.
    + apply sort_Sorted. intros x y. apply ascending_asym.
Qed.

(** ** The search loop *)

Lemma findLastSeen_absent (type : PoolType) (n i : Z) (draws : list Draw.t) :
  (forall d, In d draws -> ~ In n (poolOf type d)) ->
  findLastSeen type n i draws = -1.
Proof.
  revert i. induction draws as [|d rest IH]; intros i H; simpl.
  - reflexivity.
  - assert (Hd : includes (poolOf type d) n = false).
    { apply includes_false, H. now left. }
    rewrite Hd. apply IH. intros d' Hd'. apply H. now right.
Qed.

(** When some draw contains [n], the loop stops at the first such draw. *)
Lemma findLastSeen_first (type : PoolType) (n i : Z) (draws : list Draw.t)
    (p : nat) (d : Draw.t) :
  nth_error draws p = Some d ->
  In n (poolOf type d) ->
  (forall q d', (q < p)%nat -> nth_error draws q = Some d' ->
                ~ In n (poolOf type d')) ->
  findLastSeen type n i draws = i + Z.of_nat p.
Proof.
  revert i p. induction draws as [|d0 rest IH]; intros i p Hp Hin Hbefore.
  - destruct p; discriminate.
  - destruct p as [|p]; simpl in *.
    + injection Hp as ->. apply includes_In in Hin. rewrite Hin. lia.
    + assert (H0 : includes (poolOf type d0) n = false).
      { apply includes_false. apply (Hbefore 0%nat d0); [lia | reflexivity]. }
      rewrite H0. rewrite (IH (i + 1) p Hp Hin).
      * lia.
      * intros q d' Hq Hnth. apply (Hbefore (S q) d'); [lia | exact Hnth].
Qed.

Lemma findLastSeen_range (type : PoolType) (n i : Z) (draws : list Draw.t) :
  findLastSeen type n i draws = -1 \/
  i <= findLastSeen type n i draws < i + Z.of_nat (List.length draws).
Proof.
  revert i. induction draws as [|d rest IH]; intros i; simpl.
  - now left.
  - destruct (includes (poolOf type d) n).
    + right. lia.
    + destruct (IH (i + 1)) as [H | H]; [now left | right; lia].
Qed.

(** ** JavaScript numbers *)

Lemma same_eq (x y : Js.number) : Js.same x y = true -> x = y.
Proof.
  destruct x as [a|a| |a m e], y as [b|b| |b m' e']; simpl;
    try discriminate; try reflexivity.
  - intros H. apply Bool.eqb_prop in H. now subst.
  - intros H. apply Bool.eqb_prop in H. now subst.
  - intros H. apply andb_prop in H as [H He]. apply andb_prop in H as [Hs Hm].
    apply Bool.eqb_prop in Hs. apply Pos.eqb_eq in Hm. apply Z.eqb_eq in He.
    now subst.
Qed.

(** A property checked on every integer of [lo, lo + len). *)
Lemma forall_range (P : Z -> bool) (lo : Z) (len : nat) :
  forallb P (map (fun k => lo + Z.of_nat k) (seq 0 len)) = true ->
  forall t, lo <= t < lo + Z.of_nat len -> P t = true.
Proof.
  intros H t Ht. rewrite forallb_forall in H. apply H.
  apply in_map_iff. exists (Z.to_nat (t - lo)). split; [lia |].
  apply in_seq. lia.
Qed.

(** ** probabilityScoring.ts: the sub-scores *)

Import ProbabilityScoring.

Ltac split_ifs :=
  repeat match goal with
         | |- context [if ?c then _ else _] => destruct c
         end.

Lemma frequencyBand_range (ratio : Js.number) :
  20 <= frequencyBand ratio <= 40.
Proof. unfold frequencyBand. split_ifs; lia. Qed.

Lemma calculateFrequencyScore_range (n : Z) (draws : list Draw.t)
    (type : PoolType) :
  20 <= calculateFrequencyScore n draws type <= 40.
Proof. unfold calculateFrequencyScore. apply frequencyBand_range. Qed.

Lemma calculateHotColdScore_range (n : Z) (draws : list Draw.t)
    (type : PoolType) :
  15 <= calculateHotColdScore n draws type <= 30.
Proof. unfold calculateHotColdScore. cbv zeta. split_ifs; lia. Qed.

Lemma calculatePatternScore_numbers (n : Z) :
  7 <= calculatePatternScore n TNumbers <= 18.
Proof. unfold calculatePatternScore. cbv zeta. split_ifs; lia. Qed.

Lemma calculatePatternScore_stars (n : Z) :
  calculatePatternScore n TStars = 15.
Proof. reflexivity. Qed.

Lemma calculatePatternScore_range (n : Z) (type : PoolType) :
  7 <= calculatePatternScore n type <= 18.
Proof.
  destruct type; [apply calculatePatternScore_numbers |].
  rewrite calculatePatternScore_stars. lia.
Qed.

Lemma calculateOverdueScore_range (n : Z) (draws : list Draw.t)
    (type : PoolType) :
  2 <= calculateOverdueScore n draws type <= 10.
Proof. unfold calculateOverdueScore. cbv zeta. split_ifs; lia. Qed.

Lemma totalScore_sum (n : Z) (draws : list Draw.t) (type : PoolType) :
  NumberProbability.totalScore (calculateNumberProbability n draws type) =
  calculateFrequencyScore n draws type + calculateHotColdScore n draws type
  + calculatePatternScore n type + calculateOverdueScore n draws type.
Proof. reflexivity. Qed.

Lemma totalScore_range (n : Z) (draws : list Draw.t) (type : PoolType) :
  44 <= NumberProbability.totalScore (calculateNumberProbability n draws type)
     <= 98.
Proof.
  rewrite totalScore_sum.
  pose proof (calculateFrequencyScore_range n draws type).
  pose proof (calculateHotColdScore_range n draws type).
  pose proof (calculatePatternScore_range n type).
  pose proof (calculateOverdueScore_range n draws type).
  lia.
Qed.

Lemma percentOf_spec (t : Z) :
  44 <= t <= 98 ->
  (55 <= t <= 58 /\ Js.eqb (percentOf t) (Js.of_Z t) = false
   \/ percentOf t = Js.of_Z t)
  /\ Js.round (percentOf t) = Js.of_Z t.
Proof.
  intros Ht.
  assert (H : percentExact t = true).
  { apply (forall_range percentExact 44 55); [vm_compute; reflexivity | lia]. }
  unfold percentExact in H. apply andb_prop in H as [H1 H2]. split.
  - destruct ((55 <=? t) && (t <=? 58)) eqn:Hband.
    + left. split; [lia |]. now destruct (Js.eqb (percentOf t) (Js.of_Z t)).
    + right. now apply same_eq.
  - now apply same_eq.
Qed.

(** The double [(t / 100) * 100] is [t] exactly outside 55..58. *)
Lemma percentOf_band (t : Z) :
  44 <= t <= 98 ->
  (55 <= t <= 58 -> Js.eqb (percentOf t) (Js.of_Z t) = false)
  /\ (~ 55 <= t <= 58 -> percentOf t = Js.of_Z t).
Proof.
  intros Ht.
  assert (H : percentExact t = true).
  { apply (forall_range percentExact 44 55); [vm_compute; reflexivity | lia]. }
  unfold percentExact in H. apply andb_prop in H as [H _].
  destruct (Z.leb_spec 55 t) as [H55 | H55];
    destruct (Z.leb_spec t 58) as [H58 | H58]; cbn [andb] in H;
    (split; [intros Hband | intros Hout]); try lia;
    try (now apply same_eq).
  now destruct (Js.eqb (percentOf t) (Js.of_Z t)).
Qed.

(** C4, as stated, fails: for the number 20 and the empty history the
    sub-scores are 20, 15, 12 and 10, the total is 57, and [winChance],
    computed as [(57 / 100) * 100] in doubles, is 56.99999999999999: it is
    strictly below the total and not equal to it. *)
Lemma C4_winChance_differs :
  let p := calculateNumberProbability 20 [] TNumbers in
  NumberProbability.totalScore p = 57
  /\ Js.eqb (NumberProbability.winChance p)
            (Js.of_Z (NumberProbability.totalScore p)) = false
  /\ Js.ltb (NumberProbability.winChance p)
            (Js.of_Z (NumberProbability.totalScore p)) = true.
Proof. vm_compute. repeat split. Qed.

(** C4, amended: for every number and every draw history, in either pool,
    the frequency score lies in [0,40], the hot/cold score in [0,30], the
    pattern score in [0,20] and the overdue score in [0,10]; the total is
    exactly their sum, hence at most 100; [winChance] is the double
    [(totalScore / 100) * 100], which is the total itself exactly when the
    total is not 55, 56, 57 or 58 (on these four totals it differs from the
    total, on every other it is the total), and which always rounds to the
    total. *)
Theorem C4_number_probability (n : Z) (draws : list Draw.t) (type : PoolType) :
  let p := calculateNumberProbability n draws type in
  0 <= NumberProbability.frequencyScore p <= 40
  /\ 0 <= NumberProbability.hotColdScore p <= 30
  /\ 0 <= NumberProbability.patternScore p <= 20
  /\ 0 <= NumberProbability.overdueScore p <= 10
  /\ NumberProbability.totalScore p =
       NumberProbability.frequencyScore p + NumberProbability.hotColdScore p
       + NumberProbability.patternScore p + NumberProbability.overdueScore p
  /\ 0 <= NumberProbability.totalScore p <= 100
  /\ NumberProbability.winChance p = percentOf (NumberProbability.totalScore p)
  /\ (55 <= NumberProbability.totalScore p <= 58 ->
      Js.eqb (NumberProbability.winChance p)
             (Js.of_Z (NumberProbability.totalScore p)) = false)
  /\ (~ 55 <= NumberProbability.totalScore p <= 58 ->
      NumberProbability.winChance p
      = Js.of_Z (NumberProbability.totalScore p))
  /\ Js.round (NumberProbability.winChance p)
     = Js.of_Z (NumberProbability.totalScore p).
Proof.
  intros p.
  pose proof (calculateFrequencyScore_range n draws type) as Hf.
  pose proof (calculateHotColdScore_range n draws type) as Hh.
  pose proof (calculatePatternScore_range n type) as Hp.
  pose proof (calculateOverdueScore_range n draws type) as Ho.
  pose proof (totalScore_range n draws type) as Ht.
  destruct (percentOf_spec _ Ht) as [_ Hround].
  destruct (percentOf_band _ Ht) as [Hband Hout].
  subst p. simpl NumberProbability.frequencyScore.
  simpl NumberProbability.hotColdScore. simpl NumberProbability.patternScore.
  simpl NumberProbability.overdueScore.
  split; [lia |]. split; [lia |]. split; [lia |]. split; [lia |].
  split; [reflexivity |]. split; [lia |]. split; [reflexivity |].
  split; [exact Hband |]. split; [exact Hout | exact Hround].
Qed.

(** C10: the total never reaches 100. In the numbers pool it is at most
    98, the pattern score being at most 18 = 10 + 5 + 3; in the stars pool
    it is at most 95, the pattern score being 15. *)
Theorem C10_total_below_maximum (n : Z) (draws : list Draw.t) :
  calculatePatternScore n TNumbers <= 18
  /\ calculatePatternScore n TStars = 15
  /\ NumberProbability.totalScore (calculateNumberProbability n draws TNumbers)
     <= 98
  /\ NumberProbability.totalScore (calculateNumberProbability n draws TStars)
     <= 95.
Proof.
  pose proof (calculatePatternScore_numbers n) as Hp.
  pose proof (totalScore_range n draws TNumbers) as Ht.
  repeat split; try lia.
  rewrite totalScore_sum, calculatePatternScore_stars.
  pose proof (calculateFrequencyScore_range n draws TStars).
  pose proof (calculateHotColdScore_range n draws TStars).
  pose proof (calculateOverdueScore_range n draws TStars).
  lia.
Qed.

(** C8: a number that appears in no draw of the history has the overdue
    score 10, in either pool, the empty history included. *)
Theorem C8_overdue_absent (n : Z) (draws : list Draw.t) (type : PoolType) :
  (forall d, In d draws -> ~ In n (poolOf type d)) ->
  calculateOverdueScore n draws type = 10.
Proof.
  intros H. unfold calculateOverdueScore.
  rewrite (findLastSeen_absent type n 0 draws H). reflexivity.
Qed.

Lemma C8_overdue_absent_witness :
  calculateOverdueScore 7 [Draw.mk "2024-01-02" [1; 2; 3; 4; 5] [1; 2]] TNumbers
  = 10
  /\ calculateOverdueScore 7 [] TStars = 10.
Proof.
  split.
  - apply (C8_overdue_absent 7 [Draw.mk "2024-01-02" [1; 2; 3; 4; 5] [1; 2]]
             TNumbers).
    intros d [<- | []]. simpl. lia.
  - apply (C8_overdue_absent 7 [] TStars). intros d [].
Defined.

(** C1, on the code: with no number and no star the count is 0, every
    average is 0/0, and the result carries NaN, not 0, as its score, as
    every entry of its breakdown, and in its [winChance] string. *)
Theorem C1_empty_combination_is_NaN (draws : list Draw.t) :
  let s := scoreCombination [] [] draws in
  CombinationScore.probabilityScore s = Js.NaN
  /\ CombinationScore.probabilityScore s <> Js.of_Z 0
  /\ CombinationScore.winChance s = "NaN%"%string
  /\ CombinationScore.breakdown s = Breakdown.mk Js.NaN Js.NaN Js.NaN Js.NaN.
Proof.
  vm_compute. repeat split. discriminate.
Qed.

(** ** probabilityScoring.ts: scoring a combination *)

(** A loop whose turns commute runs to the same state on any reordering of
    the array. *)
Lemma fold_left_perm {A B : Type} (g : A -> B -> A) :
  (forall a x y, g (g a x) y = g (g a y) x) ->
  forall l l', Permutation l l' ->
  forall a, fold_left g l a = fold_left g l' a.
Proof.
  intros Hcomm l l' Hperm.
  induction Hperm as [| x l l' _ IH | x y l | l l' l'' _ IH1 _ IH2];
    intros a; simpl.
  - reflexivity.
  - apply IH.
  - now rewrite Hcomm.
  - now rewrite IH1.
Qed.

Lemma filter_length_perm {A : Type} (f : A -> bool) (l l' : list A) :
  Permutation l l' ->
  List.length (filter f l) = List.length (filter f l').
Proof.
  induction 1 as [| x l l' _ IH | x y l | l l' l'' _ IH1 _ IH2]; simpl.
  - reflexivity.
  - destruct (f x); simpl; now rewrite IH.
  - destruct (f x), (f y); reflexivity.
  - now rewrite IH1.
Qed.

Lemma addProbability_comm (t : Totals) (p q : NumberProbability.t) :
  addProbability (addProbability t p) q = addProbability (addProbability t q) p.
Proof. unfold addProbability. simpl. f_equal; lia. Qed.

(** C3, as stated, fails: [scoreCombination] hands back the two arrays as
    it received them, so the results for [5,4,3,2,1] and [1,2,3,4,5] are
    not the same [CombinationScore], and the first one's fields are not
    ascending. *)
Lemma C3_fields_not_sorted :
  CombinationScore.numbers (scoreCombination [5; 4; 3; 2; 1] [2; 1] [])
    = [5; 4; 3; 2; 1]
  /\ CombinationScore.stars (scoreCombination [5; 4; 3; 2; 1] [2; 1] [])
    = [2; 1]
  /\ scoreCombination [5; 4; 3; 2; 1] [2; 1] []
     <> scoreCombination [1; 2; 3; 4; 5] [1; 2] [].
Proof.
  repeat split. intros H.
  apply (f_equal CombinationScore.numbers) in H. discriminate H.
Qed.

(** C3, amended: on any reordering of the numbers and of the stars,
    [scoreCombination] returns the same [probabilityScore], the same
    [winChance] and the same breakdown; its [numbers] and [stars] fields
    are the arrays exactly as they were supplied. *)
Theorem C3_score_order_invariant (draws : list Draw.t)
    (numbers numbers' stars stars' : list Z) :
  Permutation numbers numbers' ->
  Permutation stars stars' ->
  let s := scoreCombination numbers stars draws in
  let s' := scoreCombination numbers' stars' draws in
  CombinationScore.probabilityScore s = CombinationScore.probabilityScore s'
  /\ CombinationScore.winChance s = CombinationScore.winChance s'
  /\ CombinationScore.breakdown s = CombinationScore.breakdown s'
  /\ CombinationScore.numbers s = numbers
  /\ CombinationScore.stars s = stars.
Proof.
  intros Hn Hs. unfold scoreCombination. cbv zeta.
  simpl CombinationScore.probabilityScore. simpl CombinationScore.winChance.
  simpl CombinationScore.breakdown. simpl CombinationScore.numbers.
  simpl CombinationScore.stars.
  rewrite (fold_left_perm
             (fun t num =>
                addProbability t (calculateNumberProbability num draws TNumbers))
             (fun t x y => addProbability_comm t _ _) numbers numbers' Hn).
  rewrite (fold_left_perm
             (fun t star =>
                addProbability t (calculateNumberProbability star draws TStars))
             (fun t x y => addProbability_comm t _ _) stars stars' Hs).
  rewrite (Permutation_length Hn), (Permutation_length Hs).
  rewrite (filter_length_perm (fun n => jsmod n 2 =? 0) _ _ Hn).
  rewrite (filter_length_perm (fun n => n <=? 25) _ _ Hn).
  repeat split.
Qed.

Lemma C3_score_order_invariant_witness :
  let s := scoreCombination [5; 4; 3; 2; 1] [2; 1] [] in
  let s' := scoreCombination [4; 5; 3; 2; 1] [1; 2] [] in
  CombinationScore.probabilityScore s = CombinationScore.probabilityScore s'
  /\ CombinationScore.winChance s = CombinationScore.winChance s'
  /\ CombinationScore.breakdown s = CombinationScore.breakdown s'
  /\ CombinationScore.numbers s = [5; 4; 3; 2; 1]
  /\ CombinationScore.stars s = [2; 1].
Proof.
  apply (C3_score_order_invariant [] [5; 4; 3; 2; 1] [4; 5; 3; 2; 1]
           [2; 1] [1; 2]); apply perm_swap.
Defined.

(** ** hotColdAnalysis.ts *)

Import HotColdAnalysis.

(** Whatever the length of the history, a number that appears in none of
    its draws is never classified cold: the search leaves [lastSeen] at -1,
    which is not above 7, while the reported streak is the length of the
    history. *)
Lemma analyzeNumber_absent (draws : list Draw.t) (type : PoolType) (num : Z) :
  (forall d, In d draws -> ~ In num (poolOf type d)) ->
  HotColdNumber.streakType (analyzeNumber draws type num) <> cold
  /\ HotColdNumber.streak (analyzeNumber draws type num)
     = Z.of_nat (List.length draws).
Proof.
  intros H. unfold analyzeNumber. cbv zeta.
  rewrite (findLastSeen_absent type num 0 draws H). simpl. split.
  - destruct (_ >=? _); discriminate.
  - reflexivity.
Qed.

(** A number that did appear is cold exactly when it is below the hot
    threshold and its streak exceeds 7. *)
Lemma analyzeNumber_seen (draws : list Draw.t) (type : PoolType) (num : Z) :
  findLastSeen type num 0 draws <> -1 ->
  let r := analyzeNumber draws type num in
  HotColdNumber.streakType r <> hot ->
  (HotColdNumber.streakType r = cold <-> HotColdNumber.streak r > 7).
Proof.
  intros Hseen. unfold analyzeNumber. cbv zeta. simpl.
  apply Z.eqb_neq in Hseen. rewrite Hseen.
  destruct (_ >=? _); [congruence |]. intros _.
  destruct (Z.gtb_spec (findLastSeen type num 0 draws) 7); split;
    intros; try lia; congruence.
Qed.

(** C2, on the code: in a history of eight draws none of which contains
    50, the number 50 is below the hot threshold and its streak is 8, yet
    the classifier calls it neutral, not cold. *)
Theorem C2_absent_number_is_neutral :
  let draws := repeat (Draw.mk "2024-01-05" [1; 2; 3; 4; 5] [1; 2]) 8 in
  analyzeNumber draws TNumbers 50 = HotColdNumber.mk 50 0 neutral 8 stable
  /\ In (HotColdNumber.mk 50 0 neutral 8 stable)
        (analyzeTemperature [] draws TNumbers 50).
Proof.
  split.
  - vm_compute. reflexivity.
  - vm_compute. repeat (try (left; reflexivity); right).
Qed.

(** ** drawChecker.ts *)

Import DrawChecker.

Lemma lookup_In (key : string) (table : list (string * string)) (v : string) :
  lookup key table = Some v -> In (key, v) table.
Proof.
  induction table as [|[k w] rest IH]; simpl; [discriminate |].
  destruct (String.eqb_spec k key) as [-> | _].
  - intros [= ->]. now left.
  - intros H. right. now apply IH.
Qed.

(** No display string of the table is empty or reads "No prize". *)
Lemma PRIZE_TIERS_values (k v : string) :
  In (k, v) PRIZE_TIERS -> v <> ""%string /\ v <> "No prize"%string.
Proof.
  unfold PRIZE_TIERS. simpl. intros H.
  repeat (destruct H as [H | H];
          [injection H as <- <-; split; discriminate |]).
  contradiction.
Qed.

Lemma filter_includes (selection drawn : list Z) (n : Z) :
  In n (filter (fun x => includes drawn x) selection)
  <-> In n selection /\ In n drawn.
Proof. rewrite filter_In, includes_In. reflexivity. Qed.

(** [includes] decides membership. *)
Lemma includes_in_dec (l : list Z) (n : Z) :
  includes l n = if in_dec Z.eq_dec n l then true else false.
Proof.
  destruct (in_dec Z.eq_dec n l) as [Hin | Hout].
  - now apply includes_In.
  - now apply includes_false.
Qed.

(** No code stands twice in the table. *)
Lemma PRIZE_TIERS_keys : NoDup (map fst PRIZE_TIERS).
Proof.
  unfold PRIZE_TIERS. cbn [map fst].
  repeat (apply NoDup_cons;
          [cbn [In]; intros H;
           repeat (destruct H as [H | H]; [discriminate H |]);
           exact H |]).
  apply NoDup_nil.
Qed.

Lemma In_lookup (key : string) (table : list (string * string)) (v : string) :
  NoDup (map fst table) -> In (key, v) table -> lookup key table = Some v.
Proof.
  induction table as [|[k w] rest IH]; simpl; [contradiction |].
  intros Hnd Hin. inversion Hnd as [|? ? Hk Hrest]; subst.
  destruct Hin as [[= -> ->] | Hin].
  - now rewrite String.eqb_refl.
  - destruct (String.eqb_spec k key) as [-> | _]; [| now apply IH].
    exfalso. apply Hk. apply in_map_iff. now exists (key, v).
Qed.

(** C6: [checkBet] always returns a result. Its matched numbers are the
    bet's numbers that are among the draw's, in the bet's order and as
    often as the bet holds them, and likewise its matched stars; the two
    counts are the lengths of these lists, the match code is the two
    counts joined by a plus sign; the table has twelve entries under
    twelve different codes; when the table lists the code with a prize,
    this prize is returned with [isWinner] set, and a code that the table
    does not list gives "No prize" with [isWinner] unset. *)
Theorem C6_checkBet (bet : Bet.t) (draw : Draw.t) :
  let r := checkBet bet draw in
  let drawn (pool : list Z) (x : Z) :=
    if in_dec Z.eq_dec x pool then true else false in
  MatchResult.betId r = Bet.id bet
  /\ MatchResult.numbers r = Bet.numbers bet
  /\ MatchResult.stars r = Bet.stars bet
  /\ MatchResult.matchedNumbers r
     = filter (drawn (Draw.numbers draw)) (Bet.numbers bet)
  /\ MatchResult.matchedStars r
     = filter (drawn (Draw.stars draw)) (Bet.stars bet)
  /\ (forall n, In n (MatchResult.matchedNumbers r)
                <-> In n (Bet.numbers bet) /\ In n (Draw.numbers draw))
  /\ (forall s, In s (MatchResult.matchedStars r)
                <-> In s (Bet.stars bet) /\ In s (Draw.stars draw))
  /\ MatchResult.numberMatchCount r
     = Z.of_nat (List.length
                   (filter (drawn (Draw.numbers draw)) (Bet.numbers bet)))
  /\ MatchResult.starMatchCount r
     = Z.of_nat (List.length
                   (filter (drawn (Draw.stars draw)) (Bet.stars bet)))
  /\ MatchResult.matchCode r
     = (Js.string_of_N (Z.to_N (MatchResult.numberMatchCount r)) ++ "+"
        ++ Js.string_of_N (Z.to_N (MatchResult.starMatchCount r)))%string
  /\ List.length PRIZE_TIERS = 12%nat
  /\ NoDup (map fst PRIZE_TIERS)
  /\ (forall p, In (MatchResult.matchCode r, p) PRIZE_TIERS ->
        MatchResult.prize r = p /\ MatchResult.isWinner r = true)
  /\ ((forall p, ~ In (MatchResult.matchCode r, p) PRIZE_TIERS) ->
      MatchResult.prize r = "No prize"%string
      /\ MatchResult.isWinner r = false).
Proof.
  intros r drawn. subst r. unfold checkBet. cbv zeta.
  cbn [MatchResult.betId MatchResult.numbers MatchResult.stars
       MatchResult.matchedNumbers MatchResult.matchedStars
       MatchResult.numberMatchCount MatchResult.starMatchCount
       MatchResult.matchCode MatchResult.prize MatchResult.isWinner].
  assert (Hnum : filter (fun n => includes (Draw.numbers draw) n)
                        (Bet.numbers bet)
                 = filter (drawn (Draw.numbers draw)) (Bet.numbers bet)).
  { apply filter_ext. intros n. apply includes_in_dec. }
  assert (Hstar : filter (fun s => includes (Draw.stars draw) s)
                         (Bet.stars bet)
                  = filter (drawn (Draw.stars draw)) (Bet.stars bet)).
  { apply filter_ext. intros n. apply includes_in_dec. }
  do 3 (split; [reflexivity |]).
  split; [exact Hnum |]. split; [exact Hstar |].
  split; [intros n; apply filter_includes |].
  split; [intros s; apply filter_includes |].
  split; [now rewrite Hnum |]. split; [now rewrite Hstar |].
  do 2 (split; [reflexivity |]).
  split; [exact PRIZE_TIERS_keys |].
  split.
  - intros p Hin.
    rewrite (In_lookup _ _ _ PRIZE_TIERS_keys Hin).
    apply PRIZE_TIERS_values in Hin as [Hne Hnp].
    unfold orElse. apply String.eqb_neq in Hne. rewrite Hne.
    apply String.eqb_neq in Hnp. rewrite Hnp. split; reflexivity.
  - intros Hout.
    destruct (lookup _ PRIZE_TIERS) as [p |] eqn:Hlook.
    + apply lookup_In in Hlook. now apply Hout in Hlook.
    + split; reflexivity.
Qed.

(** The two examples of the prize table: a full match, and a code that the
    table does not list. *)
Example checkBet_jackpot :
  let r := checkBet (Bet.mk "a" [1; 2; 3; 4; 5] [1; 2])
                    (Draw.mk "2024-01-05" [1; 2; 3; 4; 5] [1; 2]) in
  MatchResult.matchCode r = "5+2"%string
  /\ MatchResult.prize r = "🏆 JACKPOT!"%string
  /\ MatchResult.isWinner r = true.
Proof. vm_compute. repeat split. Qed.

Example checkBet_unlisted_code :
  let r := checkBet (Bet.mk "a" [1; 2; 3; 4; 5] [1; 2])
                    (Draw.mk "2024-01-05" [1; 2; 46; 47; 48] [3; 4]) in
  MatchResult.matchCode r = "2+0"%string
  /\ MatchResult.prize r = "No prize"%string
  /\ MatchResult.isWinner r = false.
Proof. vm_compute. repeat split. Qed.

(** C7: [findClosestBet] returns null exactly for the empty list of bets;
    otherwise it returns the result of one of the bets, and no bet has a
    larger value of number matches times ten plus star matches. *)
Theorem C7_findClosestBet (bets : list Bet.t) (draw : Draw.t) :
  (findClosestBet bets draw = None <-> bets = [])
  /\ forall r, findClosestBet bets draw = Some r ->
       (exists bet, In bet bets /\ r = checkBet bet draw)
       /\ closeness r
          = MatchResult.numberMatchCount r * 10 + MatchResult.starMatchCount r
       /\ forall bet', In bet' bets ->
            closeness (checkBet bet' draw) <= closeness r.
Proof.
  unfold findClosestBet. destruct bets as [|b bs].
  - simpl. split; [tauto | discriminate].
  - change (List.length (b :: bs) =? 0)%nat with false. cbv iota zeta.
    pose proof (sort_perm (descendingBy closeness)
                  (checkAllBets (b :: bs) draw)) as Hperm.
    pose proof (sort_descendingBy_Sorted closeness
                  (checkAllBets (b :: bs) draw)) as Hsorted.
    destruct (sort (descendingBy closeness) (checkAllBets (b :: bs) draw))
      as [|top rest].
    + apply Permutation_length in Hperm. discriminate Hperm.
    + simpl nth_error. split; [split; discriminate |].
      intros r [= <-]. split; [| split; [reflexivity |]].
      * assert (Hin : In top (checkAllBets (b :: bs) draw)).
        { apply (Permutation_in _ Hperm). now left. }
        unfold checkAllBets in Hin. apply in_map_iff in Hin as (bet & <- & Hbet).
        now exists bet.
      * intros bet' Hbet'.
        assert (Hin : In (checkBet bet' draw) (top :: rest)).
        { apply (Permutation_in _ (Permutation_sym Hperm)).
          unfold checkAllBets. apply in_map_iff. now exists bet'. }
        destruct Hin as [<- | Hin]; [lia |].
        apply StronglySorted_inv in Hsorted as [_ Hall].
        rewrite Forall_forall in Hall. now apply Hall.
Qed.

(** A bet that matches 4+0 comes before one that matches 3+2. *)
Example findClosestBet_four_numbers_first :
  let draw := Draw.mk "2024-01-05" [1; 2; 3; 4; 5] [1; 2] in
  let three_two := Bet.mk "a" [1; 2; 3; 9; 10] [1; 2] in
  let four_zero := Bet.mk "b" [1; 2; 3; 4; 11] [5; 6] in
  MatchResult.matchCode (checkBet three_two draw) = "3+2"%string
  /\ MatchResult.matchCode (checkBet four_zero draw) = "4+0"%string
  /\ findClosestBet [three_two; four_zero] draw = Some (checkBet four_zero draw).
Proof. vm_compute. repeat split. Qed.

(** ** frequencyModel.ts *)

Import FrequencyModel.

Lemma bumpAt_fst (num index : Z) (p : Z * Entry) :
  fst (bumpAt num index p) = fst p.
Proof. destruct p as [k e]. simpl. now destruct (k =? num). Qed.

Lemma map_bumpAt_keys (num index : Z) (f : FrequencyMap) :
  map fst (map (bumpAt num index) f) = map fst f.
Proof. rewrite map_map. apply map_ext. apply bumpAt_fst. Qed.

Lemma map_bumpAt_absent (num index : Z) (f : FrequencyMap) :
  ~ In num (map fst f) -> map (bumpAt num index) f = f.
Proof.
  induction f as [|[k e] rest IH]; simpl; intros Hnot; [reflexivity |].
  destruct (Z.eqb_spec k num) as [-> | _]; [tauto |].
  f_equal. apply IH. tauto.
Qed.

(** With [num] among the keys the step succeeds and touches that entry
    only. *)
Lemma record_map (num index : Z) (f : FrequencyMap) :
  NoDup (map fst f) -> In num (map fst f) ->
  record num index f = Some (map (bumpAt num index) f).
Proof.
  induction f as [|[k e] rest IH]; simpl; intros Hnd Hin; [contradiction |].
  inversion Hnd as [| ? ? Hk Hrest]; subst.
  destruct (Z.eqb_spec k num) as [-> | Hne].
  - now rewrite (map_bumpAt_absent num index rest Hk).
  - destruct Hin as [-> | Hin]; [contradiction |].
    now rewrite (IH Hrest Hin).
Qed.

Lemma afterDraw_bumpAt (num index : Z) (rest : list Z) (p : Z * Entry) :
  afterDraw rest index (bumpAt num index p) = afterDraw (num :: rest) index p.
Proof.
  destruct p as [k [c li]]. unfold bumpAt, afterDraw, includes. simpl.
  destruct (Z.eq_dec num k) as [-> | Hne].
  - rewrite Z.eqb_refl. simpl. f_equal. f_equal; [lia |].
    destruct (Z.eqb_spec li (-1)) as [-> | Hli].
    + destruct (Z.eqb_spec index (-1)) as [-> | _];
        [now destruct (existsb _ rest) | reflexivity].
    + apply Z.eqb_neq in Hli. now rewrite Hli.
  - destruct (Z.eqb_spec k num) as [-> | _]; [contradiction |].
    reflexivity.
Qed.

Lemma afterDraw_nil (index : Z) (f : FrequencyMap) :
  map (afterDraw [] index) f = f.
Proof.
  rewrite <- (map_id f) at 2. apply map_ext. intros [k [c li]].
  unfold afterDraw. simpl. rewrite Z.add_0_r.
  destruct (Z.eqb_spec li (-1)) as [-> | _]; reflexivity.
Qed.

Lemma afterDraw_keys (nums : list Z) (index : Z) (f : FrequencyMap) :
  map fst (map (afterDraw nums index) f) = map fst f.
Proof. rewrite map_map. apply map_ext. now intros [k e]. Qed.

Lemma recordAll_map (nums : list Z) (index : Z) (f : FrequencyMap) :
  NoDup (map fst f) ->
  (forall n, In n nums -> In n (map fst f)) ->
  recordAll nums index f = Some (map (afterDraw nums index) f).
Proof.
  revert f. induction nums as [|num rest IH]; intros f Hnd Hin; simpl.
  - now rewrite afterDraw_nil.
  - rewrite (record_map num index f Hnd); [| apply Hin; now left].
    rewrite IH.
    + rewrite map_map. f_equal. apply map_ext. apply afterDraw_bumpAt.
    + now rewrite map_bumpAt_keys.
    + intros n Hn. rewrite map_bumpAt_keys. apply Hin. now right.
Qed.

Lemma afterDraws_afterDraw (type : PoolType) (d : Draw.t)
    (rest : list Draw.t) (index : Z) (p : Z * Entry) :
  0 <= index ->
  afterDraws type rest (index + 1) (afterDraw (poolOf type d) index p)
  = afterDraws type (d :: rest) index p.
Proof.
  intros Hidx. destruct p as [k [c li]]. unfold afterDraws, afterDraw. simpl.
  f_equal. f_equal; [lia |].
  destruct (Z.eqb_spec li (-1)) as [-> | Hli].
  - destruct (includes (poolOf type d) k).
    + destruct (Z.eqb_spec index (-1)); [lia | reflexivity].
    + reflexivity.
  - apply Z.eqb_neq in Hli. now rewrite Hli.
Qed.

Lemma countOccurrences_map (type : PoolType) (draws : list Draw.t)
    (index : Z) (f : FrequencyMap) :
  0 <= index ->
  NoDup (map fst f) ->
  (forall d n, In d draws -> In n (poolOf type d) -> In n (map fst f)) ->
  countOccurrences type draws index f
  = Some (map (afterDraws type draws index) f).
Proof.
  revert index f. induction draws as [|d rest IH]; intros index f Hidx Hnd Hin.
  - simpl. f_equal. rewrite <- (map_id f) at 1. apply map_ext.
    intros [k [c li]]. unfold afterDraws. simpl. rewrite Z.add_0_r.
    destruct (Z.eqb_spec li (-1)) as [-> | _]; reflexivity.
  - simpl. rewrite (recordAll_map (poolOf type d) index f Hnd).
    + rewrite IH.
      * rewrite map_map. f_equal. apply map_ext. intros p.
        now apply afterDraws_afterDraw.
      * lia.
      * now rewrite afterDraw_keys.
      * intros d' n Hd' Hn. rewrite afterDraw_keys.
        apply (Hin d' n); [now right | exact Hn].
    + intros n Hn. apply (Hin d n); [now left | exact Hn].
Qed.

Lemma range1_In (max : nat) (n : Z) :
  In n (range1 max) <-> 1 <= n <= Z.of_nat max.
Proof.
  unfold range1. rewrite in_map_iff. split.
  - intros (k & <- & Hk). apply in_seq in Hk. lia.
  - intros Hn. exists (Z.to_nat n). split; [lia | apply in_seq; lia].
Qed.

Lemma range1_NoDup (max : nat) : NoDup (range1 max).
Proof.
  unfold range1. apply Finite.Injective_map_NoDup.
  - intros a b. lia.
  - apply seq_NoDup.
Qed.

Lemma initial_keys (max : nat) : map fst (initial max) = range1 max.
Proof.
  unfold initial. rewrite map_map. simpl. apply map_id.
Qed.

(** The table, entry by entry, before it is sorted. *)
Lemma frequencyTable_entries (type : PoolType) (max : nat)
    (draws : list Draw.t) :
  (forall d n, In d draws -> In n (poolOf type d) -> 1 <= n <= Z.of_nat max) ->
  frequencyTable type max draws
  = Some (sort (descendingBy FrequencyData.count)
            (map (fun k =>
                    let seen := findLastSeen type k 0 draws in
                    let total := Z.of_nat (List.length draws) in
                    FrequencyData.mk k (occurrences type k draws)
                      (if total >? 0
                       then Js.mul (Js.div (Js.of_Z (occurrences type k draws))
                                      (Js.of_Z total)) (Js.of_Z 100)
                       else Js.of_Z 0)
                      (if seen =? -1 then total else seen))
                 (range1 max))).
Proof.
  intros Hwf. unfold frequencyTable.
  rewrite (countOccurrences_map type draws 0 (initial max)).
  - f_equal. f_equal. unfold initial. rewrite !map_map. apply map_ext.
    intros k. reflexivity.
  - lia.
  - rewrite initial_keys. apply range1_NoDup.
  - intros d n Hd Hn. rewrite initial_keys. apply range1_In. now apply (Hwf d).
Qed.

(** C9: on a history whose numbers all lie in 1..50, the frequency table
    is returned; it holds one entry for each of the 50 numbers, those never
    drawn included, ordered by count, largest first; an entry's count is
    the number of occurrences of its number in the history, its percentage
    is [count / |history| * 100], or 0 for the empty history, and its
    [lastSeen] is the index of the first draw, from index 0 on, that
    contains the number, or [|history|] when no draw contains it. *)
Theorem C9_number_frequency (draws : list Draw.t) :
  (forall d n, In d draws -> In n (Draw.numbers d) -> 1 <= n <= 50) ->
  exists table,
    calculateNumberFrequency draws = Some table
    /\ Permutation (map FrequencyData.number table) (range1 50)
    /\ StronglySorted
         (fun a b => FrequencyData.count b <= FrequencyData.count a) table
    /\ forall e, In e table ->
         let total := Z.of_nat (List.length draws) in
         FrequencyData.count e
           = occurrences TNumbers (FrequencyData.number e) draws
         /\ FrequencyData.percentage e
            = (if total >? 0
               then Js.mul (Js.div (Js.of_Z (FrequencyData.count e))
                              (Js.of_Z total)) (Js.of_Z 100)
               else Js.of_Z 0)
         /\ ((forall d, In d draws ->
                        ~ In (FrequencyData.number e) (Draw.numbers d)) ->
             FrequencyData.lastSeen e = total)
         /\ (forall p d,
               nth_error draws p = Some d ->
               In (FrequencyData.number e) (Draw.numbers d) ->
               (forall q d', (q < p)%nat -> nth_error draws q = Some d' ->
                             ~ In (FrequencyData.number e) (Draw.numbers d')) ->
               FrequencyData.lastSeen e = Z.of_nat p).
Proof.
  intros Hwf. unfold calculateNumberFrequency.
  rewrite (frequencyTable_entries TNumbers 50 draws Hwf).
  eexists. split; [reflexivity |]. split; [| split].
  - eapply perm_trans; [apply Permutation_map, sort_perm |].
    rewrite map_map. rewrite (map_ext _ (fun k => k)) by reflexivity.
    rewrite map_id. apply Permutation_refl.
  - apply sort_descendingBy_Sorted.
  - intros e He. apply sort_In in He. apply in_map_iff in He as (k & <- & Hk).
    cbv zeta. simpl. repeat split.
    + intros Habsent.
      now rewrite (findLastSeen_absent TNumbers k 0 draws Habsent).
    + intros p d Hp Hin Hfirst.
      rewrite (findLastSeen_first TNumbers k 0 draws p d Hp Hin Hfirst).
      destruct (Z.eqb_spec (0 + Z.of_nat p) (-1)); lia.
Qed.

Lemma C9_number_frequency_witness :
  exists table,
    calculateNumberFrequency
      [Draw.mk "2024-01-09" [1; 2; 3; 49; 50] [3; 4];
       Draw.mk "2024-01-05" [1; 2; 3; 4; 5] [1; 2]] = Some table
    /\ Permutation (map FrequencyData.number table) (range1 50).
Proof.
  destruct (C9_number_frequency
              [Draw.mk "2024-01-09" [1; 2; 3; 49; 50] [3; 4];
               Draw.mk "2024-01-05" [1; 2; 3; 4; 5] [1; 2]])
    as (table & Htable & Hperm & _).
  - intros d n [<- | [<- | []]] Hn; simpl in Hn; lia.
  - exists table. split; assumption.
Defined.

(** ** The comparator on scores *)

(** A rounded value keeps the sign it was given. *)
Lemma binary_round_aux_sign (s : bool) (m e : Z) (l : location) :
  match binary_round_aux Js.prec Js.emax s m e l with
  | S754_zero s' | S754_infinity s' | S754_finite s' _ _ => s' = s
  | S754_nan => True
  end.
Proof.
  unfold binary_round_aux.
  destruct (shr_fexp Js.prec Js.emax m e l) as [mrs' e'].
  destruct (shr_fexp Js.prec Js.emax _ e' loc_Exact) as [mrs'' e''].
  destruct (shr_m mrs''); try exact I; try reflexivity.
  destruct (e'' <=? Js.emax - Js.prec); reflexivity.
Qed.

Lemma binary_normalize_sign (z e : Z) :
  match binary_normalize Js.prec Js.emax z e false with
  | S754_zero s' => s' = false \/ z < 0
  | S754_infinity s' | S754_finite s' _ _ => s' = false /\ 0 < z \/ s' = true /\ z < 0
  | S754_nan => True
  end.
Proof.
  destruct z as [|p|p]; simpl.
  - now left.
  - unfold binary_round.
    destruct (shl_align p e _) as [mz ez].
    pose proof (binary_round_aux_sign false (Z.pos mz) ez loc_Exact) as H.
    destruct (binary_round_aux _ _ false _ _ _); try exact I; subst.
    + now left.
    + left. split; [reflexivity | lia].
    + left. split; [reflexivity | lia].
  - unfold binary_round.
    destruct (shl_align p e _) as [mz ez].
    pose proof (binary_round_aux_sign true (Z.pos mz) ez loc_Exact) as H.
    destruct (binary_round_aux _ _ true _ _ _); try exact I; subst.
    + right. lia.
    + right. split; [reflexivity | lia].
    + right. split; [reflexivity | lia].
Qed.

(** When [y - x] is above zero, [x - y] is not. *)
Lemma sub_positive_asym (x y : Js.number) :
  isPositive (Js.sub y x) -> ~ isPositive (Js.sub x y).
Proof.
  unfold Js.sub.
  destruct x as [sx | sx | | sx mx ex], y as [sy | sy | | sy my ey];
    try (simpl; tauto);
    try (destruct sx, sy; simpl; tauto).
  unfold SFsub. rewrite (Z.min_comm ex ey).
  set (a := cond_Zopp sx _). set (b := cond_Zopp sy _).
  pose proof (binary_normalize_sign (b - a) (Z.min ey ex)) as Hba.
  pose proof (binary_normalize_sign (a - b) (Z.min ey ex)) as Hab.
  destruct (binary_normalize _ _ (b - a) _ _) as [s | s | | s m e];
    destruct (binary_normalize _ _ (a - b) _ _) as [s' | s' | | s' m' e'];
    simpl; try tauto;
    destruct s, s'; simpl; try tauto; lia.
Qed.

Lemma descendingByNumber_Gt {A : Type} (key : A -> Js.number) (a b : A) :
  descendingByNumber key a b = Gt <-> isPositive (Js.sub (key b) (key a)).
Proof.
  unfold descendingByNumber, isPositive.
  destruct (Js.sub (key b) (key a)) as [s | s | | s m e];
    try destruct s; split; intros H; try discriminate; tauto.
Qed.

Lemma descendingByNumber_asym {A : Type} (key : A -> Js.number) (x y : A) :
  descendingByNumber key x y = Gt -> descendingByNumber key y x <> Gt.
Proof.
  rewrite !descendingByNumber_Gt. apply sub_positive_asym.
Qed.

(** ** smartCombinationGenerator.ts: the selections *)

Import SmartCombinationGenerator.

Lemma fold_left_inv {A B : Type} (P : A -> Prop) (f : A -> B -> A)
    (l : list B) (a : A) :
  (forall a b, In b l -> P a -> P (f a b)) -> P a -> P (fold_left f l a).
Proof.
  revert a. induction l as [|b l IH]; simpl; intros a Hstep Ha.
  - exact Ha.
  - apply IH.
    + intros a' b' Hb'. apply Hstep. now right.
    + apply Hstep; [now left | exact Ha].
Qed.

Lemma NoDup_snoc {A : Type} (l : list A) (x : A) :
  NoDup l -> ~ In x l -> NoDup (l ++ [x]).
Proof.
  intros Hnd Hx. apply (Permutation_NoDup (Permutation_cons_append l x)).
  now constructor.
Qed.

Lemma length_snoc {A : Type} (l : list A) (x : A) :
  List.length (l ++ [x]) = S (List.length l).
Proof. rewrite length_app. simpl. lia. Qed.

Lemma firstn_incl {A : Type} (k : nat) (l : list A) : incl (firstn k l) l.
Proof.
  intros x Hx. rewrite <- (firstn_skipn k l). apply in_or_app. now left.
Qed.

Lemma firstn_NoDup {A : Type} (k : nat) (l : list A) :
  NoDup l -> NoDup (firstn k l).
Proof.
  intros H. rewrite <- (firstn_skipn k l) in H.
  now apply NoDup_app_remove_r in H.
Qed.

Lemma map_numberOf_firstn (k : nat) (probs : list NumberProbability.t) :
  map numberOf (firstn k probs) = firstn k (map numberOf probs).
Proof. symmetry. apply firstn_map. Qed.

Lemma goodSelection_nil (universe : list Z) : goodSelection universe [].
Proof. split; [constructor | intros x []]. Qed.

Lemma goodSelection_snoc (universe selected : list Z) (n : Z) :
  goodSelection universe selected -> In n universe -> ~ In n selected ->
  goodSelection universe (selected ++ [n]).
Proof.
  intros [Hnd Hincl] Hn Hfresh. split.
  - now apply NoDup_snoc.
  - intros x Hx. apply in_app_or in Hx as [Hx | [<- | []]]; auto.
Qed.

Lemma goodSelection_weaken (small large selected : list Z) :
  incl small large -> goodSelection small selected ->
  goodSelection large selected.
Proof.
  intros Hincl [Hnd Hsel]. split; [exact Hnd |].
  intros x Hx. apply Hincl, Hsel, Hx.
Qed.

Lemma goodSelection_perm (universe selected selected' : list Z) :
  Permutation selected selected' ->
  goodSelection universe selected -> goodSelection universe selected'.
Proof.
  intros Hperm [Hnd Hincl]. split.
  - apply (Permutation_NoDup Hperm Hnd).
  - intros x Hx. apply Hincl.
    apply (Permutation_in _ (Permutation_sym Hperm) Hx).
Qed.

Lemma firstUnselected_Some (candidates : list NumberProbability.t)
    (selected : list Z) (c : NumberProbability.t) :
  firstUnselected candidates selected = Some c ->
  In (numberOf c) (map numberOf candidates) /\ ~ In (numberOf c) selected.
Proof.
  unfold firstUnselected. intros H. apply find_some in H as [Hin Hneg].
  split; [now apply in_map |].
  apply includes_false. now destruct (includes selected (numberOf c)).
Qed.

Lemma firstUnselected_None (candidates : list NumberProbability.t)
    (selected : list Z) :
  firstUnselected candidates selected = None ->
  incl (map numberOf candidates) selected.
Proof.
  unfold firstUnselected. intros H x Hx.
  apply in_map_iff in Hx as (c & <- & Hc).
  pose proof (find_none _ _ H c Hc) as Hneg. simpl in Hneg.
  apply includes_In. now destruct (includes selected (numberOf c)).
Qed.

(** The first element of the filtered array is what [find] returns. *)
Lemma firstRemaining_firstUnselected (candidates : list NumberProbability.t)
    (selected : list Z) :
  firstRemaining candidates selected = firstUnselected candidates selected.
Proof.
  unfold firstRemaining, firstUnselected.
  induction candidates as [|c rest IH]; simpl; [reflexivity |].
  destruct (negb (includes selected (numberOf c))); [reflexivity | exact IH].
Qed.

(** More distinct candidates than selected numbers: one is unselected. *)
Lemma firstUnselected_exists (candidates : list NumberProbability.t)
    (selected : list Z) :
  NoDup (map numberOf candidates) ->
  (List.length selected < List.length candidates)%nat ->
  firstUnselected candidates selected <> None.
Proof.
  intros Hnd Hlen Hnone. apply firstUnselected_None in Hnone.
  apply (NoDup_incl_length Hnd) in Hnone. rewrite length_map in Hnone. lia.
Qed.

Section FillWhile.

Variable candidates : list NumberProbability.t.
Variable limit : nat.

(** The filling loop leaves by its own condition, not for lack of fuel. *)
Lemma fillWhile_exit (pick : list Z -> option NumberProbability.t)
    (fuel : nat) (selected : list Z) :
  (limit <= fuel + List.length selected)%nat ->
  let r := fillWhile fuel limit pick selected in
  (limit <= List.length r)%nat \/ pick r = None.
Proof.
  revert selected. induction fuel as [|fuel IH]; intros selected Hfuel; simpl.
  - left. lia.
  - destruct (Nat.ltb_spec (List.length selected) limit) as [Hlt | Hge].
    + destruct (pick selected) as [c |] eqn:Hpick.
      * apply IH. rewrite length_snoc. lia.
      * now right.
    + now left.
Qed.

Lemma fillWhile_good (universe : list Z) (fuel : nat) (selected : list Z) :
  incl (map numberOf candidates) universe ->
  goodSelection universe selected ->
  goodSelection universe
    (fillWhile fuel limit (firstUnselected candidates) selected).
Proof.
  intros Hincl. revert selected.
  induction fuel as [|fuel IH]; intros selected Hgood; simpl.
  - exact Hgood.
  - destruct (List.length selected <? limit)%nat; [| exact Hgood].
    destruct (firstUnselected candidates selected) as [c |] eqn:Hpick;
      [| exact Hgood].
    apply firstUnselected_Some in Hpick as [Hin Hfresh].
    apply IH. apply goodSelection_snoc; auto.
Qed.

Lemma fillWhile_length (fuel : nat) (selected : list Z) :
  NoDup (map numberOf candidates) ->
  (limit <= List.length candidates)%nat ->
  (List.length selected <= limit)%nat ->
  (limit <= fuel + List.length selected)%nat ->
  List.length (fillWhile fuel limit (firstUnselected candidates) selected)
  = limit.
Proof.
  intros Hnd Hcands. revert selected.
  induction fuel as [|fuel IH]; intros selected Hle Hfuel; simpl.
  - lia.
  - destruct (Nat.ltb_spec (List.length selected) limit) as [Hlt | Hge];
      [| lia].
    destruct (firstUnselected candidates selected) as [c |] eqn:Hpick.
    + apply IH; rewrite length_snoc; lia.
    + exfalso. revert Hpick. apply firstUnselected_exists; [exact Hnd | lia].
Qed.

End FillWhile.

(** A loop over distinct candidates whose turn either leaves the selection
    or appends the candidate, the latter only below [limit]. *)
Lemma fold_distinct {S : Type} (sel : S -> list Z)
    (step : S -> NumberProbability.t -> S) (limit : nat) :
  (forall s c, sel (step s c) = sel s
               \/ (sel (step s c) = sel s ++ [numberOf c]
                   /\ (List.length (sel s) < limit)%nat)) ->
  forall l s,
    NoDup (sel s ++ map numberOf l) ->
    (List.length (sel s) <= limit)%nat ->
    NoDup (sel (fold_left step l s))
    /\ incl (sel (fold_left step l s)) (sel s ++ map numberOf l)
    /\ (List.length (sel (fold_left step l s)) <= limit)%nat.
Proof.
  intros Hstep l. induction l as [|c l IH]; intros s Hnd Hlen; simpl.
  - rewrite app_nil_r in *. split; [exact Hnd |]. split; [apply incl_refl | lia].
  - destruct (Hstep s c) as [Hsame | [Happ Hlt]].
    + destruct (IH (step s c)) as (H1 & H2 & H3).
      * rewrite Hsame. now apply NoDup_remove_1 in Hnd.
      * rewrite Hsame. exact Hlen.
      * split; [exact H1 |]. split; [| exact H3].
        intros x Hx. apply H2 in Hx. rewrite Hsame in Hx.
        apply in_app_or in Hx as [Hx | Hx]; apply in_or_app;
          [now left | right; now right].
    + destruct (IH (step s c)) as (H1 & H2 & H3).
      * rewrite Happ, <- app_assoc. exact Hnd.
      * rewrite Happ, length_snoc. lia.
      * split; [exact H1 |]. split; [| exact H3].
        intros x Hx. apply H2 in Hx. rewrite Happ, <- app_assoc in Hx.
        exact Hx.
Qed.

Lemma pushNew_good (universe selected : list Z) (c : NumberProbability.t) :
  In (numberOf c) universe ->
  goodSelection universe selected ->
  goodSelection universe (pushNew selected c).
Proof.
  intros Hc Hgood. unfold pushNew.
  destruct (includes selected (numberOf c)) eqn:Hinc; [exact Hgood |].
  apply goodSelection_snoc; auto. now apply includes_false.
Qed.

Lemma pushNew_length (selected : list Z) (c : NumberProbability.t) :
  (List.length (pushNew selected c) <= S (List.length selected))%nat.
Proof.
  unfold pushNew. destruct (includes selected (numberOf c));
    [lia | rewrite length_snoc; lia].
Qed.

Lemma fold_pushNew_length (l : list NumberProbability.t) (selected : list Z) :
  (List.length (fold_left pushNew l selected)
   <= List.length selected + List.length l)%nat.
Proof.
  revert selected. induction l as [|c l IH]; intros selected; simpl; [lia |].
  specialize (IH (pushNew selected c)).
  pose proof (pushNew_length selected c). lia.
Qed.

Lemma fillWhile_ext (pick pick' : list Z -> option NumberProbability.t)
    (fuel limit : nat) (selected : list Z) :
  (forall sel, pick sel = pick' sel) ->
  fillWhile fuel limit pick selected = fillWhile fuel limit pick' selected.
Proof.
  intros Hext. revert selected.
  induction fuel as [|fuel IH]; intros selected; simpl; [reflexivity |].
  rewrite Hext. destruct (List.length selected <? limit)%nat; [| reflexivity].
  destruct (pick' selected); [apply IH | reflexivity].
Qed.

Lemma bestStep_cases (selected : list Z) (c : NumberProbability.t) :
  bestStep selected c = selected
  \/ (bestStep selected c = selected ++ [numberOf c]
      /\ (List.length selected < 5)%nat).
Proof.
  unfold bestStep.
  destruct (Nat.leb_spec 5 (List.length selected)); [now left |].
  destruct (_ && _); [now left | now right].
Qed.

Lemma patternStep_cases (t : Tally) (c : NumberProbability.t) :
  selectedOf (patternStep t c) = selectedOf t
  \/ (selectedOf (patternStep t c) = selectedOf t ++ [numberOf c]
      /\ (List.length (selectedOf t) < 5)%nat).
Proof.
  unfold patternStep.
  destruct (Nat.leb_spec 5 (List.length (selectedOf t))); [now left |].
  repeat match goal with
         | |- context [if ?b then t else _] => destruct b; [now left |]
         end.
  now right.
Qed.

Section Selectors.

Variable probs : list NumberProbability.t.
Hypothesis probs_distinct : NoDup (map numberOf probs).

Let universe := map numberOf probs.

Lemma top_distinct (k : nat) : NoDup (map numberOf (firstn k probs)).
Proof. rewrite map_numberOf_firstn. now apply firstn_NoDup. Qed.

Lemma top_incl (k : nat) : incl (map numberOf (firstn k probs)) universe.
Proof. rewrite map_numberOf_firstn. apply firstn_incl. Qed.

Lemma sorted_top_In (key : NumberProbability.t -> Z) (k : nat)
    (c : NumberProbability.t) :
  In c (firstn k (sort (descendingBy key) probs)) -> In (numberOf c) universe.
Proof.
  intros H. apply firstn_incl, sort_In in H. now apply in_map.
Qed.

Lemma sort_ascending_good (size : nat) (selected : list Z) :
  List.length selected = size /\ goodSelection universe selected ->
  List.length (sort ascending selected) = size
  /\ goodSelection universe (sort ascending selected).
Proof.
  intros [Hlen Hgood]. split.
  - now rewrite sort_length.
  - apply (goodSelection_perm _ selected); [| exact Hgood].
    apply Permutation_sym, sort_perm.
Qed.

Lemma selectBestNumbers_good :
  (5 <= List.length probs)%nat ->
  List.length (selectBestNumbers probs) = 5%nat
  /\ goodSelection universe (selectBestNumbers probs).
Proof.
  intros Hlen. unfold selectBestNumbers. cbv zeta.
  apply sort_ascending_good.
  rewrite (fillWhile_ext _ (firstUnselected (firstn 15 probs)))
    by apply firstRemaining_firstUnselected.
  destruct (fold_distinct (fun s => s) bestStep 5 bestStep_cases
              (firstn 15 probs) []) as (Hnd & Hincl & Hle).
  { cbv beta. cbn [app selectedOf]. apply top_distinct. }
  { cbv beta. cbn [selectedOf List.length]. lia. }
  cbv beta in Hnd, Hincl, Hle. cbn [app selectedOf] in Hincl. split.
  - apply fillWhile_length; [apply top_distinct | | exact Hle | lia].
    rewrite length_firstn. lia.
  - apply fillWhile_good; [apply top_incl |].
    split; [exact Hnd |]. intros x Hx. apply (top_incl 15), Hincl, Hx.
Qed.

Lemma selectBestStars_good :
  (2 <= List.length probs)%nat ->
  List.length (selectBestStars probs) = 2%nat
  /\ goodSelection universe (selectBestStars probs).
Proof.
  intros Hlen. unfold selectBestStars. apply sort_ascending_good. split.
  - rewrite length_map, length_firstn. lia.
  - split; [apply top_distinct | apply top_incl].
Qed.

Lemma selectBalancedNumbers_good :
  (5 <= List.length probs)%nat ->
  List.length (selectBalancedNumbers probs) = 5%nat
  /\ goodSelection universe (selectBalancedNumbers probs).
Proof.
  intros Hlen. unfold selectBalancedNumbers. cbv zeta.
  apply sort_ascending_good.
  set (hot := firstn 10 (sort (descendingBy NumberProbability.hotColdScore)
                           probs)).
  set (overdue := firstn 10
                    (sort (descendingBy NumberProbability.overdueScore) probs)).
  set (sel1 := fold_left pushNew (firstn 3 hot) []).
  assert (Hgood1 : goodSelection universe sel1).
  { apply fold_left_inv; [| apply goodSelection_nil].
    intros sel c Hc. apply pushNew_good.
    apply firstn_incl in Hc. now apply sorted_top_In in Hc. }
  assert (Hlen1 : (List.length sel1 <= 5)%nat).
  { pose proof (fold_pushNew_length (firstn 3 hot) []) as H.
    rewrite length_firstn in H. cbn [List.length] in H. unfold sel1. lia. }
  set (sel2 := fold_left _ overdue sel1).
  assert (H2 : goodSelection universe sel2 /\ (List.length sel2 <= 5)%nat).
  { apply fold_left_inv; [| now split].
    intros sel c Hc [Hgood Hle].
    destruct (Nat.ltb_spec (List.length sel) 5); [| now split].
    split.
    - apply pushNew_good; [| exact Hgood]. now apply sorted_top_In in Hc.
    - pose proof (pushNew_length sel c). lia. }
  destruct H2 as [Hgood2 Hlen2]. split.
  - apply fillWhile_length; [exact probs_distinct | exact Hlen | exact Hlen2
                            | lia].
  - apply fillWhile_good; [apply incl_refl | exact Hgood2].
Qed.

Lemma selectBalancedStars_good :
  (2 <= List.length probs)%nat ->
  List.length (selectBalancedStars probs) = 2%nat
  /\ goodSelection universe (selectBalancedStars probs).
Proof.
  intros Hlen. unfold selectBalancedStars. cbv zeta.
  apply sort_ascending_good.
  set (hotStars := sort (descendingBy NumberProbability.hotColdScore) probs).
  set (overdueStars :=
         sort (descendingBy NumberProbability.overdueScore) probs).
  set (sel1 := match hotStars with [] => [] | s :: _ => [numberOf s] end).
  assert (H1 : goodSelection universe sel1 /\ (List.length sel1 <= 1)%nat).
  { unfold sel1. pose proof (sort_In (descendingBy NumberProbability.hotColdScore)
                               probs) as Hin. fold hotStars in Hin.
    destruct hotStars as [|s rest].
    - split; [apply goodSelection_nil | simpl; lia].
    - split; [| simpl; lia].
      apply (goodSelection_snoc universe [] (numberOf s));
        [apply goodSelection_nil | | intros []].
      apply in_map, Hin. now left. }
  destruct H1 as [Hgood1 Hlen1].
  set (sel2 := match firstUnselected overdueStars sel1 with
               | Some star => sel1 ++ [numberOf star]
               | None => sel1
               end).
  assert (H2 : goodSelection universe sel2 /\ (List.length sel2 <= 2)%nat).
  { unfold sel2.
    destruct (firstUnselected overdueStars sel1) as [star |] eqn:Hpick.
    - apply firstUnselected_Some in Hpick as [Hin Hfresh]. split.
      + apply goodSelection_snoc; auto.
        apply in_map_iff in Hin as (c & <- & Hc).
        apply sort_In in Hc. now apply in_map.
      + rewrite length_snoc. lia.
    - split; [exact Hgood1 | lia]. }
  destruct H2 as [Hgood2 Hlen2]. split.
  - apply fillWhile_length; [exact probs_distinct | exact Hlen | exact Hlen2
                            | lia].
  - apply fillWhile_good; [apply incl_refl | exact Hgood2].
Qed.

Lemma selectPatternNumbers_good :
  (5 <= List.length probs)%nat ->
  List.length (selectPatternNumbers probs) = 5%nat
  /\ goodSelection universe (selectPatternNumbers probs).
Proof.
  intros Hlen. unfold selectPatternNumbers. cbv zeta.
  apply sort_ascending_good.
  destruct (fold_distinct selectedOf patternStep 5 patternStep_cases
              (firstn 20 probs) (mkTally [] 0 0 0 0)) as (Hnd & Hincl & Hle).
  { cbv beta. cbn [app selectedOf]. apply top_distinct. }
  { cbv beta. cbn [selectedOf List.length]. lia. }
  cbv beta in Hnd, Hincl, Hle. cbn [app selectedOf] in Hincl. split.
  - apply fillWhile_length; [apply top_distinct | | exact Hle | lia].
    rewrite length_firstn. lia.
  - apply fillWhile_good; [apply top_incl |].
    split; [exact Hnd |]. intros x Hx. apply (top_incl 20), Hincl, Hx.
Qed.

Lemma pickWeighted_Some (randomValue : Js.number) (selected : list Z)
    (candidates : list NumberProbability.t) (cumulativeWeight n : Z) :
  pickWeighted randomValue selected candidates cumulativeWeight = Some n ->
  In n (map numberOf candidates) /\ ~ In n selected.
Proof.
  revert cumulativeWeight.
  induction candidates as [|c rest IH]; intros w; simpl; [discriminate |].
  destruct (includes selected (numberOf c)) eqn:Hinc.
  - intros H. apply IH in H as [Hin Hfresh]. split; [now right | exact Hfresh].
  - destruct (Js.leb _ _).
    + intros [= <-]. split; [now left | now apply includes_false].
    + intros H. apply IH in H as [Hin Hfresh].
      split; [now right | exact Hfresh].
Qed.

Section Weighted.

Variable sin : Js.number -> Js.number.
Variables a b seed : Z.
Variable top : nat.
Variable totalWeight : Z.

Let step := weightedStep sin a b seed (firstn top probs) totalWeight.

(** A turn of the weighted selection adds exactly one new number. *)
Lemma weightedStep_good (selected : list Z) (i : Z) :
  goodSelection universe selected ->
  Z.of_nat (List.length selected) = i ->
  (List.length selected < List.length (firstn top probs))%nat ->
  goodSelection universe (step selected i)
  /\ List.length (step selected i) = S (List.length selected).
Proof.
  intros Hgood Hi Hroom. unfold step, weightedStep. cbv zeta.
  destruct (pickWeighted _ selected (firstn top probs) 0) as [n |] eqn:Hpick.
  - apply pickWeighted_Some in Hpick as [Hin Hfresh].
    rewrite length_snoc.
    destruct (Z.eqb_spec (Z.of_nat (S (List.length selected))) i); [lia |].
    split; [| apply length_snoc].
    apply goodSelection_snoc; auto. now apply (top_incl top).
  - rewrite <- Hi, Z.eqb_refl.
    destruct (firstUnselected (firstn top probs) selected) as [c |] eqn:Hc.
    + apply firstUnselected_Some in Hc as [Hin Hfresh].
      split; [| apply length_snoc].
      apply goodSelection_snoc; auto. now apply (top_incl top).
    + exfalso. revert Hc.
      apply firstUnselected_exists; [apply top_distinct | exact Hroom].
Qed.

Lemma weighted_fold_good (len start : nat) (selected : list Z) :
  goodSelection universe selected ->
  List.length selected = start ->
  (start + len <= List.length (firstn top probs))%nat ->
  let r := fold_left step (map Z.of_nat (seq start len)) selected in
  goodSelection universe r /\ List.length r = (start + len)%nat.
Proof.
  revert start selected.
  induction len as [|len IH]; intros start selected Hgood Hlen Hroom; simpl.
  - split; [exact Hgood | lia].
  - destruct (weightedStep_good selected (Z.of_nat start)) as [Hg Hl];
      [exact Hgood | now rewrite Hlen | lia |].
    destruct (IH (S start) (step selected (Z.of_nat start))) as [Hg' Hl'];
      [exact Hg | lia | lia |].
    split; [exact Hg' | lia].
Qed.

End Weighted.

Lemma selectWeighted_good (sin : Js.number -> Js.number) (a b : Z)
    (top picks : nat) (seed : Z) :
  (picks <= top)%nat -> (picks <= List.length probs)%nat ->
  List.length (selectWeighted sin a b top picks probs seed) = picks
  /\ goodSelection universe (selectWeighted sin a b top picks probs seed).
Proof.
  intros Htop Hlen. unfold selectWeighted. cbv zeta.
  apply sort_ascending_good.
  destruct (weighted_fold_good sin a b seed top
              (fold_left (fun sum w => sum + w)
                 (map NumberProbability.totalScore (firstn top probs)) 0)
              picks 0 []) as [Hg Hl].
  - apply goodSelection_nil.
  - reflexivity.
  - rewrite length_firstn. lia.
  - split; [exact Hl | exact Hg].
Qed.

End Selectors.

(** ** Rounding to binary64 *)

Lemma fexp_eq (e : Z) : fexp Js.prec Js.emax e = Z.max (e - 53) (-1074).
Proof. reflexivity. Qed.

Lemma digits2_pos_size (p : positive) : digits2_pos p = Pos.size p.
Proof. induction p; simpl; congruence. Qed.

Lemma Zdigits2_log2 (p : positive) :
  Zdigits2 (Zpos p) = Z.log2 (Zpos p) + 1.
Proof.
  simpl. rewrite digits2_pos_size.
  destruct p; simpl; try reflexivity; rewrite Pos2Z.inj_succ; lia.
Qed.

(** A positive integer lies between the powers of two that its number of
    digits names. *)
Lemma Zdigits2_bounds (p : positive) :
  2 ^ (Zdigits2 (Zpos p) - 1) <= Zpos p < 2 ^ Zdigits2 (Zpos p).
Proof.
  rewrite Zdigits2_log2.
  pose proof (Z.log2_spec (Zpos p) (Pos2Z.is_pos p)) as H.
  replace (Z.log2 (Zpos p) + 1 - 1) with (Z.log2 (Zpos p)) by lia.
  unfold Z.succ in H. exact H.
Qed.

Lemma Zdigits2_pos (p : positive) : 0 < Zdigits2 (Zpos p).
Proof. simpl. lia. Qed.

Lemma shr_1_m (mrs : shr_record) :
  0 <= shr_m mrs -> shr_m (shr_1 mrs) = shr_m mrs / 2.
Proof.
  destruct mrs as [m r s]. simpl. intros Hm.
  destruct m as [|[p|p|]|p]; simpl; try reflexivity; try lia.
  - apply (Z.div_unique (Zpos p~1) 2 (Zpos p) 1); lia.
  - apply (Z.div_unique (Zpos p~0) 2 (Zpos p) 0); lia.
Qed.

Lemma iter_shr_1_m (p : positive) (mrs : shr_record) :
  0 <= shr_m mrs ->
  shr_m (iter_pos shr_1 p mrs) = shr_m mrs / 2 ^ Zpos p.
Proof.
  revert mrs. induction p as [p IH | p IH |]; intros mrs Hm; simpl iter_pos.
  - assert (H1 : 0 <= shr_m (shr_1 mrs)).
    { rewrite shr_1_m by exact Hm. apply Z.div_pos; lia. }
    assert (H2 : 0 <= shr_m (iter_pos shr_1 p (shr_1 mrs))).
    { rewrite IH by exact H1. apply Z.div_pos; [exact H1 |]. apply Z.pow_pos_nonneg; lia. }
    rewrite IH by exact H2. rewrite IH by exact H1. rewrite shr_1_m by exact Hm.
    rewrite !Z.div_div by (try lia; apply Z.pow_pos_nonneg; lia).
    f_equal. rewrite <- Z.pow_add_r by lia.
    change 2 with (2 ^ 1) at 1. rewrite <- Z.pow_add_r by lia. f_equal. lia.
  - assert (H2 : 0 <= shr_m (iter_pos shr_1 p mrs)).
    { rewrite IH by exact Hm. apply Z.div_pos; [exact Hm |]. apply Z.pow_pos_nonneg; lia. }
    rewrite IH by exact H2. rewrite IH by exact Hm.
    rewrite !Z.div_div by (try lia; apply Z.pow_pos_nonneg; lia).
    f_equal. rewrite <- Z.pow_add_r by lia. f_equal. lia.
  - rewrite shr_1_m by exact Hm. reflexivity.
Qed.

Lemma shr_record_of_loc_m (m : Z) (l : location) :
  shr_m (shr_record_of_loc m l) = m.
Proof. destruct l as [|[]]; reflexivity. Qed.

(** What the shift to the format's exponent does to a mantissa. *)
Lemma shr_fexp_spec (m e : Z) (l : location) :
  0 <= m ->
  let n := fexp Js.prec Js.emax (Zdigits2 m + e) - e in
  (n <= 0 /\ shr_fexp Js.prec Js.emax m e l = (shr_record_of_loc m l, e))
  \/ (0 < n /\ exists mrs, shr_fexp Js.prec Js.emax m e l = (mrs, e + n)
                           /\ shr_m mrs = m / 2 ^ n).
Proof.
  intros Hm n. unfold shr_fexp, shr. fold n.
  destruct n as [|p|p] eqn:Hn.
  - left. split; [lia | reflexivity].
  - right. split; [lia |]. eexists. split; [reflexivity |].
    rewrite iter_shr_1_m; rewrite shr_record_of_loc_m; [reflexivity | exact Hm].
  - left. split; [lia | reflexivity].
Qed.

Lemma pow2_pos (k : Z) : 0 <= k -> 0 < 2 ^ k.
Proof. intros. apply Z.pow_pos_nonneg; lia. Qed.

Lemma shr_fexp_facts (m e : Z) (l : location) :
  0 <= m ->
  exists mrs e',
    shr_fexp Js.prec Js.emax m e l = (mrs, e')
    /\ 0 <= shr_m mrs < 2 ^ 53
    /\ -1074 <= e' /\ e <= e'
    /\ shr_m mrs * 2 ^ (e' - e) <= m
    /\ (e' = e -> mrs = shr_record_of_loc m l)
    /\ (e < e' -> e' = -1074 \/ 2 ^ 52 <= shr_m mrs)
    /\ (0 < m -> -1074 <= e -> 0 < shr_m mrs).
Proof.
  intros Hm.
  destruct (shr_fexp_spec m e l Hm) as [[Hn Heq] | (Hn & mrs & Heq & Hmrs)];
    rewrite fexp_eq in Hn.
  - exists (shr_record_of_loc m l), e. rewrite shr_record_of_loc_m.
    rewrite Z.sub_diag, Z.mul_1_r.
    assert (Hlt : m < 2 ^ 53).
    { destruct m as [|p|p]; [reflexivity | | lia].
      pose proof (Zdigits2_bounds p) as [_ Hd].
      eapply Z.lt_le_trans; [exact Hd |].
      apply Z.pow_le_mono_r; lia. }
    repeat split; try lia; auto.
  - exists mrs, (e + (fexp Js.prec Js.emax (Zdigits2 m + e) - e)).
    rewrite fexp_eq in *. set (n := Z.max (Zdigits2 m + e - 53) (-1074) - e) in *.
    assert (Hpow : 0 < 2 ^ n) by (apply pow2_pos; lia).
    replace (e + n - e) with n by lia. rewrite Hmrs.
    split; [exact Heq |].
    destruct m as [|p|p]; [| | lia].
    + rewrite Z.div_0_l by lia. simpl Zdigits2 in *.
      repeat split; try lia.
    + pose proof (Zdigits2_bounds p) as [Hlo Hhi].
      pose proof (Zdigits2_pos p) as Hd.
      set (d := Zdigits2 (Z.pos p)) in *.
      assert (Hupper : Z.pos p / 2 ^ n < 2 ^ 53).
      { apply Z.div_lt_upper_bound; [exact Hpow |].
        rewrite <- Z.pow_add_r by lia.
        eapply Z.lt_le_trans; [exact Hhi |].
        apply Z.pow_le_mono_r; lia. }
      assert (Hnorm : n = d - 53 -> 2 ^ 52 <= Z.pos p / 2 ^ n).
      { intros Hnd. apply Z.div_le_lower_bound; [exact Hpow |].
        rewrite <- Z.pow_add_r by lia.
        replace (n + 52) with (d - 1) by lia. exact Hlo. }
      split; [split; [apply Z.div_pos; lia | exact Hupper] |].
      split; [lia |]. split; [lia |].
      split; [rewrite Z.mul_comm; apply Z.mul_div_le; exact Hpow |].
      split; [lia |].
      split.
      * intros _. destruct (Z.max_spec (d + e - 53) (-1074)) as [[_ Hmax] | [_ Hmax]].
        -- left. lia.
        -- right. apply Hnorm. lia.
      * intros _ He. assert (2 ^ 52 <= Z.pos p / 2 ^ n); [apply Hnorm; lia |].
        pose proof (pow2_pos 52). lia.
Qed.

Lemma round_nearest_even_bounds (m : Z) (l : location) :
  m <= round_nearest_even m l <= m + 1.
Proof.
  unfold round_nearest_even. destruct l as [|[]]; try lia.
  destruct (Z.even m); lia.
Qed.

(** The shape of a rounded value with a non-negative mantissa: never NaN,
    of the sign it was given, with a mantissa below 2^53 and an exponent
    of the format. *)
Lemma binary_round_aux_shape (s : bool) (m e : Z) (l : location) :
  0 <= m ->
  match binary_round_aux Js.prec Js.emax s m e l with
  | S754_zero s' | S754_infinity s' => s' = s
  | S754_nan => False
  | S754_finite s' m'' e'' =>
      s' = s /\ Zpos m'' < 2 ^ 53 /\ -1074 <= e'' /\ e <= e''
  end.
Proof.
  intros Hm. unfold binary_round_aux.
  destruct (shr_fexp_facts m e l Hm)
    as (mrs' & e' & -> & [Hm'0 Hm'] & He' & Hee' & _).
  pose proof (round_nearest_even_bounds (shr_m mrs') (loc_of_shr_record mrs'))
    as Hr.
  set (m1 := round_nearest_even _ _) in *.
  destruct (shr_fexp_facts m1 e' loc_Exact)
    as (mrs'' & e'' & -> & [Hm''0 Hm''] & He'' & Hee'' & _); [lia |].
  destruct (shr_m mrs'') as [|p|p]; [reflexivity | | lia].
  destruct (e'' <=? Js.emax - Js.prec); [| reflexivity].
  repeat split; lia.
Qed.

(** A positive mantissa at an exponent of the format is not flushed to
    zero. *)
Lemma binary_round_aux_positive (s : bool) (p : positive) (e : Z)
    (l : location) :
  -1074 <= e ->
  match binary_round_aux Js.prec Js.emax s (Zpos p) e l with
  | S754_infinity s' | S754_finite s' _ _ => s' = s
  | _ => False
  end.
Proof.
  intros He. unfold binary_round_aux.
  destruct (shr_fexp_facts (Zpos p) e l)
    as (mrs' & e' & -> & [Hm'0 Hm'] & He' & Hee' & _ & _ & _ & Hpos); [lia |].
  specialize (Hpos ltac:(lia) He).
  pose proof (round_nearest_even_bounds (shr_m mrs') (loc_of_shr_record mrs'))
    as Hr.
  set (m1 := round_nearest_even _ _) in *.
  destruct (shr_fexp_facts m1 e' loc_Exact)
    as (mrs'' & e'' & -> & [Hm''0 Hm''] & He'' & Hee'' & _ & _ & _ & Hpos');
    [lia |].
  specialize (Hpos' ltac:(lia) He').
  destruct (shr_m mrs'') as [|q|q]; [lia | | lia].
  destruct (e'' <=? Js.emax - Js.prec); reflexivity.
Qed.

Lemma loc_of_exact_record (m : Z) :
  loc_of_shr_record (shr_record_of_loc m loc_Exact) = loc_Exact.
Proof. reflexivity. Qed.

(** The outcome of rounding a non-negative mantissa [m] at exponent [e]:
    a mantissa [m2] below 2^53 at an exponent [e2] of the format, which is
    [e] itself, or the least exponent, or carries a full mantissa; an exact
    input is exceeded by at most one part in 2^52, or by one unit at the
    least exponent. *)
Lemma binary_round_aux_outcome (s : bool) (m e : Z) (l : location) :
  0 <= m ->
  exists m2 e2,
    binary_round_aux Js.prec Js.emax s m e l
    = match m2 with
      | Z0 => S754_zero s
      | Zpos q => if e2 <=? 971 then S754_finite s q e2 else S754_infinity s
      | Zneg _ => S754_nan
      end
    /\ 0 <= m2 < 2 ^ 53
    /\ -1074 <= e2 /\ e <= e2
    /\ (e2 = e \/ e2 = -1074 \/ 2 ^ 52 <= m2)
    /\ (0 < m -> -1074 <= e -> 0 < m2)
    /\ (l = loc_Exact ->
        m2 * 2 ^ (e2 - e) * 2 ^ 52 <= m * (2 ^ 52 + 1)
        \/ m2 * 2 ^ (e2 - e) <= m + 2 ^ (e2 - e)).
Proof.
  intros Hm. unfold binary_round_aux.
  destruct (shr_fexp_facts m e l Hm)
    as (mrs' & e' & -> & [Hm'0 Hm'] & He' & Hee' & Hfloor' & Hsame' & Hnorm'
        & Hpos').
  pose proof (round_nearest_even_bounds (shr_m mrs') (loc_of_shr_record mrs'))
    as Hr.
  assert (Hexact : l = loc_Exact -> e' = e ->
                   round_nearest_even (shr_m mrs') (loc_of_shr_record mrs') = m).
  { intros -> He. rewrite (Hsame' He). reflexivity. }
  set (m1 := round_nearest_even _ _) in *.
  destruct (shr_fexp_facts m1 e' loc_Exact)
    as (mrs'' & e'' & -> & [Hm''0 Hm''] & He'' & Hee'' & Hfloor'' & Hsame''
        & Hnorm'' & Hpos''); [lia |].
  exists (shr_m mrs''), e''.
  split; [reflexivity |]. split; [lia |]. split; [lia |]. split; [lia |].
  assert (Hp1 : 0 < 2 ^ (e' - e)) by (apply pow2_pos; lia).
  assert (Hp2 : 0 < 2 ^ (e'' - e')) by (apply pow2_pos; lia).
  assert (Hsplit : 2 ^ (e'' - e) = 2 ^ (e'' - e') * 2 ^ (e' - e)).
  { rewrite <- Z.pow_add_r by lia. f_equal. lia. }
  assert (Hm1 : e'' = e' -> shr_m mrs'' = m1).
  { intros He. rewrite (Hsame'' He). apply shr_record_of_loc_m. }
  split; [| split].
  - destruct (Z.eq_dec e'' e') as [He2 | He2].
    + destruct (Z.eq_dec e' e) as [He1 | He1]; [left; lia |].
      destruct Hnorm' as [Hn | Hn]; [lia | right; left; lia |].
      right. right. rewrite (Hm1 He2). lia.
    + destruct Hnorm'' as [Hn | Hn]; [lia | right; left; lia | right; right; lia].
  - intros Hmpos He. apply Hpos''; [| lia].
    specialize (Hpos' Hmpos He). lia.
  - intros Hl.
    assert (Hup : shr_m mrs'' * 2 ^ (e'' - e) <= m1 * 2 ^ (e' - e)).
    { rewrite Hsplit, Z.mul_assoc. apply Z.mul_le_mono_nonneg_r; lia. }
    destruct (Z.eq_dec e' e) as [He1 | He1].
    + left. rewrite (Hexact Hl He1) in Hup.
      rewrite He1, Z.sub_diag, Z.mul_1_r in Hup.
      pose proof (pow2_pos 52). nia.
    + destruct Hnorm' as [Hn | Hn]; [lia | |].
      * right.
        assert (2 ^ (e' - e) <= 2 ^ (e'' - e)).
        { apply Z.pow_le_mono_r; lia. }
        nia.
      * left. pose proof (pow2_pos 52). nia.
Qed.

Lemma binary_round_aux_regular (m e : Z) (l : location) :
  0 <= m -> regular (binary_round_aux Js.prec Js.emax false m e l).
Proof.
  intros Hm. pose proof (binary_round_aux_shape false m e l Hm) as H.
  destruct (binary_round_aux _ _ _ _ _ _); simpl; tauto.
Qed.

Lemma binary_normalize_regular (z e : Z) :
  0 <= z -> regular (binary_normalize Js.prec Js.emax z e false).
Proof.
  intros Hz. destruct z as [|p|p]; [reflexivity | | lia].
  simpl. unfold binary_round. destruct (shl_align p e _) as [mz ez].
  apply binary_round_aux_regular. lia.
Qed.

Lemma of_Z_regular (z : Z) : 0 <= z -> regular (Js.of_Z z).
Proof. apply binary_normalize_regular. Qed.

Lemma SFdiv_core_binary_nonneg (m1 e1 m2 e2 : Z) :
  0 <= m1 -> 0 < m2 ->
  0 <= fst (fst (SFdiv_core_binary Js.prec Js.emax m1 e1 m2 e2)).
Proof.
  intros H1 H2. unfold SFdiv_core_binary.
  set (s := _ - _ - _).
  set (m' := match s with Z.pos _ => Z.shiftl m1 s | 0 => m1 | Z.neg _ => 0 end).
  assert (Hm' : 0 <= m').
  { unfold m'. destruct s; try lia. now apply Z.shiftl_nonneg. }
  pose proof (Z.div_pos m' m2 Hm' H2) as Hq. unfold Z.div in Hq.
  destruct (Z.div_eucl m' m2) as [q r]. exact Hq.
Qed.

Lemma div_regular (x : Js.number) (my : positive) (ey : Z) :
  regular x -> regular (Js.div x (S754_finite false my ey)).
Proof.
  destruct x as [s | s | | s m e]; simpl;
    try tauto; try (intros ->; reflexivity).
  intros (-> & _ & _).
  pose proof (SFdiv_core_binary_nonneg (Zpos m) e (Zpos my) ey) as Hq.
  destruct (SFdiv_core_binary _ _ _ _ _ _) as [[mz ez] lz].
  apply binary_round_aux_regular. apply Hq; lia.
Qed.

Lemma add_regular (x y : Js.number) :
  regular x -> regular y -> regular (Js.add x y).
Proof.
  destruct x as [sx | sx | | sx mx ex], y as [sy | sy | | sy my ey]; simpl;
    try tauto; try (intros -> ->; reflexivity).
  intros (-> & _ & _) (-> & _ & _).
  apply binary_normalize_regular. simpl. lia.
Qed.

Lemma of_Z_100 : Js.of_Z 100 = S754_finite false 7036874417766400 (-46).
Proof. vm_compute. reflexivity. Qed.

Lemma of_Z_10 : Js.of_Z 10 = S754_finite false 5629499534213120 (-49).
Proof. vm_compute. reflexivity. Qed.

Lemma of_Z_7 : Js.of_Z 7 = S754_finite false 7881299347898368 (-50).
Proof. vm_compute. reflexivity. Qed.

Lemma ltb_finite (m1 : positive) (e1 : Z) (m2 : positive) (e2 : Z) :
  Js.ltb (S754_finite false m1 e1) (S754_finite false m2 e2)
  = match Z.compare e1 e2 with
    | Lt => true
    | Gt => false
    | Eq => match Z.compare (Zpos m1) (Zpos m2) with Lt => true | _ => false end
    end.
Proof.
  unfold Js.ltb, SFltb, SFcompare. change (Zpos m1 ?= Zpos m2) with (Pos.compare m1 m2).
  unfold Pos.compare. destruct (Z.compare e1 e2); reflexivity.
Qed.

(** [Math.min(100, y)] of a regular [y] is zero or a double of value at
    most 100. *)
Lemma min_hundred (y : Js.number) :
  regular y ->
  Js.min (Js.of_Z 100) y = S754_zero false
  \/ exists m e,
       Js.min (Js.of_Z 100) y = S754_finite false m e
       /\ -1074 <= e <= -46 /\ Zpos m <= 100 * 2 ^ (- e).
Proof.
  rewrite of_Z_100. unfold Js.min.
  destruct y as [s | s | | s m e]; simpl regular.
  - intros ->. left. reflexivity.
  - intros ->. right. eexists _, _. split; [reflexivity |]. split; [lia |].
    vm_compute. discriminate.
  - intros [].
  - intros (-> & Hm & He). right. rewrite !ltb_finite.
    cbv beta iota delta [Js.is_nan Js.is_neg_zero orb].
    rewrite (Z.compare_antisym (-46) e).
    rewrite (Z.compare_antisym (Zpos 7036874417766400) (Zpos m)).
    destruct (Z.compare_spec (-46) e) as [<- | Hlt | Hgt];
      cbv beta iota delta [CompOpp].
    + destruct (Z.compare_spec (Zpos 7036874417766400) (Zpos m))
        as [Hm' | Hm' | Hm'];
        cbv beta iota delta [CompOpp]; eexists _, _; (split; [reflexivity |]);
        (split; [lia |]); change (2 ^ (- -46)) with 70368744177664; lia.
    + eexists _, _. split; [reflexivity |]. split; [lia |].
      change (2 ^ (- -46)) with 70368744177664; lia.
    + eexists _, _. split; [reflexivity |]. split; [lia |].
      assert (H : 2 ^ 47 <= 2 ^ (- e)) by (apply Z.pow_le_mono_r; lia).
      change (2 ^ 53) with 9007199254740992 in Hm.
      change (2 ^ 47) with 140737488355328 in H. lia.
Qed.

(** The integer arithmetic behind [Math.round(r * 10)] for a value [r] of
    at most 100: the product, rounded to a double, is below 1000.5. *)
Lemma tenths_bound (m e m2 e2 : Z) :
  0 < m -> -1074 <= e <= -46 -> m <= 100 * 2 ^ (- e) ->
  0 < m2 -> e - 49 <= e2 -> -1074 <= e2 ->
  (e2 = e - 49 \/ e2 = -1074 \/ 2 ^ 52 <= m2) ->
  (m2 * 2 ^ (e2 - (e - 49)) * 2 ^ 52 <= m * 5629499534213120 * (2 ^ 52 + 1)
   \/ m2 * 2 ^ (e2 - (e - 49)) <= m * 5629499534213120 + 2 ^ (e2 - (e - 49))) ->
  e2 < 0 /\ 2 * m2 + 2 ^ (- e2) < 1001 * 2 ^ (- e2 + 1).
Proof.
  intros Hm He Hval Hm2 Hee He2 Hnorm Hbound.
  set (K := 2 ^ (e2 - (e - 49))) in *.
  assert (HK : 0 < K) by (apply pow2_pos; lia).
  change (2 ^ 52) with 4503599627370496 in *.
  assert (HM : m * 5629499534213120 <= 1000 * 2 ^ (49 - e)).
  { replace (49 - e) with (- e + 49) by lia. rewrite Z.pow_add_r by lia.
    change (2 ^ 49) with 562949953421312.
    assert (0 < 2 ^ (- e)) by (apply pow2_pos; lia). nia. }
  assert (Hneg : e2 < 0).
  { destruct (Z.lt_ge_cases e2 0) as [H | H]; [exact H | exfalso].
    assert (HKM : 2 ^ (49 - e) <= K).
    { unfold K. apply Z.pow_le_mono_r; lia. }
    destruct Hnorm as [Hn | [Hn | Hn]]; [lia | lia |].
    destruct Hbound as [Hb | Hb].
    - assert (m2 * K * 4503599627370496 <= 1000 * K * 4503599627370497) by nia.
      assert (m2 * 4503599627370496 <= 1000 * 4503599627370497) by nia.
      lia.
    - assert (m2 * K <= 1001 * K) by nia.
      assert (m2 <= 1001) by nia. lia. }
  split; [exact Hneg |].
  set (P := 2 ^ (- e2)) in *.
  assert (HP : 0 < P) by (apply pow2_pos; lia).
  assert (HP2 : 2 ^ (- e2 + 1) = 2 * P).
  { rewrite Z.pow_add_r by lia. unfold P. lia. }
  assert (HKP : 2 ^ (49 - e) = K * P).
  { unfold K, P. rewrite <- Z.pow_add_r by lia. f_equal. lia. }
  rewrite HP2. rewrite HKP in HM.
  destruct Hbound as [Hb | Hb].
  - assert (H1 : K * (m2 * 4503599627370496) <= K * (1000 * P * 4503599627370497))
      by nia.
    apply Z.mul_le_mono_pos_l in H1; [| exact HK]. lia.
  - assert (H1 : K * m2 <= K * (1000 * P + 1)) by nia.
    apply Z.mul_le_mono_pos_l in H1; [| exact HK].
    assert (HP4 : 4 <= P).
    { destruct (Z.le_gt_cases e2 (-2)) as [H | H].
      - change 4 with (2 ^ 2). unfold P. apply Z.pow_le_mono_r; lia.
      - assert (e2 = -1) by lia. subst e2.
        destruct Hnorm as [Hn | [Hn | Hn]]; [lia | lia |].
        change (2 ^ (- -1)) with 2 in P. unfold P in H1. lia. }
    lia.
Qed.

Lemma mul_finite (m1 : positive) (e1 : Z) (m2 : positive) (e2 : Z) :
  Js.mul (S754_finite false m1 e1) (S754_finite false m2 e2)
  = binary_round_aux Js.prec Js.emax false (Zpos (m1 * m2)) (e1 + e2) loc_Exact.
Proof. reflexivity. Qed.

(** [Math.round(r * 10)] for a double [r] of value at most 100 is an
    integer of 0..1000. *)
Lemma round_tenths (m : positive) (e : Z) :
  -1074 <= e <= -46 -> Zpos m <= 100 * 2 ^ (- e) ->
  exists n, 0 <= n <= 1000
    /\ Js.round (Js.mul (S754_finite false m e) (Js.of_Z 10))
       = if n =? 0 then S754_zero false else Js.of_Z n.
Proof.
  intros He Hval. rewrite of_Z_10, mul_finite.
  destruct (binary_round_aux_outcome false (Zpos (m * 5629499534213120))
              (e + -49) loc_Exact)
    as (m2 & e2 & -> & [Hm20 Hm2] & He2 & Hee & Hnorm & _ & Hbound); [lia |].
  specialize (Hbound eq_refl).
  destruct m2 as [|q|q]; [exists 0; split; [lia | reflexivity] | | lia].
  rewrite Pos2Z.inj_mul in Hbound.
  replace (e + -49) with (e - 49) in * by lia.
  destruct (tenths_bound (Zpos m) e (Zpos q) e2) as [Hneg Hlt]; try lia.
  destruct e2 as [|p|p]; [lia | lia |].
  replace (Z.neg p <=? 971) with true by (symmetry; apply Z.leb_le; lia).
  cbv beta iota delta [Js.round].
  set (n := (2 * Zpos q + 2 ^ Zpos p) / 2 ^ (Zpos p + 1)).
  exists n. split; [| reflexivity].
  change (- Z.neg p) with (Zpos p) in Hlt.
  assert (0 < 2 ^ Zpos p) by (apply pow2_pos; lia).
  assert (0 < 2 ^ (Zpos p + 1)) by (apply pow2_pos; lia).
  split.
  - apply Z.div_pos; lia.
  - assert (n < 1001); [| lia].
    apply Z.div_lt_upper_bound; lia.
Qed.

(** ** The grid of tenths *)

Lemma round1_capped (y : Js.number) :
  regular y ->
  exists n, 0 <= n <= 1000 /\ round1 (Js.min (Js.of_Z 100) y) = tenth n.
Proof.
  intros Hy. unfold round1, tenth.
  destruct (min_hundred y Hy) as [-> | (m & e & -> & He & Hval)].
  - exists 0. split; [lia |]. vm_compute. reflexivity.
  - destruct (round_tenths m e He Hval) as (n & Hn & ->).
    exists n. split; [exact Hn |].
    destruct (Z.eqb_spec n 0) as [-> | _]; reflexivity.
Qed.

Lemma totals_nonneg (draws : list Draw.t) (type : PoolType) (l : list Z)
    (t : Totals) :
  (0 <= totalFrequency t /\ 0 <= totalHotCold t
   /\ 0 <= totalPattern t /\ 0 <= totalOverdue t) ->
  let t' := fold_left
              (fun t n => addProbability t (calculateNumberProbability n draws type))
              l t in
  0 <= totalFrequency t' /\ 0 <= totalHotCold t'
  /\ 0 <= totalPattern t' /\ 0 <= totalOverdue t'.
Proof.
  intros Ht. cbv zeta. apply fold_left_inv; [| exact Ht].
  intros a n _ (H1 & H2 & H3 & H4). unfold addProbability.
  cbn [totalFrequency totalHotCold totalPattern totalOverdue
       NumberProbability.frequencyScore NumberProbability.hotColdScore
       NumberProbability.patternScore NumberProbability.overdueScore
       calculateNumberProbability].
  pose proof (calculateFrequencyScore_range n draws type).
  pose proof (calculateHotColdScore_range n draws type).
  pose proof (calculatePatternScore_range n type).
  pose proof (calculateOverdueScore_range n draws type).
  lia.
Qed.

(** The score of a combination of five numbers and two stars is [n / 10]
    for an integer [n] of 0..1000. *)
Lemma scoreCombination_tenths (numbers stars : list Z) (draws : list Draw.t) :
  List.length numbers = 5%nat -> List.length stars = 2%nat ->
  exists n, 0 <= n <= 1000
    /\ CombinationScore.probabilityScore (scoreCombination numbers stars draws)
       = tenth n.
Proof.
  intros Hn Hs. unfold scoreCombination. cbv zeta.
  cbn [CombinationScore.probabilityScore]. rewrite Hn, Hs.
  change (Z.of_nat 5 + Z.of_nat 2) with 7. rewrite of_Z_7.
  destruct (totals_nonneg draws TStars stars
              (fold_left
                 (fun t num =>
                    addProbability t (calculateNumberProbability num draws TNumbers))
                 numbers (mkTotals 0 0 0 0)))
    as (H1 & H2 & H3 & H4).
  { apply (totals_nonneg draws TNumbers numbers (mkTotals 0 0 0 0)).
    simpl. lia. }
  set (t := fold_left _ stars _) in *.
  apply round1_capped.
  repeat apply add_regular; try (apply div_regular, of_Z_regular; assumption).
  apply of_Z_regular.
  repeat match goal with
         | |- context [if ?c then _ else _] => destruct c
         end; lia.
Qed.

Lemma tenthOk_all (n : Z) : 0 <= n <= 1000 -> tenthOk n = true.
Proof.
  intros Hn. apply (forall_range tenthOk 0 1001); [| lia].
  vm_compute. reflexivity.
Qed.

(** [tenth] is strictly increasing on 0..1001. *)
Lemma units_tenth_lt (a b : Z) :
  0 <= a -> a < b -> b <= 1001 -> units (tenth a) < units (tenth b).
Proof.
  intros Ha Hab Hb.
  replace b with (a + 1 + Z.of_nat (Z.to_nat (b - a - 1))) by lia.
  assert (Hk : a + 1 + Z.of_nat (Z.to_nat (b - a - 1)) <= 1001) by lia.
  revert Hk. generalize (Z.to_nat (b - a - 1)). intros k.
  induction k as [|k IH]; intros Hk.
  - rewrite Z.add_0_r.
    pose proof (tenthOk_all a ltac:(lia)) as H. unfold tenthOk in H.
    apply andb_prop in H as [_ H]. now apply Z.ltb_lt in H.
  - eapply Z.lt_trans; [apply IH; lia |].
    pose proof (tenthOk_all (a + 1 + Z.of_nat k) ltac:(lia)) as H.
    unfold tenthOk in H. apply andb_prop in H as [_ H]. apply Z.ltb_lt in H.
    replace (a + 1 + Z.of_nat (S k)) with (a + 1 + Z.of_nat k + 1) by lia.
    exact H.
Qed.

Lemma tenth_shape (n : Z) :
  0 <= n <= 1000 ->
  tenth n = S754_zero false
  \/ exists m e, tenth n = S754_finite false m e /\ -1074 <= e.
Proof.
  intros Hn. pose proof (tenthOk_all n Hn) as H. unfold tenthOk in H.
  apply andb_prop in H as [H _].
  destruct (tenth n) as [[] | | | [] m e]; try discriminate.
  - now left.
  - right. exists m, e. split; [reflexivity |].
    apply andb_prop in H as [H _]. now apply Z.leb_le in H.
Qed.

Lemma pos_iter_xO (m d : positive) :
  Zpos (Pos.iter xO m d) = Zpos m * 2 ^ Zpos d.
Proof.
  induction d as [|d IH] using Pos.peano_ind.
  - simpl. lia.
  - rewrite Pos.iter_succ, Pos2Z.inj_xO, IH, Pos2Z.inj_succ.
    rewrite Z.pow_succ_r by lia. lia.
Qed.

(** The mantissa aligned at a smaller exponent. *)
Lemma shl_align_value (m : positive) (e ez : Z) :
  ez <= e ->
  Zpos (fst (shl_align m e ez)) = Zpos m * 2 ^ (e - ez).
Proof.
  intros He. unfold shl_align.
  destruct (ez - e) as [|d|d] eqn:Hd; try lia.
  - replace (e - ez) with 0 by lia. simpl fst. lia.
  - simpl fst. rewrite pos_iter_xO. f_equal. f_equal. lia.
Qed.

Lemma shl_align_exponent (m : positive) (e e' : Z) :
  -1074 <= e -> -1074 <= e' -> -1074 <= snd (shl_align m e e').
Proof.
  intros He He'. unfold shl_align. destruct (e' - e); simpl; lia.
Qed.

Lemma binary_normalize_positive (p : positive) (e : Z) :
  -1074 <= e ->
  isPositive (binary_normalize Js.prec Js.emax (Zpos p) e false).
Proof.
  intros He. simpl. unfold binary_round.
  pose proof (shl_align_exponent p e
                (fexp Js.prec Js.emax (Zpos (digits2_pos p) + e)) He) as Hez.
  rewrite fexp_eq in Hez. specialize (Hez ltac:(lia)).
  rewrite fexp_eq.
  destruct (shl_align p e _) as [mz ez]. simpl in Hez.
  pose proof (binary_round_aux_positive false mz ez loc_Exact Hez) as H.
  destruct (binary_round_aux _ _ _ _ _ _) as [s | s | | s m e'];
    try contradiction; subst; exact I.
Qed.

(** A difference of two doubles of the format is above zero when the
    exact difference is. *)
Lemma sub_positive (my : positive) (ey : Z) (x : Js.number) :
  -1074 <= ey ->
  x = S754_zero false
  \/ (exists mx ex, x = S754_finite false mx ex /\ -1074 <= ex) ->
  units x < units (S754_finite false my ey) ->
  isPositive (Js.sub (S754_finite false my ey) x).
Proof.
  intros Hey [-> | (mx & ex & -> & Hex)] Hlt.
  - exact I.
  - unfold Js.sub, SFsub. cbv beta iota zeta delta [cond_Zopp].
    set (ez := Z.min ey ex).
    rewrite (shl_align_value my ey ez), (shl_align_value mx ex ez)
      by (unfold ez; lia).
    unfold units in Hlt.
    assert (Hez : -1074 <= ez) by (unfold ez; lia).
    assert (Hy : Zpos my * 2 ^ (ey + 1074)
                 = Zpos my * 2 ^ (ey - ez) * 2 ^ (ez + 1074)).
    { rewrite <- Z.mul_assoc, <- Z.pow_add_r by (unfold ez; lia).
      f_equal. f_equal. lia. }
    assert (Hx : Zpos mx * 2 ^ (ex + 1074)
                 = Zpos mx * 2 ^ (ex - ez) * 2 ^ (ez + 1074)).
    { rewrite <- Z.mul_assoc, <- Z.pow_add_r by (unfold ez; lia).
      f_equal. f_equal. lia. }
    rewrite Hx, Hy in Hlt.
    assert (Hp : 0 < 2 ^ (ez + 1074)) by (apply pow2_pos; lia).
    apply Z.mul_lt_mono_pos_r in Hlt; [| exact Hp].
    destruct (Zpos my * 2 ^ (ey - ez) - Zpos mx * 2 ^ (ex - ez)) as [|p|p] eqn:Hd;
      try lia.
    now apply binary_normalize_positive.
Qed.

Lemma units_nonneg (x : Js.number) : 0 <= units x.
Proof.
  unfold units. destruct x as [s | s | | s m e]; try lia.
  destruct s; [lia |].
  apply Z.mul_nonneg_nonneg; [lia |]. apply Z.pow_nonneg. lia.
Qed.

(** On the grid of tenths the comparator of the sort keeps the order of
    the integers. *)
Lemma tenth_in_order (a b : Z) :
  0 <= a <= 1000 -> 0 <= b <= 1000 ->
  ~ isPositive (Js.sub (tenth b) (tenth a)) -> b <= a.
Proof.
  intros Ha Hb Hnot. destruct (Z.le_gt_cases b a) as [H | H]; [exact H |].
  exfalso. apply Hnot.
  pose proof (units_tenth_lt a b ltac:(lia) H ltac:(lia)) as Hlt.
  destruct (tenth_shape b Hb) as [Hz | (m & e & Heq & He)].
  - rewrite Hz in Hlt. cbn [units] in Hlt.
    pose proof (units_nonneg (tenth a)). lia.
  - rewrite Heq in *. apply sub_positive; [exact He | | exact Hlt].
    destruct (tenth_shape a Ha) as [-> | (m' & e' & -> & He')];
      [now left | right; now exists m', e'].
Qed.

(** ** smartCombinationGenerator.ts: the generated list *)

Lemma getAllNumberProbabilities_numbers (draws : list Draw.t) (type : PoolType) :
  Permutation (map numberOf (getAllNumberProbabilities draws type))
              (range1 (maxNumber type)).
Proof.
  unfold getAllNumberProbabilities.
  eapply perm_trans; [apply Permutation_map, sort_perm |].
  rewrite map_map. rewrite (map_ext _ (fun k => k)) by reflexivity.
  rewrite map_id. apply Permutation_refl.
Qed.

Lemma getAllNumberProbabilities_length (draws : list Draw.t) (type : PoolType) :
  List.length (getAllNumberProbabilities draws type) = maxNumber type.
Proof.
  rewrite <- (length_map numberOf).
  rewrite (Permutation_length (getAllNumberProbabilities_numbers draws type)).
  unfold range1. now rewrite length_map, length_seq.
Qed.

Lemma getAllNumberProbabilities_distinct (draws : list Draw.t)
    (type : PoolType) :
  NoDup (map numberOf (getAllNumberProbabilities draws type)).
Proof.
  apply (Permutation_NoDup
           (Permutation_sym (getAllNumberProbabilities_numbers draws type))).
  apply range1_NoDup.
Qed.

Lemma good_valid (draws : list Draw.t) (type : PoolType) (size : nat)
    (selected : list Z) :
  List.length selected = size
  /\ goodSelection (map numberOf (getAllNumberProbabilities draws type))
       selected ->
  validSelection size (Z.of_nat (maxNumber type)) selected.
Proof.
  intros [Hlen [Hnd Hincl]]. split; [exact Hlen |]. split; [exact Hnd |].
  apply Forall_forall. intros x Hx. apply range1_In.
  apply (Permutation_in _ (getAllNumberProbabilities_numbers draws type)).
  now apply Hincl.
Qed.

Lemma generateSlot_valid (sin : Js.number -> Js.number) (draws : list Draw.t)
    (i : Z) :
  let combo :=
    generateSlot sin draws (getAllNumberProbabilities draws TNumbers)
      (getAllNumberProbabilities draws TStars) i in
  validSelection 5 50 (GeneratedCombination.numbers combo)
  /\ validSelection 2 12 (GeneratedCombination.stars combo).
Proof.
  pose proof (getAllNumberProbabilities_distinct draws TNumbers) as Hn.
  pose proof (getAllNumberProbabilities_distinct draws TStars) as Hs.
  pose proof (getAllNumberProbabilities_length draws TNumbers) as Ln.
  pose proof (getAllNumberProbabilities_length draws TStars) as Ls.
  simpl maxNumber in Ln, Ls.
  unfold generateSlot.
  destruct (i =? 0); [| destruct (i =? 1); [| destruct (i =? 2)]];
    cbv zeta iota beta;
    unfold GeneratedCombination.ofScore, scoreCombination;
    cbn [GeneratedCombination.numbers GeneratedCombination.stars
         CombinationScore.numbers CombinationScore.stars];
    (split;
     [ apply (good_valid draws TNumbers) | apply (good_valid draws TStars) ]).
  - apply selectBestNumbers_good; [exact Hn | lia].
  - apply selectBestStars_good; [exact Hs | lia].
  - apply selectBalancedNumbers_good; [exact Hn | lia].
  - apply selectBalancedStars_good; [exact Hs | lia].
  - apply selectPatternNumbers_good; [exact Hn | lia].
  - apply selectBestStars_good; [exact Hs | lia].
  - apply selectWeighted_good; [exact Hn | lia | lia].
  - apply selectWeighted_good; [exact Hs | lia | lia].
Qed.

Lemma reRank_map {B : Type} (f : GeneratedCombination.t -> B) (index : Z)
    (combos : list GeneratedCombination.t) :
  (forall c r, f (GeneratedCombination.withRank c r) = f c) ->
  map f (reRank index combos) = map f combos.
Proof.
  intros Hf. revert index.
  induction combos as [|c rest IH]; intros index; simpl; [reflexivity |].
  now rewrite Hf, IH.
Qed.

Lemma reRank_ranks (k : nat) (combos : list GeneratedCombination.t) :
  map GeneratedCombination.rank (reRank (Z.of_nat k) combos)
  = map Z.of_nat (seq (S k) (List.length combos)).
Proof.
  revert k. induction combos as [|c rest IH]; intros k; simpl; [reflexivity |].
  f_equal; [lia |].
  replace (Z.of_nat k + 1) with (Z.of_nat (S k)) by lia. apply IH.
Qed.

Lemma Sorted_map {A B : Type} (R : B -> B -> Prop) (f : A -> B) (l : list A) :
  Sorted (fun x y => R (f x) (f y)) l -> Sorted R (map f l).
Proof.
  induction 1 as [|a l Hs IH Hd]; simpl; constructor.
  - exact IH.
  - destruct Hd; simpl; constructor. assumption.
Qed.

Lemma generateSlot_tenths (sin : Js.number -> Js.number) (draws : list Draw.t)
    (i : Z) :
  exists n, 0 <= n <= 1000
    /\ GeneratedCombination.probabilityScore
         (generateSlot sin draws (getAllNumberProbabilities draws TNumbers)
            (getAllNumberProbabilities draws TStars) i)
       = tenth n.
Proof.
  destruct (generateSlot_valid sin draws i) as [(Hn & _) (Hs & _)].
  revert Hn Hs. unfold generateSlot.
  destruct (if i =? 0 then _ else _) as [numbers stars].
  unfold GeneratedCombination.ofScore.
  cbn [GeneratedCombination.numbers GeneratedCombination.stars
       GeneratedCombination.probabilityScore].
  unfold scoreCombination at 1 2. cbv zeta.
  cbn [CombinationScore.numbers CombinationScore.stars].
  intros Hn Hs. now apply scoreCombination_tenths.
Qed.

Lemma tenths_list {A : Type} (f : A -> Js.number) (l : list A) :
  Forall (fun x => exists n, 0 <= n <= 1000 /\ f x = tenth n) l ->
  exists ns, map f l = map tenth ns /\ Forall (fun n => 0 <= n <= 1000) ns.
Proof.
  induction 1 as [|x l (n & Hn & Hx) _ (ns & Hmap & Hall)].
  - exists []. split; [reflexivity | constructor].
  - exists (n :: ns). simpl. rewrite Hx, Hmap.
    split; [reflexivity | now constructor].
Qed.

Lemma tenths_Sorted (ns : list Z) :
  Forall (fun n => 0 <= n <= 1000) ns ->
  Sorted (fun earlier later => ~ isPositive (Js.sub later earlier))
         (map tenth ns) ->
  StronglySorted (fun a b => b <= a) ns.
Proof.
  intros Hall Hs. apply Sorted_StronglySorted.
  - intros a b c Hab Hbc. simpl in *. lia.
  - induction ns as [|a ns IH]; [constructor |].
    inversion Hall as [|? ? Ha Hall']; subst.
    simpl in Hs. inversion Hs as [|? ? Hs' Hd]; subst.
    constructor; [now apply IH |].
    destruct ns as [|b ns]; [constructor |].
    inversion Hall' as [|? ? Hb _]; subst.
    simpl in Hd. inversion Hd; subst. constructor.
    now apply tenth_in_order.
Qed.

(** C5: whatever [Math.sin] computes, for every history and every integer
    [count] the generator works with [count] clamped into 1..10 and returns
    that many combinations; their ranks are 1, 2, ... in this order; their
    scores are the doubles [t / 10] for integers [t] of 0..1000 that never
    increase along the list; each combination holds 5 distinct numbers of
    1..50 and 2 distinct stars of 1..12. *)
Theorem C5_generateTopCombinations (sin : Js.number -> Js.number)
    (draws : list Draw.t) (count : Z) :
  let n := Z.min 10 (Z.max 1 count) in
  let r := generateTopCombinations sin draws count in
  1 <= n <= 10
  /\ (count < 1 /\ n = 1 \/ 1 <= count <= 10 /\ n = count
      \/ 10 < count /\ n = 10)
  /\ Z.of_nat (List.length r) = n
  /\ map GeneratedCombination.rank r = range1 (Z.to_nat n)
  /\ (exists tenths,
        map GeneratedCombination.probabilityScore r = map tenth tenths
        /\ Forall (fun t => 0 <= t <= 1000) tenths
        /\ StronglySorted (fun earlier later => later <= earlier) tenths)
  /\ Forall (validSelection 5 50) (map GeneratedCombination.numbers r)
  /\ Forall (validSelection 2 12) (map GeneratedCombination.stars r).
Proof.
  intros n r. subst r. unfold generateTopCombinations. cbv zeta. fold n.
  set (slots := map _ (map Z.of_nat (seq 0 (Z.to_nat n)))).
  set (sorted := sort _ slots).
  assert (Hlen : List.length sorted = Z.to_nat n).
  { unfold sorted, slots. now rewrite sort_length, !length_map, length_seq. }
  assert (Hslot : forall c, In c sorted ->
                    exists i, c = generateSlot sin draws
                                    (getAllNumberProbabilities draws TNumbers)
                                    (getAllNumberProbabilities draws TStars) i).
  { intros c Hc. apply sort_In in Hc. unfold slots in Hc.
    apply in_map_iff in Hc as (i & <- & _). now exists i. }
  split; [lia |]. split; [lia |]. split; [| split; [| split; [| split]]].
  - rewrite <- (length_map GeneratedCombination.rank).
    rewrite (reRank_ranks 0), length_map, length_seq. lia.
  - rewrite (reRank_ranks 0), Hlen. reflexivity.
  - rewrite reRank_map by reflexivity.
    destruct (tenths_list GeneratedCombination.probabilityScore sorted)
      as (tenths & Hmap & Hall).
    { apply Forall_forall. intros c Hc. destruct (Hslot c Hc) as (i & ->).
      apply generateSlot_tenths. }
    exists tenths. split; [exact Hmap |]. split; [exact Hall |].
    apply tenths_Sorted; [exact Hall |]. rewrite <- Hmap. apply Sorted_map.
    apply Sorted_impl
      with (R := inOrder (descendingByNumber
                            GeneratedCombination.probabilityScore)).
    + intros x y Hxy Hpos. apply Hxy. now apply descendingByNumber_Gt.
    + apply sort_Sorted. intros x y. apply descendingByNumber_asym.
  - rewrite reRank_map by reflexivity. apply Forall_forall.
    intros x Hx. apply in_map_iff in Hx as (c & <- & Hc).
    destruct (Hslot c Hc) as (i & ->). apply generateSlot_valid.
  - rewrite reRank_map by reflexivity. apply Forall_forall.
    intros x Hx. apply in_map_iff in Hx as (c & <- & Hc).
    destruct (Hslot c Hc) as (i & ->). apply generateSlot_valid.
Qed.

(* ================================================================== *)
(** * Further properties *)

(** ** drawChecker.ts: prizes, summaries and the closest bet *)

(** ** Match codes *)

Lemma string_of_uint_digits (d : Decimal.uint) :
  all_digits (NilEmpty.string_of_uint d) = true.
Proof. induction d; simpl; try rewrite IHd; reflexivity. Qed.

Lemma to_uint_nonnil (n : N) : N.to_uint n <> Decimal.Nil.
Proof.
  rewrite <- (DecimalN.Unsigned.of_to n), DecimalN.Unsigned.to_of.
  apply DecimalFacts.unorm_nonnil.
Qed.

Lemma string_of_N_digits (n : N) :
  all_digits (Js.string_of_N n) = true /\ Js.string_of_N n <> ""%string.
Proof.
  unfold Js.string_of_N, NilZero.string_of_uint.
  pose proof (to_uint_nonnil n) as Hn.
  destruct (N.to_uint n) eqn:E; try congruence;
    (split; [apply (string_of_uint_digits (_ u)) | discriminate]).
Qed.

Lemma string_of_N_inj (a b : N) :
  Js.string_of_N a = Js.string_of_N b -> a = b.
Proof.
  unfold Js.string_of_N. intros H.
  apply (f_equal NilZero.uint_of_string) in H.
  rewrite !NilZero.usu in H by apply to_uint_nonnil.
  injection H as H. now apply DecimalN.Unsigned.to_uint_inj.
Qed.

Lemma append_plus_inj (s1 s2 t1 t2 : string) :
  all_digits s1 = true -> all_digits s2 = true ->
  (s1 ++ String "+" t1 = s2 ++ String "+" t2)%string ->
  s1 = s2 /\ t1 = t2.
Proof.
  revert s2. induction s1 as [|c s1 IH]; intros [|c' s2]; simpl;
    intros H1 H2 H.
  - injection H as ->. now split.
  - injection H as <- _. discriminate H2.
  - injection H as -> _. discriminate H1.
  - injection H as -> H.
    apply andb_prop in H1 as [_ H1]. apply andb_prop in H2 as [_ H2].
    destruct (IH s2 H1 H2 H) as [-> ->]. now split.
Qed.

Lemma matchCodeOf_inj (a b c d : Z) :
  0 <= a -> 0 <= b -> 0 <= c -> 0 <= d ->
  matchCodeOf a b = matchCodeOf c d -> a = c /\ b = d.
Proof.
  intros Ha Hb Hc Hd H. unfold matchCodeOf in H.
  apply append_plus_inj in H as [H1 H2];
    try apply string_of_N_digits.
  apply string_of_N_inj in H1, H2. lia.
Qed.

Lemma winner_code (n s : Z) :
  0 <= n <= 5 -> 0 <= s <= 2 ->
  negb (String.eqb (orElse (lookup (matchCodeOf n s) PRIZE_TIERS) "No prize")
                   "No prize")
  = (3 <=? n + s).
Proof.
  intros Hn Hs.
  assert (En : n = 0 \/ n = 1 \/ n = 2 \/ n = 3 \/ n = 4 \/ n = 5) by lia.
  assert (Es : s = 0 \/ s = 1 \/ s = 2) by lia.
  destruct En as [-> | [-> | [-> | [-> | [-> | ->]]]]];
    destruct Es as [-> | [-> | ->]]; reflexivity.
Qed.

Lemma listed_code (n s : Z) (v : string) :
  0 <= n -> 0 <= s ->
  In (matchCodeOf n s, v) PRIZE_TIERS ->
  3 <= n + s /\ n <= 5 /\ s <= 2
  /\ (v = "🏆 JACKPOT!"%string -> n = 5 /\ s = 2).
Proof.
  intros Hn Hs Hin. unfold PRIZE_TIERS in Hin. cbn [In] in Hin.
  repeat match type of Hin with
         | _ \/ _ => destruct Hin as [Hin | Hin]
         end;
    try contradiction;
    injection Hin as Hcode Hv;
    match type of Hcode with
    | ?code = _ =>
        let c := eval vm_compute in code in
        match c with
        | String ?a (String "+" (String ?b EmptyString)) =>
            let a' := constr:(Z.of_nat (nat_of_ascii a) - 48) in
            let b' := constr:(Z.of_nat (nat_of_ascii b) - 48) in
            let a'' := eval vm_compute in a' in
            let b'' := eval vm_compute in b' in
            change code with (matchCodeOf a'' b'') in Hcode
        end
    end;
    apply matchCodeOf_inj in Hcode as [<- <-]; try lia;
    (repeat split; try lia; congruence).
Qed.

Lemma length_filter_le {A : Type} (f : A -> bool) (l : list A) :
  (List.length (filter f l) <= List.length l)%nat.
Proof.
  induction l as [|x l IH]; simpl; [lia |]. destruct (f x); simpl; lia.
Qed.

Lemma length_filter_all {A : Type} (f : A -> bool) (l : list A) :
  List.length (filter f l) = List.length l <-> forall x, In x l -> f x = true.
Proof.
  induction l as [|x l IH]; simpl; [tauto |].
  pose proof (length_filter_le f l) as Hle.
  destruct (f x) eqn:E; simpl; split.
  - intros H y [<- | Hy]; [exact E |]. apply IH; [lia | exact Hy].
  - intros H. f_equal. apply IH. intros y Hy. apply H. now right.
  - lia.
  - intros H. specialize (H x (or_introl eq_refl)). congruence.
Qed.

Lemma length_filter_none {A : Type} (f : A -> bool) (l : list A) :
  List.length (filter f l) = 0%nat <-> forall x, In x l -> f x = false.
Proof.
  induction l as [|x l IH]; simpl; [tauto |].
  destruct (f x) eqn:E; simpl; split.
  - discriminate.
  - intros H. specialize (H x (or_introl eq_refl)). congruence.
  - intros H y [<- | Hy]; [exact E |]. now apply IH.
  - intros H. apply IH. intros y Hy. apply H. now right.
Qed.

(** A winning result has a code of the table. *)
Lemma isWinner_counts (bet : Bet.t) (draw : Draw.t) :
  let r := checkBet bet draw in
  MatchResult.isWinner r = true ->
  3 <= MatchResult.numberMatchCount r + MatchResult.starMatchCount r
  /\ MatchResult.numberMatchCount r <= 5
  /\ MatchResult.starMatchCount r <= 2.
Proof.
  unfold checkBet. cbv zeta.
  cbn [MatchResult.isWinner MatchResult.numberMatchCount
       MatchResult.starMatchCount].
  set (n := Z.of_nat (List.length _)).
  set (s := Z.of_nat (List.length _)).
  assert (Hn : 0 <= n) by (subst n; lia).
  assert (Hs : 0 <= s) by (subst s; lia).
  intros Hwin.
  destruct (lookup (matchCodeOf n s) PRIZE_TIERS) as [v|] eqn:E.
  - apply lookup_In in E. apply (listed_code n s v Hn Hs) in E. tauto.
  - discriminate Hwin.
Qed.

(** The codes of three matches or more, of at most five numbers and two
    stars, are in the table. *)
Lemma counts_isWinner (bet : Bet.t) (draw : Draw.t) :
  let r := checkBet bet draw in
  3 <= MatchResult.numberMatchCount r + MatchResult.starMatchCount r ->
  MatchResult.numberMatchCount r <= 5 ->
  MatchResult.starMatchCount r <= 2 ->
  MatchResult.isWinner r = true.
Proof.
  unfold checkBet. cbv zeta.
  cbn [MatchResult.isWinner MatchResult.numberMatchCount
       MatchResult.starMatchCount].
  intros Hsum Hn5 Hs2. rewrite winner_code by lia.
  apply Z.leb_le. exact Hsum.
Qed.

(** A bet wins a prize exactly when it matches at most five numbers and at
    most two stars, three or more of them in all: the twelve codes of
    [PRIZE_TIERS] are these and no others. *)
Theorem checkBet_winner_iff (bet : Bet.t) (draw : Draw.t) :
  let r := checkBet bet draw in
  MatchResult.isWinner r = true
  <-> 3 <= MatchResult.numberMatchCount r + MatchResult.starMatchCount r
      /\ MatchResult.numberMatchCount r <= 5
      /\ MatchResult.starMatchCount r <= 2.
Proof.
  cbv zeta. split.
  - apply isWinner_counts.
  - intros (Hsum & Hn5 & Hs2). now apply counts_isWinner.
Qed.

Lemma checkBet_counts (bet : Bet.t) (draw : Draw.t) :
  let r := checkBet bet draw in
  0 <= MatchResult.numberMatchCount r <= Z.of_nat (List.length (Bet.numbers bet))
  /\ 0 <= MatchResult.starMatchCount r <= Z.of_nat (List.length (Bet.stars bet)).
Proof.
  unfold checkBet. cbv zeta.
  cbn [MatchResult.numberMatchCount MatchResult.starMatchCount].
  pose proof (length_filter_le (fun n => includes (Draw.numbers draw) n)
                (Bet.numbers bet)).
  pose proof (length_filter_le (fun s => includes (Draw.stars draw) s)
                (Bet.stars bet)).
  lia.
Qed.

(** Among bets of at most five numbers and two stars, every result with
    high potential is a winning one, so the high-potential results of a
    check are some of its winners. *)
Theorem hasHighPotential_winners (bets : list Bet.t) (draw : Draw.t) :
  Forall (fun bet => (List.length (Bet.numbers bet) <= 5)%nat
                     /\ (List.length (Bet.stars bet) <= 2)%nat) bets ->
  incl (filter hasHighPotential (checkAllBets bets draw))
       (filter MatchResult.isWinner (checkAllBets bets draw)).
Proof.
  intros Hall r Hr. apply filter_In in Hr as [Hin Hhigh].
  apply filter_In. split; [exact Hin |].
  unfold checkAllBets in Hin. apply in_map_iff in Hin as (bet & <- & Hbet).
  rewrite Forall_forall in Hall. destruct (Hall bet Hbet) as [H5 H2].
  destruct (checkBet_counts bet draw) as [Hn Hs]. cbv zeta in Hn, Hs.
  unfold hasHighPotential in Hhigh.
  apply orb_prop in Hhigh as [Hhigh | Hhigh].
  - apply Z.geb_le in Hhigh. apply counts_isWinner; lia.
  - apply andb_prop in Hhigh as [Hh1 Hh2].
    apply Z.geb_le in Hh1, Hh2. apply counts_isWinner; lia.
Qed.

Lemma hasHighPotential_winners_witness :
  incl (filter hasHighPotential
          (checkAllBets [Bet.mk "a" [1; 2; 3; 4; 11] [5; 6];
                         Bet.mk "b" [1; 2; 20; 21; 22] [1; 2]]
             (Draw.mk "2024-01-05" [1; 2; 3; 4; 5] [1; 2])))
       (filter MatchResult.isWinner
          (checkAllBets [Bet.mk "a" [1; 2; 3; 4; 11] [5; 6];
                         Bet.mk "b" [1; 2; 20; 21; 22] [1; 2]]
             (Draw.mk "2024-01-05" [1; 2; 3; 4; 5] [1; 2]))).
Proof.
  apply hasHighPotential_winners.
  repeat (apply Forall_cons; [simpl; lia |]). apply Forall_nil.
Defined.

(** A bet of five numbers and two stars is paid the jackpot exactly when
    each of its numbers and each of its stars is in the draw. *)
Theorem checkBet_jackpot_iff (bet : Bet.t) (draw : Draw.t) :
  List.length (Bet.numbers bet) = 5%nat ->
  List.length (Bet.stars bet) = 2%nat ->
  MatchResult.prize (checkBet bet draw) = "🏆 JACKPOT!"%string
  <-> (forall n, In n (Bet.numbers bet) -> In n (Draw.numbers draw))
      /\ (forall s, In s (Bet.stars bet) -> In s (Draw.stars draw)).
Proof.
  intros H5 H2.
  pose proof (length_filter_all (fun n => includes (Draw.numbers draw) n)
                (Bet.numbers bet)) as Hnum.
  pose proof (length_filter_all (fun s => includes (Draw.stars draw) s)
                (Bet.stars bet)) as Hstar.
  pose proof (length_filter_le (fun n => includes (Draw.numbers draw) n)
                (Bet.numbers bet)) as Hle1.
  pose proof (length_filter_le (fun s => includes (Draw.stars draw) s)
                (Bet.stars bet)) as Hle2.
  unfold checkBet. cbv zeta. cbn [MatchResult.prize].
  set (n := Z.of_nat (List.length
                        (filter (fun n => includes (Draw.numbers draw) n)
                                (Bet.numbers bet)))) in *.
  set (s := Z.of_nat (List.length
                        (filter (fun s => includes (Draw.stars draw) s)
                                (Bet.stars bet)))) in *.
  assert (Hn : 0 <= n) by (subst n; lia).
  assert (Hs : 0 <= s) by (subst s; lia).
  split.
  - intros Hprize.
    destruct (lookup (matchCodeOf n s) PRIZE_TIERS) as [v|] eqn:E;
      [| unfold orElse in Hprize; discriminate Hprize].
    apply lookup_In in E.
    destruct (PRIZE_TIERS_values _ _ E) as [Hne _].
    apply (listed_code n s v Hn Hs) in E as (_ & _ & _ & Hjack).
    unfold orElse in Hprize. apply String.eqb_neq in Hne.
    rewrite Hne in Hprize. destruct (Hjack Hprize) as [En Es].
    split; intros x Hx; apply includes_In.
    + apply Hnum; [subst n; lia | exact Hx].
    + apply Hstar; [subst s; lia | exact Hx].
  - intros [Hns Hss].
    assert (En : n = 5).
    { subst n. rewrite (proj2 Hnum); [lia |].
      intros x Hx. apply includes_In. now apply Hns. }
    assert (Es : s = 2).
    { subst s. rewrite (proj2 Hstar); [lia |].
      intros x Hx. apply includes_In. now apply Hss. }
    rewrite En, Es. reflexivity.
Qed.

Lemma checkBet_jackpot_iff_witness :
  MatchResult.prize
    (checkBet (Bet.mk "a" [5; 4; 3; 2; 1] [2; 1])
              (Draw.mk "2024-01-05" [1; 2; 3; 4; 5] [1; 2]))
  = "🏆 JACKPOT!"%string
  <-> (forall n, In n [5; 4; 3; 2; 1] -> In n [1; 2; 3; 4; 5])
      /\ (forall s, In s [2; 1] -> In s [1; 2]).
Proof.
  apply (checkBet_jackpot_iff (Bet.mk "a" [5; 4; 3; 2; 1] [2; 1])
           (Draw.mk "2024-01-05" [1; 2; 3; 4; 5] [1; 2]));
    reflexivity.
Defined.

Lemma string_of_N_head (n : N) :
  exists c rest, Js.string_of_N n = String c rest /\ is_digit c = true.
Proof.
  destruct (string_of_N_digits n) as [Hd Hne].
  destruct (Js.string_of_N n) as [|c rest]; [congruence |].
  exists c, rest. split; [reflexivity |].
  simpl in Hd. now apply andb_prop in Hd.
Qed.

(** The summary of a checked bet reads "No matches" exactly when none of
    the bet's numbers and none of its stars is in the draw. *)
Theorem getMatchSummary_no_matches (bet : Bet.t) (draw : Draw.t) :
  getMatchSummary (checkBet bet draw) = "No matches"%string
  <-> (forall n, In n (Bet.numbers bet) -> ~ In n (Draw.numbers draw))
      /\ (forall s, In s (Bet.stars bet) -> ~ In s (Draw.stars draw)).
Proof.
  pose proof (isWinner_counts bet draw) as Hwin. cbv zeta in Hwin.
  pose proof (length_filter_none (fun n => includes (Draw.numbers draw) n)
                (Bet.numbers bet)) as Hnum.
  pose proof (length_filter_none (fun s => includes (Draw.stars draw) s)
                (Bet.stars bet)) as Hstar.
  unfold getMatchSummary.
  destruct (MatchResult.isWinner (checkBet bet draw)) eqn:Ew.
  - specialize (Hwin eq_refl). clear Ew.
    rename Hwin into Ew. revert Ew. unfold checkBet. cbv zeta.
    cbn [MatchResult.numberMatchCount MatchResult.starMatchCount].
    intros Ew. split; [discriminate |].
    intros [Hn Hs]. exfalso.
    rewrite (proj2 Hnum) in Ew
      by (intros x Hx; apply includes_false; now apply Hn).
    rewrite (proj2 Hstar) in Ew
      by (intros x Hx; apply includes_false; now apply Hs).
    simpl in Ew. lia.
  - clear Hwin Ew. unfold checkBet. cbv zeta.
    cbn [MatchResult.numberMatchCount MatchResult.starMatchCount
         MatchResult.matchCode].
    set (n := List.length (filter (fun n => includes (Draw.numbers draw) n)
                                  (Bet.numbers bet))) in *.
    set (s := List.length (filter (fun s => includes (Draw.stars draw) s)
                                  (Bet.stars bet))) in *.
    destruct ((Z.of_nat n >? 0) || (Z.of_nat s >? 0)) eqn:E.
    + split.
      * unfold matchCodeOf.
        destruct (string_of_N_head (Z.to_N (Z.of_nat n)))
          as (c & rest & -> & Hc).
        simpl. intros [= -> _]. discriminate Hc.
      * intros [Hn Hs]. exfalso.
        assert (n = 0%nat).
        { apply Hnum. intros x Hx. apply includes_false. now apply Hn. }
        assert (s = 0%nat).
        { apply Hstar. intros x Hx. apply includes_false. now apply Hs. }
        apply orb_prop in E as [E | E]; apply Z.gtb_lt in E; lia.
    + apply orb_false_elim in E as [E1 E2].
      split; [| reflexivity]. intros _.
      assert (n = 0%nat)
        by (destruct (Z.gtb_spec (Z.of_nat n) 0); [discriminate | lia]).
      assert (s = 0%nat)
        by (destruct (Z.gtb_spec (Z.of_nat s) 0); [discriminate | lia]).
      split; intros x Hx; apply includes_false;
        [apply (proj1 Hnum) | apply (proj1 Hstar)]; assumption.
Qed.

(** The head of a descending stable sort is the first element of the
    largest key. *)
Lemma sort_descendingBy_head {A : Type} (key : A -> Z) (l : list A)
    (top : A) (rest : list A) :
  sort (descendingBy key) l = top :: rest ->
  exists before after,
    l = before ++ top :: after
    /\ (forall x, In x before -> key x < key top)
    /\ (forall x, In x after -> key x <= key top).
Proof.
  revert top rest. induction l as [|x l IH]; intros top rest; simpl;
    [discriminate |].
  destruct (sort (descendingBy key) l) as [|y r] eqn:E.
  - assert (l = []) as ->.
    { apply (f_equal (@List.length A)) in E. rewrite sort_length in E.
      now destruct l. }
    simpl. intros [= <- <-]. exists [], []. repeat split; intros ? [].
  - destruct (IH y r eq_refl) as (before & after & Hl & Hb & Ha).
    simpl. unfold descendingBy at 1.
    destruct (Z.compare_spec (key y - key x) 0) as [Hc | Hc | Hc];
      intros [= <- <-].
    + exists [], l. split; [reflexivity |]. split; [intros ? [] |].
      intros z Hz. rewrite Hl in Hz. apply in_app_or in Hz as [Hz | [<- | Hz]].
      * specialize (Hb z Hz). lia.
      * lia.
      * specialize (Ha z Hz). lia.
    + exists [], l. split; [reflexivity |]. split; [intros ? [] |].
      intros z Hz. rewrite Hl in Hz. apply in_app_or in Hz as [Hz | [<- | Hz]].
      * specialize (Hb z Hz). lia.
      * lia.
      * specialize (Ha z Hz). lia.
    + exists (x :: before), after. split; [now rewrite Hl |].
      split; [| exact Ha].
      intros z [<- | Hz]; [lia | now apply Hb].
Qed.

Lemma findClosestBet_Some (bets : list Bet.t) (draw : Draw.t)
    (r : MatchResult.t) :
  findClosestBet bets draw = Some r ->
  exists before after,
    checkAllBets bets draw = before ++ r :: after
    /\ (forall x, In x before -> closeness x < closeness r)
    /\ (forall x, In x after -> closeness x <= closeness r).
Proof.
  unfold findClosestBet.
  destruct (List.length bets =? 0)%nat; [discriminate |]. cbv zeta.
  destruct (sort (descendingBy closeness) (checkAllBets bets draw))
    as [|top rest] eqn:E; [discriminate |].
  simpl. intros [= <-]. now apply sort_descendingBy_head in E.
Qed.

(** The closest bet is the first of the bets, in the order they were
    given, whose closeness no other bet exceeds: every earlier bet is
    strictly less close, no later bet is closer. *)
Theorem findClosestBet_first_of_best (bets : list Bet.t) (draw : Draw.t)
    (r : MatchResult.t) :
  findClosestBet bets draw = Some r ->
  exists earlier bet later,
    bets = earlier ++ bet :: later
    /\ r = checkBet bet draw
    /\ (forall b, In b earlier ->
                  closeness (checkBet b draw) < closeness r)
    /\ (forall b, In b later ->
                  closeness (checkBet b draw) <= closeness r).
Proof.
  intros Hr.
  apply findClosestBet_Some in Hr as (before & after & Hl & Hb & Ha).
  unfold checkAllBets in Hl.
  apply map_eq_app in Hl as (earlier & tl & -> & <- & Htl).
  apply map_eq_cons in Htl as (bet & later & -> & <- & <-).
  exists earlier, bet, later. split; [reflexivity |]. split; [reflexivity |].
  split; intros b Hb'; [apply Hb | apply Ha]; apply in_map_iff; now exists b.
Qed.

Lemma findClosestBet_first_of_best_witness :
  exists earlier bet later,
    [Bet.mk "a" [1; 2; 3; 9; 10] [1; 2]; Bet.mk "b" [1; 2; 3; 4; 11] [5; 6];
     Bet.mk "c" [2; 3; 4; 5; 12] [7; 8]]
    = earlier ++ bet :: later
    /\ checkBet (Bet.mk "b" [1; 2; 3; 4; 11] [5; 6])
         (Draw.mk "2024-01-05" [1; 2; 3; 4; 5] [1; 2])
       = checkBet bet (Draw.mk "2024-01-05" [1; 2; 3; 4; 5] [1; 2]).
Proof.
  destruct (findClosestBet_first_of_best
              [Bet.mk "a" [1; 2; 3; 9; 10] [1; 2];
               Bet.mk "b" [1; 2; 3; 4; 11] [5; 6];
               Bet.mk "c" [2; 3; 4; 5; 12] [7; 8]]
              (Draw.mk "2024-01-05" [1; 2; 3; 4; 5] [1; 2])
              (checkBet (Bet.mk "b" [1; 2; 3; 4; 11] [5; 6])
                 (Draw.mk "2024-01-05" [1; 2; 3; 4; 5] [1; 2])))
    as (earlier & bet & later & Hl & Hr & _).
  - vm_compute. reflexivity.
  - exists earlier, bet, later. split; assumption.
Defined.

(** When the bets hold at most nine stars each, the closest bet matches
    the most numbers, and among the bets that match as many numbers the
    most stars; if some bet has high potential, so has the closest. *)
Theorem findClosestBet_most_numbers (bets : list Bet.t) (draw : Draw.t)
    (r : MatchResult.t) :
  Forall (fun bet => (List.length (Bet.stars bet) <= 9)%nat) bets ->
  findClosestBet bets draw = Some r ->
  (forall b, In b bets ->
     let r' := checkBet b draw in
     MatchResult.numberMatchCount r' < MatchResult.numberMatchCount r
     \/ (MatchResult.numberMatchCount r' = MatchResult.numberMatchCount r
         /\ MatchResult.starMatchCount r' <= MatchResult.starMatchCount r))
  /\ ((exists b, In b bets /\ hasHighPotential (checkBet b draw) = true) ->
      hasHighPotential r = true).
Proof.
  intros Hall Hr. rewrite Forall_forall in Hall.
  apply findClosestBet_Some in Hr as (before & after & Hl & Hb & Ha).
  assert (Hmax : forall b, In b bets ->
                   closeness (checkBet b draw) <= closeness r).
  { intros b Hb'.
    assert (Hin : In (checkBet b draw) (checkAllBets bets draw))
      by (apply in_map_iff; now exists b).
    rewrite Hl in Hin. apply in_app_or in Hin as [Hin | [<- | Hin]].
    - specialize (Hb _ Hin). lia.
    - lia.
    - now apply Ha. }
  assert (Hin : In r (checkAllBets bets draw))
    by (rewrite Hl; apply in_or_app; right; now left).
  apply in_map_iff in Hin as (bet & <- & Hbet).
  clear before after Hl Hb Ha.
  assert (Hlex : forall b, In b bets ->
     let r' := checkBet b draw in
     MatchResult.numberMatchCount r'
       < MatchResult.numberMatchCount (checkBet bet draw)
     \/ (MatchResult.numberMatchCount r'
           = MatchResult.numberMatchCount (checkBet bet draw)
         /\ MatchResult.starMatchCount r'
              <= MatchResult.starMatchCount (checkBet bet draw))).
  { intros b Hb r'. subst r'.
    specialize (Hmax b Hb). unfold closeness in Hmax.
    destruct (checkBet_counts b draw) as [Hn Hs].
    destruct (checkBet_counts bet draw) as [Hn' Hs'].
    cbv zeta in Hn, Hs, Hn', Hs'.
    pose proof (Hall b Hb). pose proof (Hall bet Hbet). lia. }
  split; [exact Hlex |].
  intros (b & Hb & Hhigh). specialize (Hlex b Hb). cbv zeta in Hlex.
  unfold hasHighPotential in *.
  apply orb_prop in Hhigh as [Hhigh | Hhigh].
  - apply Z.geb_le in Hhigh. apply orb_true_intro. left.
    apply Z.geb_le. lia.
  - apply andb_prop in Hhigh as [Hh1 Hh2]. apply Z.geb_le in Hh1, Hh2.
    destruct (Z.leb_spec 4 (MatchResult.numberMatchCount (checkBet bet draw))).
    + apply orb_true_intro. left. apply Z.geb_le. lia.
    + apply orb_true_intro. right. apply andb_true_intro.
      split; apply Z.geb_le; lia.
Qed.

Lemma findClosestBet_most_numbers_witness :
  hasHighPotential
    (checkBet (Bet.mk "b" [1; 2; 3; 4; 11] [5; 6])
       (Draw.mk "2024-01-05" [1; 2; 3; 4; 5] [1; 2])) = true.
Proof.
  refine (proj2 (findClosestBet_most_numbers
                   [Bet.mk "a" [1; 2; 3; 9; 10] [1; 2];
                    Bet.mk "b" [1; 2; 3; 4; 11] [5; 6]]
                   (Draw.mk "2024-01-05" [1; 2; 3; 4; 5] [1; 2])
                   (checkBet (Bet.mk "b" [1; 2; 3; 4; 11] [5; 6])
                      (Draw.mk "2024-01-05" [1; 2; 3; 4; 5] [1; 2])) _ _) _).
  - repeat (apply Forall_cons; [simpl; lia |]). apply Forall_nil.
  - vm_compute. reflexivity.
  - exists (Bet.mk "a" [1; 2; 3; 9; 10] [1; 2]).
    split; [left; reflexivity | vm_compute; reflexivity].
Defined.

(** ** Ties of a stable sort *)

Lemma insertSorted_keyThenIndex {A : Type} (key index : A -> Z) (x : A)
    (l : list A) :
  (forall y, In y l -> index x < index y) ->
  StronglySorted (keyThenIndex key index) l ->
  StronglySorted (keyThenIndex key index)
    (insertSorted (descendingBy key) x l).
Proof.
  intros Hx Hs. induction Hs as [|y l Hs IH Hy]; simpl.
  - constructor; constructor.
  - unfold descendingBy at 1.
    rewrite Forall_forall in Hy.
    destruct (Z.compare_spec (key y - key x) 0) as [Hc | Hc | Hc].
    + constructor; [now constructor; [| apply Forall_forall] |].
      apply Forall_forall. intros z [<- | Hz].
      * right. split; [lia |]. apply Hx. now left.
      * pose proof (Hx z (or_intror Hz)). specialize (Hy z Hz).
        unfold keyThenIndex in *. lia.
    + constructor; [now constructor; [| apply Forall_forall] |].
      apply Forall_forall. intros z [<- | Hz].
      * left. lia.
      * pose proof (Hx z (or_intror Hz)). specialize (Hy z Hz).
        unfold keyThenIndex in *. lia.
    + constructor.
      * apply IH. intros z Hz. apply Hx. now right.
      * apply Forall_forall. intros z Hz.
        apply (Permutation_in _ (insertSorted_perm _ x l)) in Hz.
        destruct Hz as [<- | Hz]; [left; lia | now apply Hy].
Qed.

(** Sorting by descending key a list that ascends in an index leaves
    the elements of equal key in ascending index. *)
Lemma sort_keyThenIndex {A : Type} (key index : A -> Z) (l : list A) :
  StronglySorted (fun a b => index a < index b) l ->
  StronglySorted (keyThenIndex key index) (sort (descendingBy key) l).
Proof.
  induction 1 as [|x l Hs IH Hx]; simpl; [constructor |].
  apply insertSorted_keyThenIndex; [| exact IH].
  rewrite Forall_forall in Hx. intros y Hy. apply Hx.
  now apply sort_In in Hy.
Qed.

Lemma range1_ascending (max : nat) : StronglySorted Z.lt (range1 max).
Proof.
  unfold range1. generalize 1%nat.
  induction max as [|k IH]; intros start; simpl; constructor.
  - apply IH.
  - apply Forall_forall. intros y Hy. apply in_map_iff in Hy as (j & <- & Hj).
    apply in_seq in Hj. lia.
Qed.

Lemma map_range1_ascending {A : Type} (f : Z -> A) (index : A -> Z)
    (max : nat) :
  (forall k, index (f k) = k) ->
  StronglySorted (fun a b => index a < index b) (map f (range1 max)).
Proof.
  intros Hf. induction (range1_ascending max) as [|k l Hs IH Hk]; simpl;
    constructor.
  - exact IH.
  - apply Forall_forall. intros y Hy. apply in_map_iff in Hy as (j & <- & Hj).
    rewrite !Hf. rewrite Forall_forall in Hk. now apply Hk.
Qed.

(** ** probabilityScoring.ts: the ranking and the component scores *)

(** The list of probabilities holds the probability of each number of the
    pool once, by descending total score; numbers of the same total score
    stand in ascending order. *)
Theorem getAllNumberProbabilities_ranking (draws : list Draw.t)
    (type : PoolType) :
  let probs := getAllNumberProbabilities draws type in
  Permutation probs
    (map (fun i => calculateNumberProbability i draws type)
         (range1 (maxNumber type)))
  /\ StronglySorted
       (keyThenIndex NumberProbability.totalScore NumberProbability.number)
       probs.
Proof.
  unfold getAllNumberProbabilities. cbv zeta. split.
  - apply sort_perm.
  - apply sort_keyThenIndex. apply map_range1_ascending. reflexivity.
Qed.

Lemma countIncluding_filterCount_from (type : PoolType) (n : Z)
    (draws : list Draw.t) (c : Z) :
  fold_left (fun c d => if includes (poolOf type d) n then c + 1 else c)
            draws c
  = c + filterCount type n draws.
Proof.
  unfold filterCount. revert c.
  induction draws as [|d draws IH]; intros c; simpl; [lia |].
  rewrite IH. destruct (includes (poolOf type d) n); simpl List.length; lia.
Qed.

Lemma countIncluding_filterCount (type : PoolType) (n : Z)
    (draws : list Draw.t) :
  countIncluding type n draws = filterCount type n draws.
Proof.
  unfold countIncluding. now rewrite countIncluding_filterCount_from.
Qed.

Lemma filterCount_bounds (type : PoolType) (n : Z) (draws : list Draw.t) :
  0 <= filterCount type n draws <= Z.of_nat (List.length draws).
Proof.
  unfold filterCount.
  pose proof (length_filter_le (fun d => includes (poolOf type d) n) draws).
  lia.
Qed.

Lemma filterCount_app (type : PoolType) (n : Z) (l l' : list Draw.t) :
  filterCount type n (l ++ l') = filterCount type n l + filterCount type n l'.
Proof. unfold filterCount. rewrite filter_app, length_app. lia. Qed.

Lemma filterCount_absent (type : PoolType) (n : Z) (draws : list Draw.t) :
  (forall d, In d draws -> ~ In n (poolOf type d)) ->
  filterCount type n draws = 0.
Proof.
  intros Habs. unfold filterCount.
  rewrite (proj2 (length_filter_none _ draws)); [reflexivity |].
  intros d Hd. apply includes_false. now apply Habs.
Qed.

Lemma firstn_20_split {A : Type} (l : list A) :
  firstn 20 l = firstn 10 l ++ skipn 10 (firstn 20 l).
Proof.
  rewrite <- (firstn_skipn 10 (firstn 20 l)) at 1.
  now rewrite firstn_firstn.
Qed.

(** The comparison of the two rates, made on doubles, agrees with the
    comparison of the two counts. *)
Lemma rate_comparison (recent mid : Z) :
  0 <= recent <= 10 -> 0 <= mid <= 20 ->
  Js.gtb (Js.div (Js.of_Z recent) (Js.of_Z 10))
         (Js.div (Js.of_Z mid) (Js.of_Z 20))
  = (mid <? 2 * recent).
Proof.
  intros Hr Hm.
  pose proof (forall_range
    (fun r => forallb
       (fun m => Bool.eqb
          (Js.gtb (Js.div (Js.of_Z r) (Js.of_Z 10))
                  (Js.div (Js.of_Z m) (Js.of_Z 20)))
          (m <? 2 * r))
       (map (fun k => 0 + Z.of_nat k) (seq 0 21)))
    0 11 ltac:(vm_compute; reflexivity) recent ltac:(lia)) as H.
  cbv beta in H.
  pose proof (forall_range _ 0 21 H mid ltac:(lia)) as H'.
  cbv beta in H'. now apply eqb_prop in H'.
Qed.

(** The hot/cold score in terms of two counts: the draws, among the ten
    most recent, that hold the number, and those among the ten before
    them. It is 30 when the number is in three or more of the recent ten
    and in more of them than of the ten before; otherwise 25 for two or
    more recent appearances, 20 for one; with none, 22 when the ten before
    hold it twice or more and 15 when not. *)
Theorem calculateHotColdScore_counts (n : Z) (draws : list Draw.t)
    (type : PoolType) :
  let recent := filterCount type n (firstn 10 draws) in
  let before := filterCount type n (skipn 10 (firstn 20 draws)) in
  calculateHotColdScore n draws type
  = if (3 <=? recent) && (before <? recent) then 30
    else if 2 <=? recent then 25
    else if recent =? 1 then 20
    else if 2 <=? before then 22
    else 15.
Proof.
  intros recent before. unfold calculateHotColdScore. cbv zeta.
  rewrite !countIncluding_filterCount.
  assert (Hmid : filterCount type n (firstn 20 draws) = recent + before).
  { rewrite (firstn_20_split draws). apply filterCount_app. }
  rewrite Hmid. fold recent.
  assert (Hr : 0 <= recent <= 10).
  { pose proof (filterCount_bounds type n (firstn 10 draws)) as H.
    pose proof (firstn_le_length 10 draws). fold recent in H. lia. }
  assert (Hb : 0 <= before <= 10).
  { pose proof (filterCount_bounds type n (skipn 10 (firstn 20 draws))) as H.
    rewrite length_skipn in H.
    pose proof (firstn_le_length 20 draws). fold before in H. lia. }
  destruct (Z.leb_spec 3 recent) as [H3 | H3].
  - assert (Hlen : (0 <? Z.of_nat (List.length (firstn 20 draws))) = true).
    { apply Z.ltb_lt.
      pose proof (filterCount_bounds type n (firstn 10 draws)) as H.
      fold recent in H. rewrite length_firstn in *. lia. }
    rewrite Hlen. rewrite rate_comparison by lia.
    replace (3 <=? recent) with true by (symmetry; apply Z.leb_le; lia).
    replace (recent >=? 3) with true by (symmetry; apply Z.geb_le; lia).
    replace (recent >=? 2) with true by (symmetry; apply Z.geb_le; lia).
    replace (2 <=? recent) with true by (symmetry; apply Z.leb_le; lia).
    replace (recent + before <? 2 * recent) with (before <? recent);
      [reflexivity |].
    destruct (Z.ltb_spec before recent), (Z.ltb_spec (recent + before) (2 * recent));
      try reflexivity; lia.
  - replace (recent >=? 3) with false
      by (symmetry; destruct (Z.geb_spec recent 3); [lia | reflexivity]).
    cbn [andb].
    destruct (Z.leb_spec 2 recent) as [H2 | H2].
    + now replace (recent >=? 2) with true by (symmetry; apply Z.geb_le; lia).
    + replace (recent >=? 2) with false
        by (symmetry; destruct (Z.geb_spec recent 2); [lia | reflexivity]).
      destruct (Z.eqb_spec recent 1) as [H1 | H1]; [reflexivity |].
      assert (recent = 0) as -> by lia. cbn [Z.eqb andb Z.add].
      destruct (Z.geb_spec before 2), (Z.leb_spec 2 before);
        try reflexivity; lia.
Qed.

Lemma frequencyBand_zero_ratio (expected : Js.number) :
  frequencyBand (if Js.gtb expected (Js.of_Z 0)
                 then Js.div (Js.of_Z 0) expected
                 else Js.of_Z 0) = 20.
Proof.
  destruct expected as [s | s | | s m e]; try destruct s; reflexivity.
Qed.

(** A number that no draw of the history holds, as on the empty history:
    its frequency score is 20, its hot/cold score 15, its overdue score
    10, so that its total is 45 more than its pattern score. *)
Theorem calculateNumberProbability_never_drawn (n : Z) (draws : list Draw.t)
    (type : PoolType) :
  (forall d, In d draws -> ~ In n (poolOf type d)) ->
  let p := calculateNumberProbability n draws type in
  NumberProbability.frequencyScore p = 20
  /\ NumberProbability.hotColdScore p = 15
  /\ NumberProbability.overdueScore p = 10
  /\ NumberProbability.totalScore p = 45 + calculatePatternScore n type.
Proof.
  intros Habs.
  assert (Hfreq : calculateFrequencyScore n draws type = 20).
  { unfold calculateFrequencyScore. cbv zeta.
    rewrite countIncluding_filterCount, (filterCount_absent _ _ _ Habs).
    apply frequencyBand_zero_ratio. }
  assert (Hhot : calculateHotColdScore n draws type = 15).
  { unfold calculateHotColdScore. cbv zeta.
    rewrite !countIncluding_filterCount.
    rewrite !filterCount_absent
      by (intros d Hd; apply Habs; exact (firstn_incl _ draws d Hd)).
    reflexivity. }
  assert (Hover : calculateOverdueScore n draws type = 10).
  { unfold calculateOverdueScore. cbv zeta.
    now rewrite (findLastSeen_absent type n 0 draws Habs). }
  unfold calculateNumberProbability. cbv zeta.
  cbn [NumberProbability.frequencyScore NumberProbability.hotColdScore
       NumberProbability.overdueScore NumberProbability.totalScore].
  rewrite Hfreq, Hhot, Hover. repeat split. lia.
Qed.

Lemma calculateNumberProbability_never_drawn_witness :
  NumberProbability.totalScore
    (calculateNumberProbability 7
       [Draw.mk "2024-01-05" [1; 2; 3; 4; 5] [1; 2]] TNumbers)
  = 45 + calculatePatternScore 7 TNumbers.
Proof.
  refine (proj2 (proj2 (proj2
    (calculateNumberProbability_never_drawn 7
       [Draw.mk "2024-01-05" [1; 2; 3; 4; 5] [1; 2]] TNumbers _)))).
  intros d [<- | []]. simpl. lia.
Defined.

(** The score of a combination of five numbers and two stars is a whole
    number of tenths between 0 and 100. *)
Theorem scoreCombination_one_decimal (numbers stars : list Z)
    (draws : list Draw.t) :
  List.length numbers = 5%nat -> List.length stars = 2%nat ->
  exists t, 0 <= t <= 1000
    /\ CombinationScore.probabilityScore (scoreCombination numbers stars draws)
       = Js.div (Js.of_Z t) (Js.of_Z 10).
Proof. apply scoreCombination_tenths. Qed.

Lemma scoreCombination_one_decimal_witness :
  exists t, 0 <= t <= 1000
    /\ CombinationScore.probabilityScore
         (scoreCombination [1; 2; 3; 4; 5] [1; 2] [])
       = Js.div (Js.of_Z t) (Js.of_Z 10).
Proof.
  apply (scoreCombination_one_decimal [1; 2; 3; 4; 5] [1; 2] []);
    reflexivity.
Defined.

(** ** hotColdAnalysis.ts: the six views *)

(** The value that both analyses report for the absence of a number: the
    index of the first draw that holds it, or the length of the history. *)
Lemma findLastSeen_streak (type : PoolType) (n : Z) (draws : list Draw.t)
    (i : Z) (k : nat) :
  0 <= i ->
  let seen := findLastSeen type n i draws in
  i + Z.of_nat k
    <= (if seen =? -1 then i + Z.of_nat (List.length draws) else seen)
  <-> (k <= List.length draws)%nat
      /\ forall d, In d (firstn k draws) -> ~ In n (poolOf type d).
Proof.
  revert i k. induction draws as [|d rest IH]; intros i k Hi; cbv zeta.
  - simpl. rewrite firstn_nil. split.
    + intros H. split; [lia | intros ? []].
    + intros [H _]. lia.
  - cbn [findLastSeen].
    destruct (includes (poolOf type d) n) eqn:E.
    + apply includes_In in E.
      destruct (Z.eqb_spec i (-1)) as [-> | _]; [lia |].
      destruct k as [|k]; simpl.
      * split; [intros _; split; [lia | intros ? []] | lia].
      * split; [lia |]. intros [_ H]. exfalso. apply (H d); [now left | exact E].
    + apply includes_false in E.
      specialize (IH (i + 1)). cbv zeta in IH.
      replace (i + Z.of_nat (List.length (d :: rest)))
        with (i + 1 + Z.of_nat (List.length rest))
        by (cbn [List.length]; lia).
      destruct k as [|k].
      * pose proof (proj2 (IH 0%nat ltac:(lia))) as H0.
        simpl. split; [intros _; split; [lia | intros ? []] |].
        intros _. cbn [firstn] in H0.
        specialize (H0 (conj (Nat.le_0_l _) (fun d (H : In d []) => match H with end))).
        lia.
      * replace (i + Z.of_nat (S k)) with (i + 1 + Z.of_nat k) by lia.
        rewrite (IH k) by lia. cbn [firstn List.length]. split.
        -- intros [Hk Habs]. split; [lia |].
           intros d' [<- | Hd']; [exact E | now apply Habs].
        -- intros [Hk Habs]. split; [lia |].
           intros d' Hd'. apply Habs. now right.
Qed.

Lemma streak_ge (draws : list Draw.t) (type : PoolType) (n : Z) (k : nat) :
  Z.of_nat k <= HotColdNumber.streak (analyzeNumber draws type n)
  <-> (k <= List.length draws)%nat
      /\ forall d, In d (firstn k draws) -> ~ In n (poolOf type d).
Proof.
  unfold analyzeNumber. cbv zeta. cbn [HotColdNumber.streak].
  pose proof (findLastSeen_streak type n draws 0 k ltac:(lia)) as H.
  cbv zeta in H. exact H.
Qed.

Lemma streak_bounds (draws : list Draw.t) (type : PoolType) (n : Z) :
  0 <= HotColdNumber.streak (analyzeNumber draws type n)
    <= Z.of_nat (List.length draws).
Proof.
  split.
  - apply (streak_ge draws type n 0). split; [lia | intros ? []].
  - destruct (Z.le_gt_cases
                (HotColdNumber.streak (analyzeNumber draws type n))
                (Z.of_nat (List.length draws))) as [H | H]; [exact H |].
    assert (H' : Z.of_nat (S (List.length draws))
                 <= HotColdNumber.streak (analyzeNumber draws type n)) by lia.
    apply streak_ge in H' as [H' _]. lia.
Qed.

Lemma appearances_eq (draws : list Draw.t) (type : PoolType) (n : Z) :
  HotColdNumber.appearances (analyzeNumber draws type n)
  = filterCount type n (firstn 10 draws).
Proof. reflexivity. Qed.

Lemma appearances_bounds (draws : list Draw.t) (type : PoolType) (n : Z) :
  0 <= HotColdNumber.appearances (analyzeNumber draws type n) <= 10
  /\ HotColdNumber.appearances (analyzeNumber draws type n)
     <= Z.of_nat (List.length draws).
Proof.
  rewrite appearances_eq.
  pose proof (filterCount_bounds type n (firstn 10 draws)) as H.
  rewrite length_firstn in H. lia.
Qed.

Lemma isHot_appearances (draws : list Draw.t) (type : PoolType) (n : Z) :
  isHot (analyzeNumber draws type n) = true ->
  match type with TNumbers => 3 | TStars => 4 end
  <= HotColdNumber.appearances (analyzeNumber draws type n).
Proof.
  unfold isHot, analyzeNumber. cbv zeta.
  cbn [HotColdNumber.streakType HotColdNumber.appearances].
  destruct (Z.geb_spec (filterCount type n (firstn 10 draws))
              (match type with TNumbers => 3 | TStars => 4 end)) as [H | H].
  - intros _. exact H.
  - destruct (findLastSeen type n 0 draws >? 7); discriminate.
Qed.

Lemma isCold_streak (draws : list Draw.t) (type : PoolType) (n : Z) :
  isCold (analyzeNumber draws type n) = true ->
  7 < HotColdNumber.streak (analyzeNumber draws type n).
Proof.
  unfold isCold, analyzeNumber. cbv zeta.
  cbn [HotColdNumber.streakType HotColdNumber.streak].
  destruct (filterCount type n (firstn 10 draws) >=? _); [discriminate |].
  destruct (Z.gtb_spec (findLastSeen type n 0 draws) 7) as [H | H];
    [| discriminate].
  intros _. destruct (Z.eqb_spec (findLastSeen type n 0 draws) (-1)); lia.
Qed.

Lemma analyzeTemperature_In (allNumbers : list Z) (draws : list Draw.t)
    (type : PoolType) (max : Z) (e : HotColdNumber.t) :
  In e (analyzeTemperature allNumbers draws type max)
  <-> 1 <= HotColdNumber.number e <= Z.of_nat (Z.to_nat max)
      /\ e = analyzeNumber draws type (HotColdNumber.number e).
Proof.
  unfold analyzeTemperature. cbv zeta. rewrite sort_In, in_map_iff. split.
  - intros (k & <- & Hk). apply range1_In in Hk. now split.
  - intros [Hk He]. exists (HotColdNumber.number e).
    split; [now symmetry | now apply range1_In].
Qed.

(** The numbers of a view of the analysis: those of the pool whose entry
    passes the test of the view. *)
Lemma view_In (draws : list Draw.t) (type : PoolType) (max : Z)
    (test : HotColdNumber.t -> bool) (n : Z) :
  In n (map HotColdNumber.number
          (filter test (analyzeTemperature [] draws type max)))
  <-> 1 <= n <= Z.of_nat (Z.to_nat max)
      /\ test (analyzeNumber draws type n) = true.
Proof.
  rewrite in_map_iff. split.
  - intros (e & <- & He). apply filter_In in He as [He Ht].
    apply analyzeTemperature_In in He as [Hk He]. rewrite <- He. now split.
  - intros [Hn Ht]. exists (analyzeNumber draws type n).
    split; [reflexivity |]. apply filter_In. split; [| exact Ht].
    apply analyzeTemperature_In. now split.
Qed.

Lemma streak_gtb (draws : list Draw.t) (type : PoolType) (n : Z) (k : nat) :
  (HotColdNumber.streak (analyzeNumber draws type n) >? Z.of_nat k) = true
  <-> (S k <= List.length draws)%nat
      /\ forall d, In d (firstn (S k) draws) -> ~ In n (poolOf type d).
Proof.
  rewrite <- streak_ge.
  destruct (Z.gtb_spec (HotColdNumber.streak (analyzeNumber draws type n))
              (Z.of_nat k)); split; try lia; discriminate.
Qed.

Lemma cold_test (draws : list Draw.t) (type : PoolType) (n : Z) (k : nat) :
  (k <= 7)%nat ->
  isCold (analyzeNumber draws type n)
  || (HotColdNumber.streak (analyzeNumber draws type n) >? Z.of_nat k) = true
  <-> (S k <= List.length draws)%nat
      /\ forall d, In d (firstn (S k) draws) -> ~ In n (poolOf type d).
Proof.
  intros Hk. rewrite <- streak_gtb. split; [| intros ->; apply orb_true_r].
  intros H. apply orb_prop in H as [H | H]; [| exact H].
  apply isCold_streak in H. apply Z.gtb_lt. lia.
Qed.

Lemma hot_test (draws : list Draw.t) (type : PoolType) (n : Z) (k : Z) :
  k <= match type with TNumbers => 3 | TStars => 4 end ->
  isHot (analyzeNumber draws type n)
  || (HotColdNumber.appearances (analyzeNumber draws type n) >=? k) = true
  <-> k <= filterCount type n (firstn 10 draws).
Proof.
  intros Hk. rewrite <- appearances_eq. split.
  - intros H. apply orb_prop in H as [H | H].
    + apply isHot_appearances in H. lia.
    + now apply Z.geb_le.
  - intros H. apply orb_true_intro. right. now apply Z.geb_le.
Qed.

(** A number is listed as hot exactly when it is in three or more of the
    ten most recent draws, a star when it is in four or more. *)
Theorem hot_views (draws : list Draw.t) (n : Z) :
  (In n (map HotColdNumber.number (getHotNumbers draws))
   <-> 1 <= n <= 50 /\ 3 <= filterCount TNumbers n (firstn 10 draws))
  /\ (In n (map HotColdNumber.number (getHotStars draws))
      <-> 1 <= n <= 12 /\ 4 <= filterCount TStars n (firstn 10 draws)).
Proof.
  unfold getHotNumbers, getHotStars. rewrite !view_In.
  rewrite (hot_test draws TNumbers n 3) by lia.
  rewrite (hot_test draws TStars n 4) by lia.
  simpl Z.to_nat. split; split; intros [H1 H2]; (split; [lia | exact H2]).
Qed.

(** A number is listed as cold exactly when the history has six draws or
    more and none of the six most recent holds it; a star, when the
    history has four draws or more and none of the four most recent holds
    it. *)
Theorem cold_views (draws : list Draw.t) (n : Z) :
  (In n (map HotColdNumber.number (getColdNumbers draws))
   <-> 1 <= n <= 50 /\ (6 <= List.length draws)%nat
       /\ forall d, In d (firstn 6 draws) -> ~ In n (Draw.numbers d))
  /\ (In n (map HotColdNumber.number (getColdStars draws))
      <-> 1 <= n <= 12 /\ (4 <= List.length draws)%nat
          /\ forall d, In d (firstn 4 draws) -> ~ In n (Draw.stars d)).
Proof.
  unfold getColdNumbers, getColdStars. rewrite !view_In.
  change 5 with (Z.of_nat 5). change 3 with (Z.of_nat 3).
  rewrite (cold_test draws TNumbers n 5) by lia.
  rewrite (cold_test draws TStars n 3) by lia.
  simpl Z.to_nat. simpl poolOf.
  split; split; intros [H1 H2]; (split; [lia | exact H2]).
Qed.

(** The analysis holds one entry for each number of 1..[maxNumber], by
    descending number of recent appearances and, among entries of as many
    appearances, by ascending number; an entry counts at most ten
    appearances and its streak is at most the length of the history. The
    first argument is not used. *)
Theorem analyzeTemperature_entries (allNumbers : list Z)
    (draws : list Draw.t) (type : PoolType) (maxNumber : Z) :
  let results := analyzeTemperature allNumbers draws type maxNumber in
  results = analyzeTemperature [] draws type maxNumber
  /\ Permutation (map HotColdNumber.number results)
                 (range1 (Z.to_nat maxNumber))
  /\ StronglySorted
       (keyThenIndex HotColdNumber.appearances HotColdNumber.number) results
  /\ Forall (fun e =>
               0 <= HotColdNumber.appearances e <= 10
               /\ HotColdNumber.appearances e <= Z.of_nat (List.length draws)
               /\ 0 <= HotColdNumber.streak e <= Z.of_nat (List.length draws))
            results.
Proof.
  cbv zeta. split; [reflexivity |]. split; [| split].
  - unfold analyzeTemperature. cbv zeta.
    eapply perm_trans; [apply Permutation_map, sort_perm |].
    rewrite map_map. rewrite (map_ext _ (fun k => k)) by reflexivity.
    rewrite map_id. apply Permutation_refl.
  - unfold analyzeTemperature. cbv zeta.
    apply sort_keyThenIndex. apply map_range1_ascending. reflexivity.
  - apply Forall_forall. intros e He.
    apply analyzeTemperature_In in He as [_ ->].
    pose proof (appearances_bounds draws type (HotColdNumber.number e)).
    pose proof (streak_bounds draws type (HotColdNumber.number e)).
    tauto.
Qed.

Lemma filter_StronglySorted {A : Type} (R : A -> A -> Prop)
    (f : A -> bool) (l : list A) :
  StronglySorted R l -> StronglySorted R (filter f l).
Proof.
  induction 1 as [|x l Hs IH Hx]; simpl; [constructor |].
  destruct (f x); [| exact IH]. constructor; [exact IH |].
  rewrite Forall_forall in *. intros y Hy. apply Hx.
  now apply filter_In in Hy.
Qed.

Lemma map_StronglySorted {A B : Type} (R : A -> A -> Prop)
    (R' : B -> B -> Prop) (f : A -> B) (l : list A) :
  (forall x y, In x l -> In y l -> R x y -> R' (f x) (f y)) ->
  StronglySorted R l -> StronglySorted R' (map f l).
Proof.
  intros HR Hs. induction Hs as [|x l Hs IH Hx]; simpl; constructor.
  - apply IH. intros y z Hy Hz. apply HR; now right.
  - rewrite Forall_forall in *. intros y Hy.
    apply in_map_iff in Hy as (z & <- & Hz).
    apply HR; [now left | now right | now apply Hx].
Qed.

Lemma absent_firstn_le (type : PoolType) (n : Z) (draws : list Draw.t)
    (j k : nat) :
  (j <= k)%nat ->
  (forall d, In d (firstn k draws) -> ~ In n (poolOf type d)) ->
  forall d, In d (firstn j draws) -> ~ In n (poolOf type d).
Proof.
  intros Hjk Habs d Hd. apply Habs.
  rewrite <- (Nat.min_l j k Hjk), <- firstn_firstn in Hd.
  exact (firstn_incl _ _ d Hd).
Qed.

Lemma overdue_view (draws : list Draw.t) (type : PoolType) (max : Z)
    (k : nat) :
  (10 <= S k)%nat ->
  StronglySorted Z.lt
    (map HotColdNumber.number
       (filter (fun e => HotColdNumber.streak e >? Z.of_nat k)
               (analyzeTemperature [] draws type max))).
Proof.
  intros Hk.
  apply map_StronglySorted
    with (R := keyThenIndex HotColdNumber.appearances HotColdNumber.number).
  - intros x y Hx Hy Hxy.
    assert (Hzero : forall e,
              In e (filter (fun e => HotColdNumber.streak e >? Z.of_nat k)
                      (analyzeTemperature [] draws type max)) ->
              HotColdNumber.appearances e = 0).
    { intros e He. apply filter_In in He as [He Hs].
      apply analyzeTemperature_In in He as [_ He]. rewrite He in Hs |- *.
      apply streak_gtb in Hs as [_ Habs]. rewrite appearances_eq.
      apply filterCount_absent.
      apply (absent_firstn_le type _ draws 10 (S k)); [lia | exact Habs]. }
    unfold keyThenIndex in Hxy.
    rewrite (Hzero x Hx), (Hzero y Hy) in Hxy. destruct Hxy; lia.
  - apply filter_StronglySorted. unfold analyzeTemperature. cbv zeta.
    apply sort_keyThenIndex. apply map_range1_ascending. reflexivity.
Qed.

(** The overdue numbers are those of 1..50 that none of the eleven most
    recent draws holds, in a history of eleven draws or more; the overdue
    stars those of 1..12 that none of the seven most recent draws holds,
    in a history of seven draws or more. The overdue numbers are listed
    in ascending order. *)
Theorem overdue_views (draws : list Draw.t) :
  (forall n, In n (getOverdueNumbers draws)
     <-> 1 <= n <= 50 /\ (11 <= List.length draws)%nat
         /\ forall d, In d (firstn 11 draws) -> ~ In n (Draw.numbers d))
  /\ (forall n, In n (getOverdueStars draws)
        <-> 1 <= n <= 12 /\ (7 <= List.length draws)%nat
            /\ forall d, In d (firstn 7 draws) -> ~ In n (Draw.stars d))
  /\ StronglySorted Z.lt (getOverdueNumbers draws).
Proof.
  unfold getOverdueNumbers, getOverdueStars.
  change 10 with (Z.of_nat 10). change 6 with (Z.of_nat 6).
  split; [| split].
  - intros n. rewrite view_In, streak_gtb. simpl Z.to_nat. simpl poolOf.
    split; intros [H1 H2]; (split; [lia | exact H2]).
  - intros n. rewrite view_In, streak_gtb. simpl Z.to_nat. simpl poolOf.
    split; intros [H1 H2]; (split; [lia | exact H2]).
  - apply overdue_view. lia.
Qed.

(** An overdue number is listed as cold and is not listed as hot, and an
    overdue star is listed as cold. *)
Theorem overdue_is_cold (draws : list Draw.t) (n : Z) :
  (In n (getOverdueNumbers draws) ->
   In n (map HotColdNumber.number (getColdNumbers draws))
   /\ ~ In n (map HotColdNumber.number (getHotNumbers draws)))
  /\ (In n (getOverdueStars draws) ->
      In n (map HotColdNumber.number (getColdStars draws))).
Proof.
  unfold getOverdueNumbers, getOverdueStars, getColdNumbers, getColdStars,
    getHotNumbers.
  change 10 with (Z.of_nat 10). change 6 with (Z.of_nat 6).
  rewrite !view_In, !streak_gtb.
  change 5 with (Z.of_nat 5). change 3 with (Z.of_nat 3) at 2.
  rewrite (cold_test draws TNumbers n 5) by lia.
  rewrite (cold_test draws TStars n 3) by lia.
  rewrite (hot_test draws TNumbers n 3) by lia.
  split.
  - intros (Hn & Hlen & Habs). split.
    + split; [exact Hn |]. split; [lia |].
      apply (absent_firstn_le TNumbers n draws 6 11); [lia | exact Habs].
    + intros [_ Hhot].
      rewrite filterCount_absent in Hhot; [lia |].
      apply (absent_firstn_le TNumbers n draws 10 11); [lia | exact Habs].
  - intros (Hn & Hlen & Habs). split; [exact Hn |]. split; [lia |].
    apply (absent_firstn_le TStars n draws 4 7); [lia | exact Habs].
Qed.

Lemma overdue_is_cold_witness :
  In 6 (map HotColdNumber.number
          (getColdNumbers
             (repeat (Draw.mk "2024-01-05" [1; 2; 3; 4; 5] [1; 2]) 11))).
Proof.
  apply (proj1 (overdue_is_cold
                  (repeat (Draw.mk "2024-01-05" [1; 2; 3; 4; 5] [1; 2]) 11)
                  6)).
  apply includes_In. vm_compute. reflexivity.
Defined.

Lemma filter_nil {A : Type} (f : A -> bool) (l : list A) :
  (forall x, In x l -> f x = false) -> filter f l = [].
Proof.
  intros H. induction l as [|x l IH]; simpl; [reflexivity |].
  rewrite (H x) by now left. apply IH. intros y Hy. apply H. now right.
Qed.

(** On a history of fewer than three draws, the empty one included, the
    six lists of the analysis are empty. *)
Theorem analyzeHotCold_short_history (draws : list Draw.t) :
  (List.length draws < 3)%nat ->
  analyzeHotCold draws = mkAnalysis [] [] [] [] [] [].
Proof.
  intros Hlen.
  assert (Hentry : forall type max e,
            In e (analyzeTemperature [] draws type max) ->
            isHot e = false /\ isCold e = false
            /\ HotColdNumber.appearances e < 3
            /\ HotColdNumber.streak e < 3).
  { intros type max e He. apply analyzeTemperature_In in He as [_ ->].
    pose proof (appearances_bounds draws type (HotColdNumber.number e)) as Ha.
    pose proof (streak_bounds draws type (HotColdNumber.number e)) as Hs.
    repeat split; try lia.
    - destruct (isHot _) eqn:E; [| reflexivity].
      apply isHot_appearances in E. destruct type; lia.
    - destruct (isCold _) eqn:E; [| reflexivity].
      apply isCold_streak in E. lia. }
  unfold analyzeHotCold, getHotNumbers, getColdNumbers, getHotStars,
    getColdStars, getOverdueNumbers, getOverdueStars.
  rewrite !filter_nil; try reflexivity;
    intros e He; destruct (Hentry _ _ e He) as (Hh & Hc & Ha & Hs);
    rewrite ?Hh, ?Hc; cbn [orb];
    first [ destruct (Z.gtb_spec (HotColdNumber.streak e) 6)
          | destruct (Z.gtb_spec (HotColdNumber.streak e) 10)
          | destruct (Z.gtb_spec (HotColdNumber.streak e) 3)
          | destruct (Z.gtb_spec (HotColdNumber.streak e) 5)
          | destruct (Z.geb_spec (HotColdNumber.appearances e) 4)
          | destruct (Z.geb_spec (HotColdNumber.appearances e) 3) ];
    try reflexivity; lia.
Qed.

Lemma analyzeHotCold_short_history_witness :
  analyzeHotCold [Draw.mk "2024-01-09" [1; 2; 3; 49; 50] [3; 4];
                  Draw.mk "2024-01-05" [1; 2; 3; 4; 5] [1; 2]]
  = mkAnalysis [] [] [] [] [] [].
Proof.
  apply analyzeHotCold_short_history. simpl. lia.
Defined.

Lemma NoDup_map_filter {A B : Type} (f : A -> B) (g : A -> bool)
    (l : list A) :
  NoDup (map f l) -> NoDup (map f (filter g l)).
Proof.
  induction l as [|x l IH]; simpl; [constructor |].
  intros H. inversion H as [|? ? Hx Hl]; subst.
  destruct (g x); [| now apply IH]. simpl. constructor; [| now apply IH].
  intros Hin. apply Hx. apply in_map_iff in Hin as (y & Hy & Hin).
  apply in_map_iff. exists y. split; [exact Hy |].
  now apply filter_In in Hin.
Qed.

Lemma analyzeTemperature_distinct (draws : list Draw.t) (type : PoolType)
    (max : Z) :
  NoDup (map HotColdNumber.number (analyzeTemperature [] draws type max)).
Proof.
  unfold analyzeTemperature. cbv zeta.
  apply (Permutation_NoDup (l := range1 (Z.to_nat max)));
    [| apply range1_NoDup].
  apply Permutation_sym.
  eapply perm_trans; [apply Permutation_map, sort_perm |].
  rewrite map_map. rewrite (map_ext _ (fun k => k)) by reflexivity.
  rewrite map_id. apply Permutation_refl.
Qed.

Lemma view_top_distinct (draws : list Draw.t) (type : PoolType) (max : Z)
    (test : HotColdNumber.t -> bool) (k : nat) :
  NoDup (map HotColdNumber.number
           (firstn k (filter test (analyzeTemperature [] draws type max)))).
Proof.
  rewrite <- firstn_map. apply firstn_NoDup, NoDup_map_filter.
  apply analyzeTemperature_distinct.
Qed.

Lemma StronglySorted_app_inv {A : Type} (R : A -> A -> Prop)
    (l1 l2 : list A) :
  StronglySorted R (l1 ++ l2) ->
  forall x y, In x l1 -> In y l2 -> R x y.
Proof.
  induction l1 as [|a l1 IH]; simpl; intros Hs x y Hx Hy; [contradiction |].
  apply StronglySorted_inv in Hs as [Hs Ha].
  destruct Hx as [<- | Hx].
  - rewrite Forall_forall in Ha. apply Ha. apply in_or_app. now right.
  - now apply IH.
Qed.

(** The recommendation holds at most five hot numbers, three overdue
    numbers, five cold numbers and two hot stars, none of them twice; the
    numbers it gives as hot are listed as hot, none of them is given as
    overdue, and the overdue numbers it gives are the smallest of the
    overdue numbers. *)
Theorem getHotColdRecommendation_lists (draws : list Draw.t) :
  let r := getHotColdRecommendation draws in
  ((List.length (useHot r) <= 5)%nat /\ NoDup (useHot r))
  /\ ((List.length (useOverdue r) <= 3)%nat /\ NoDup (useOverdue r))
  /\ ((List.length (avoidCold r) <= 5)%nat /\ NoDup (avoidCold r))
  /\ ((List.length (hotStarsToUse r) <= 2)%nat /\ NoDup (hotStarsToUse r))
  /\ (forall n, In n (useHot r) ->
        In n (map HotColdNumber.number (getHotNumbers draws))
        /\ ~ In n (useOverdue r))
  /\ (forall n m, In n (useOverdue r) ->
        In m (getOverdueNumbers draws) -> ~ In m (useOverdue r) -> n < m).
Proof.
  unfold getHotColdRecommendation, analyzeHotCold. cbv zeta.
  cbn [useHot useOverdue avoidCold hotStarsToUse hotNumbers coldNumbers
       hotStars overdue].
  assert (Hsorted : StronglySorted Z.lt (getOverdueNumbers draws)).
  { unfold getOverdueNumbers. change 10 with (Z.of_nat 10).
    apply overdue_view. lia. }
  split; [split | split; [split | split; [split | split; [split | split]]]].
  - rewrite length_map. apply firstn_le_length.
  - apply view_top_distinct.
  - apply firstn_le_length.
  - unfold getOverdueNumbers. rewrite firstn_map. apply view_top_distinct.
  - rewrite length_map. apply firstn_le_length.
  - apply view_top_distinct.
  - rewrite length_map. apply firstn_le_length.
  - apply view_top_distinct.
  - intros n H. split.
    + rewrite <- firstn_map in H. exact (firstn_incl _ _ n H).
    + intros Hover. apply (firstn_incl 3) in Hover.
      rewrite <- firstn_map in H. apply (firstn_incl 5) in H.
      unfold getOverdueNumbers, getHotNumbers in Hover, H.
      change 10 with (Z.of_nat 10) in Hover.
      apply view_In in Hover as [_ Hover]. apply view_In in H as [_ H].
      apply streak_gtb in Hover as [_ Habs].
      apply (hot_test draws TNumbers n 3) in H; [| lia].
      rewrite filterCount_absent in H; [lia |].
      apply (absent_firstn_le TNumbers n draws 10 11); [lia | exact Habs].
  - intros n m H H0 H1.
    rewrite <- (firstn_skipn 3 (getOverdueNumbers draws)) in Hsorted, H0.
    apply in_app_or in H0 as [H0 | H0]; [contradiction |].
    exact (StronglySorted_app_inv _ _ _ Hsorted n m H H0).
Qed.

(** ** frequencyModel.ts: the tables *)

(** The entry of a number in a frequency table. *)
Lemma frequencyTable_In (type : PoolType) (max : nat) (draws : list Draw.t)
    (table : list FrequencyData.t) (e : FrequencyData.t) :
  (forall d n, In d draws -> In n (poolOf type d) -> 1 <= n <= Z.of_nat max) ->
  frequencyTable type max draws = Some table ->
  In e table ->
  1 <= FrequencyData.number e <= Z.of_nat max
  /\ FrequencyData.count e = occurrences type (FrequencyData.number e) draws
  /\ FrequencyData.lastSeen e
     = HotColdNumber.streak (analyzeNumber draws type (FrequencyData.number e)).
Proof.
  intros Hwf Htable He.
  rewrite (frequencyTable_entries type max draws Hwf) in Htable.
  injection Htable as <-. apply sort_In in He.
  apply in_map_iff in He as (k & <- & Hk). apply range1_In in Hk.
  cbv zeta. cbn [FrequencyData.number FrequencyData.count FrequencyData.lastSeen].
  repeat split; try lia.
Qed.

Lemma frequencyTable_order (type : PoolType) (max : nat) (draws : list Draw.t)
    (table : list FrequencyData.t) :
  (forall d n, In d draws -> In n (poolOf type d) -> 1 <= n <= Z.of_nat max) ->
  frequencyTable type max draws = Some table ->
  Permutation (map FrequencyData.number table) (range1 max)
  /\ StronglySorted (keyThenIndex FrequencyData.count FrequencyData.number)
       table.
Proof.
  intros Hwf Htable.
  rewrite (frequencyTable_entries type max draws Hwf) in Htable.
  injection Htable as <-. split.
  - eapply perm_trans; [apply Permutation_map, sort_perm |].
    rewrite map_map. rewrite (map_ext _ (fun k => k)) by reflexivity.
    rewrite map_id. apply Permutation_refl.
  - apply sort_keyThenIndex. apply map_range1_ascending. reflexivity.
Qed.

Lemma frequencyTable_Some (type : PoolType) (max : nat) (draws : list Draw.t) :
  (forall d n, In d draws -> In n (poolOf type d) -> 1 <= n <= Z.of_nat max) ->
  exists table, frequencyTable type max draws = Some table.
Proof.
  intros Hwf. rewrite (frequencyTable_entries type max draws Hwf).
  eexists. reflexivity.
Qed.

(** On a history whose stars all lie in 1..12, the table of the stars is
    returned; it holds one entry for each of the 12 stars, by descending
    count and, under equal counts, by ascending star; an entry's count is
    the number of occurrences of its star in the history and its
    [lastSeen] is the number of draws, from the most recent on, before the
    first that holds the star. *)
Theorem calculateStarFrequency_table (draws : list Draw.t) :
  (forall d n, In d draws -> In n (Draw.stars d) -> 1 <= n <= 12) ->
  exists table,
    calculateStarFrequency draws = Some table
    /\ Permutation (map FrequencyData.number table) (range1 12)
    /\ StronglySorted (keyThenIndex FrequencyData.count FrequencyData.number)
         table
    /\ forall e, In e table ->
         FrequencyData.count e
           = occurrences TStars (FrequencyData.number e) draws
         /\ forall k : nat,
              Z.of_nat k <= FrequencyData.lastSeen e
              <-> (k <= List.length draws)%nat
                  /\ forall d, In d (firstn k draws) ->
                               ~ In (FrequencyData.number e) (Draw.stars d).
Proof.
  intros Hwf. unfold calculateStarFrequency.
  destruct (frequencyTable_Some TStars 12 draws Hwf) as (table & Htable).
  exists table. split; [exact Htable |].
  destruct (frequencyTable_order TStars 12 draws table Hwf Htable)
    as [Hperm Hsorted].
  split; [exact Hperm |]. split; [exact Hsorted |].
  intros e He.
  destruct (frequencyTable_In TStars 12 draws table e Hwf Htable He)
    as (_ & Hcount & Hseen).
  split; [exact Hcount |]. intros k. rewrite Hseen. apply streak_ge.
Qed.

Lemma calculateStarFrequency_table_witness :
  exists table,
    calculateStarFrequency
      [Draw.mk "2024-01-09" [1; 2; 3; 49; 50] [3; 4];
       Draw.mk "2024-01-05" [1; 2; 3; 4; 5] [1; 2]] = Some table
    /\ Permutation (map FrequencyData.number table) (range1 12).
Proof.
  destruct (calculateStarFrequency_table
              [Draw.mk "2024-01-09" [1; 2; 3; 49; 50] [3; 4];
               Draw.mk "2024-01-05" [1; 2; 3; 4; 5] [1; 2]])
    as (table & Htable & Hperm & _).
  - intros d n [<- | [<- | []]] Hn; simpl in Hn; lia.
  - exists table. split; assumption.
Defined.

Lemma record_None (num index : Z) (f : FrequencyMap) :
  ~ In num (map fst f) -> record num index f = None.
Proof.
  induction f as [|[k e] f IH]; simpl; [reflexivity |].
  intros Hn. destruct (Z.eqb_spec k num) as [-> | _]; [tauto |].
  rewrite IH by tauto. reflexivity.
Qed.

Lemma recordAll_None (nums : list Z) (index : Z) (f : FrequencyMap) :
  NoDup (map fst f) ->
  (exists n, In n nums /\ ~ In n (map fst f)) ->
  recordAll nums index f = None.
Proof.
  revert f. induction nums as [|num nums IH]; intros f Hnd (n & Hn & Hout);
    [contradiction |].
  cbn [recordAll].
  destruct (in_dec Z.eq_dec num (map fst f)) as [Hin | Hnin].
  - rewrite (record_map num index f Hnd Hin). apply IH.
    + now rewrite map_bumpAt_keys.
    + destruct Hn as [-> | Hn]; [contradiction |].
      exists n. rewrite map_bumpAt_keys. now split.
  - now rewrite record_None.
Qed.

Lemma countOccurrences_None (type : PoolType) (draws : list Draw.t)
    (index : Z) (f : FrequencyMap) :
  NoDup (map fst f) ->
  (exists d n, In d draws /\ In n (poolOf type d) /\ ~ In n (map fst f)) ->
  countOccurrences type draws index f = None.
Proof.
  revert index f.
  induction draws as [|d draws IH]; intros index f Hnd (d' & n & Hd & Hn & Hout);
    [contradiction |].
  cbn [countOccurrences].
  destruct (recordAll (poolOf type d) index f) as [f'|] eqn:E;
    [| reflexivity].
  destruct (Forall_Exists_dec (fun n => In n (map fst f))
              (fun n => in_dec Z.eq_dec n (map fst f)) (poolOf type d))
    as [Hall | Hex].
  - rewrite Forall_forall in Hall.
    rewrite (recordAll_map (poolOf type d) index f Hnd Hall) in E.
    injection E as <-. apply IH.
    + now rewrite afterDraw_keys.
    + destruct Hd as [-> | Hd].
      * exfalso. apply Hout. now apply Hall.
      * exists d', n. rewrite afterDraw_keys. now repeat split.
  - apply Exists_exists in Hex. now rewrite recordAll_None in E.
Qed.

Lemma frequencyTable_None (type : PoolType) (max : nat) (draws : list Draw.t) :
  frequencyTable type max draws = None
  <-> exists d n, In d draws /\ In n (poolOf type d)
                  /\ ~ 1 <= n <= Z.of_nat max.
Proof.
  split.
  - intros Hnone.
    destruct (Forall_Exists_dec
                (fun d => Forall (fun n => 1 <= n <= Z.of_nat max)
                                 (poolOf type d))
                (fun d => Forall_dec _
                   (fun n => match Z_le_dec 1 n, Z_le_dec n (Z.of_nat max) with
                             | left a, left b => left (conj a b)
                             | right a, _ => right (fun h => a (proj1 h))
                             | _, right b => right (fun h => b (proj2 h))
                             end) (poolOf type d))
                draws) as [Hall | Hex].
    + exfalso. destruct (frequencyTable_Some type max draws) as (t & Ht).
      * intros d n Hd Hn. rewrite Forall_forall in Hall.
        specialize (Hall d Hd). rewrite Forall_forall in Hall.
        now apply Hall.
      * congruence.
    + apply Exists_exists in Hex as (d & Hd & Hnot).
      apply neg_Forall_Exists_neg in Hnot.
      * apply Exists_exists in Hnot as (n & Hn & Hout). now exists d, n.
      * intros n. destruct (Z_le_dec 1 n), (Z_le_dec n (Z.of_nat max));
          [left | right | right | right]; lia.
  - intros (d & n & Hd & Hn & Hout). unfold frequencyTable.
    rewrite countOccurrences_None; [reflexivity | |].
    + rewrite initial_keys. apply range1_NoDup.
    + exists d, n. rewrite initial_keys, range1_In. now repeat split.
Qed.

Lemma frequencyTable_valid (type : PoolType) (max : nat) (draws : list Draw.t)
    (table : list FrequencyData.t) :
  frequencyTable type max draws = Some table ->
  forall d n, In d draws -> In n (poolOf type d) -> 1 <= n <= Z.of_nat max.
Proof.
  intros Htable d n Hd Hn.
  destruct (Z_le_dec 1 n), (Z_le_dec n (Z.of_nat max)); try lia;
    exfalso;
    (assert (Hnone : frequencyTable type max draws = None)
       by (apply frequencyTable_None; exists d, n; repeat split;
           [exact Hd | exact Hn | lia]));
    congruence.
Qed.

(** The tables throw exactly on the histories that hold a number outside
    1..50, or for the stars a star outside 1..12; on every other history
    they are returned. *)
Theorem frequency_tables_throw (draws : list Draw.t) :
  (calculateNumberFrequency draws = None
   <-> exists d n, In d draws /\ In n (Draw.numbers d) /\ ~ 1 <= n <= 50)
  /\ (calculateStarFrequency draws = None
      <-> exists d n, In d draws /\ In n (Draw.stars d) /\ ~ 1 <= n <= 12).
Proof.
  split.
  - apply (frequencyTable_None TNumbers 50 draws).
  - apply (frequencyTable_None TStars 12 draws).
Qed.

(** In the table of the numbers, of two numbers that occur as often the
    smaller one stands first. *)
Theorem calculateNumberFrequency_ties (draws : list Draw.t)
    (table : list FrequencyData.t) :
  calculateNumberFrequency draws = Some table ->
  StronglySorted (keyThenIndex FrequencyData.count FrequencyData.number) table.
Proof.
  intros Htable.
  apply (frequencyTable_order TNumbers 50 draws table); [| exact Htable].
  exact (frequencyTable_valid TNumbers 50 draws table Htable).
Qed.

Lemma calculateNumberFrequency_ties_witness :
  exists table,
    calculateNumberFrequency
      [Draw.mk "2024-01-09" [1; 2; 3; 49; 50] [3; 4];
       Draw.mk "2024-01-05" [1; 2; 3; 4; 5] [1; 2]] = Some table
    /\ StronglySorted (keyThenIndex FrequencyData.count FrequencyData.number)
         table.
Proof.
  eexists. split; [vm_compute; reflexivity |].
  apply (calculateNumberFrequency_ties
           [Draw.mk "2024-01-09" [1; 2; 3; 49; 50] [3; 4];
            Draw.mk "2024-01-05" [1; 2; 3; 4; 5] [1; 2]]).
  vm_compute. reflexivity.
Defined.

(** The sum of a list of integers. *)
Lemma sum_perm (l l' : list Z) :
  Permutation l l' -> fold_right Z.add 0 l = fold_right Z.add 0 l'.
Proof. induction 1; simpl; lia. Qed.

Lemma sum_count_occ_cons (keys l : list Z) (x : Z) :
  NoDup keys -> In x keys ->
  fold_right Z.add 0
    (map (fun k => Z.of_nat (count_occ Z.eq_dec (x :: l) k)) keys)
  = 1 + fold_right Z.add 0
          (map (fun k => Z.of_nat (count_occ Z.eq_dec l k)) keys).
Proof.
  induction keys as [|k keys IH]; intros Hnd Hin; [contradiction |].
  inversion Hnd as [|? ? Hk Hnd']; subst. cbn [map fold_right].
  destruct (Z.eq_dec x k) as [-> | Hne].
  - rewrite count_occ_cons_eq by reflexivity.
    rewrite (map_ext_in _ (fun j => Z.of_nat (count_occ Z.eq_dec l j))).
    + lia.
    + intros j Hj. rewrite count_occ_cons_neq; [reflexivity |].
      intros ->. contradiction.
  - rewrite count_occ_cons_neq by exact Hne.
    destruct Hin as [-> | Hin]; [congruence |].
    rewrite (IH Hnd' Hin). lia.
Qed.

Lemma sum_count_occ (keys l : list Z) :
  NoDup keys -> (forall x, In x l -> In x keys) ->
  fold_right Z.add 0 (map (fun k => Z.of_nat (count_occ Z.eq_dec l k)) keys)
  = Z.of_nat (List.length l).
Proof.
  intros Hnd. induction l as [|x l IH]; intros Hin.
  - clear Hnd Hin. induction keys as [|k keys IHk]; [reflexivity |].
    cbn [map fold_right]. rewrite IHk. reflexivity.
  - rewrite sum_count_occ_cons; [| exact Hnd | apply Hin; now left].
    rewrite IH by (intros y Hy; apply Hin; now right).
    cbn [List.length]. lia.
Qed.

Lemma sum_occurrences (type : PoolType) (keys : list Z)
    (draws : list Draw.t) :
  NoDup keys ->
  (forall d n, In d draws -> In n (poolOf type d) -> In n keys) ->
  fold_right Z.add 0 (map (fun k => occurrences type k draws) keys)
  = fold_right Z.add 0
      (map (fun d => Z.of_nat (List.length (poolOf type d))) draws).
Proof.
  intros Hnd. induction draws as [|d draws IH]; intros Hin.
  - clear Hnd Hin. induction keys as [|k keys IHk]; [reflexivity |].
    cbn [map fold_right]. rewrite IHk. reflexivity.
  - cbn [map fold_right].
    rewrite <- IH by (intros d' n Hd'; apply Hin; now right).
    rewrite <- (sum_count_occ keys (poolOf type d) Hnd)
      by (intros x Hx; apply (Hin d); [now left | exact Hx]).
    clear. induction keys as [|k keys IHk]; [reflexivity |].
    cbn [map fold_right]. rewrite IHk. unfold occurrences. simpl. lia.
Qed.

(** The counts of a table of the numbers add up to the number of numbers
    that the history holds, those of a table of the stars to its number of
    stars. *)
Theorem frequency_counts_total (draws : list Draw.t)
    (numbers stars : list FrequencyData.t) :
  calculateNumberFrequency draws = Some numbers ->
  calculateStarFrequency draws = Some stars ->
  fold_right Z.add 0 (map FrequencyData.count numbers)
  = fold_right Z.add 0
      (map (fun d => Z.of_nat (List.length (Draw.numbers d))) draws)
  /\ fold_right Z.add 0 (map FrequencyData.count stars)
     = fold_right Z.add 0
         (map (fun d => Z.of_nat (List.length (Draw.stars d))) draws).
Proof.
  assert (Htotal : forall type max table,
            frequencyTable type max draws = Some table ->
            fold_right Z.add 0 (map FrequencyData.count table)
            = fold_right Z.add 0
                (map (fun d => Z.of_nat (List.length (poolOf type d))) draws)).
  { intros type max table Htable.
    pose proof (frequencyTable_valid type max draws table Htable) as Hwf.
    rewrite (frequencyTable_entries type max draws Hwf) in Htable.
    injection Htable as <-.
    rewrite (sum_perm _ _ (Permutation_map _ (sort_perm _ _))).
    rewrite map_map. cbv zeta. cbn [FrequencyData.count].
    apply sum_occurrences; [apply range1_NoDup |].
    intros d n Hd Hn. apply range1_In. now apply (Hwf d). }
  intros Hn Hs. split.
  - exact (Htotal TNumbers 50%nat numbers Hn).
  - exact (Htotal TStars 12%nat stars Hs).
Qed.

Lemma frequency_counts_total_witness :
  exists numbers stars,
    fold_right Z.add 0 (map FrequencyData.count numbers) = 10
    /\ fold_right Z.add 0 (map FrequencyData.count stars) = 4.
Proof.
  eexists. eexists.
  apply (frequency_counts_total
           [Draw.mk "2024-01-09" [1; 2; 3; 49; 50] [3; 4];
            Draw.mk "2024-01-05" [1; 2; 3; 4; 5] [1; 2]]);
    vm_compute; reflexivity.
Defined.

Lemma count_occ_NoDup (l : list Z) (k : Z) :
  NoDup l ->
  Z.of_nat (count_occ Z.eq_dec l k) = if includes l k then 1 else 0.
Proof.
  intros Hnd. destruct (includes l k) eqn:E.
  - apply includes_In in E.
    pose proof (proj1 (NoDup_count_occ Z.eq_dec l) Hnd k).
    pose proof (proj1 (count_occ_In Z.eq_dec l k) E). lia.
  - apply includes_false in E.
    rewrite (proj1 (count_occ_not_In Z.eq_dec l k) E). reflexivity.
Qed.

Lemma occurrences_filterCount (type : PoolType) (k : Z)
    (draws : list Draw.t) :
  (forall d, In d draws -> NoDup (poolOf type d)) ->
  occurrences type k draws = filterCount type k draws.
Proof.
  unfold occurrences, filterCount.
  induction draws as [|d draws IH]; intros Hnd; [reflexivity |].
  cbn [fold_right filter].
  rewrite IH by (intros d' Hd'; apply Hnd; now right).
  rewrite (count_occ_NoDup _ _ (Hnd d (or_introl eq_refl))).
  destruct (includes (poolOf type d) k); cbn [List.length]; lia.
Qed.

(** The three analyses agree on a history whose draws hold no number
    twice: the count of a number in the frequency table is the number of
    appearances that the scorer counts, and its [lastSeen] is the streak
    that the hot/cold analysis reports. *)
Theorem frequency_agrees_with_analyses (draws : list Draw.t)
    (table : list FrequencyData.t) (e : FrequencyData.t) :
  (forall d, In d draws -> NoDup (Draw.numbers d)) ->
  calculateNumberFrequency draws = Some table ->
  In e table ->
  FrequencyData.count e
    = countIncluding TNumbers (FrequencyData.number e) draws
  /\ FrequencyData.lastSeen e
     = HotColdNumber.streak
         (analyzeNumber draws TNumbers (FrequencyData.number e)).
Proof.
  intros Hnd Htable He.
  pose proof (frequencyTable_valid TNumbers 50 draws table Htable) as Hwf.
  destruct (frequencyTable_In TNumbers 50 draws table e Hwf Htable He)
    as (_ & Hcount & Hseen).
  split; [| exact Hseen].
  rewrite Hcount, countIncluding_filterCount.
  now apply occurrences_filterCount.
Qed.

Lemma frequency_agrees_with_analyses_witness :
  let draws := [Draw.mk "2024-01-09" [1; 2; 3; 49; 50] [3; 4];
                Draw.mk "2024-01-05" [1; 2; 3; 4; 5] [1; 2]] in
  let e := FrequencyData.mk 1 2 (Js.of_Z 100) 0 in
  FrequencyData.count e
    = countIncluding TNumbers (FrequencyData.number e) draws
  /\ FrequencyData.lastSeen e
     = HotColdNumber.streak
         (analyzeNumber draws TNumbers (FrequencyData.number e)).
Proof.
  intros draws e.
  refine (frequency_agrees_with_analyses draws _ e _ _ _).
  - intros d [<- | [<- | []]]; simpl;
      repeat (constructor; [simpl; lia |]); constructor.
  - vm_compute. reflexivity.
  - left. reflexivity.
Defined.

(** ** frequencyModel.ts: the full analysis *)

Lemma firstn_skipn_In {A : Type} (a b : nat) (l : list A) (x : A) :
  In x (firstn a l ++ skipn b l) -> In x l.
Proof.
  intros H. apply in_app_or in H as [H | H].
  - exact (firstn_incl a l x H).
  - rewrite <- (firstn_skipn b l). apply in_or_app. now right.
Qed.

Lemma NoDup_firstn_skipn {A : Type} (a b : nat) (l : list A) :
  (a <= b)%nat -> NoDup l -> NoDup (firstn a l ++ skipn b l).
Proof.
  revert a b. induction l as [|x l IH]; intros a b Hab Hnd.
  - rewrite firstn_nil, skipn_nil. constructor.
  - inversion Hnd as [|? ? Hx Hl]; subst.
    destruct a as [|a]; [| destruct b as [|b]; [lia |]].
    + cbn [firstn app]. destruct b as [|b]; [exact Hnd |].
      cbn [skipn]. specialize (IH 0%nat b ltac:(lia) Hl).
      now cbn [firstn app] in IH.
    + cbn [firstn skipn app]. constructor.
      * intros Hin. apply Hx. now apply (firstn_skipn_In a b).
      * apply IH; [lia | exact Hl].
Qed.

Lemma skipn_In_le {A : Type} (a b : nat) (l : list A) (x : A) :
  (a <= b)%nat -> In x (skipn b l) -> In x (skipn a l).
Proof.
  intros Hab H. replace b with ((b - a) + a)%nat in H by lia.
  rewrite <- skipn_skipn in H.
  rewrite <- (firstn_skipn (b - a) (skipn a l)). apply in_or_app. now right.
Qed.

(** The two ends of a frequency table. *)
Lemma table_ends (type : PoolType) (max : nat) (draws : list Draw.t)
    (table : list FrequencyData.t) (k : nat) :
  frequencyTable type max draws = Some table ->
  (2 * k <= max)%nat ->
  let most := map FrequencyData.number (firstn k table) in
  let least := map FrequencyData.number (lastn k table) in
  List.length most = k /\ List.length least = k
  /\ NoDup (most ++ least)
  /\ forall n m, In n most -> In m least ->
       occurrences type m draws <= occurrences type n draws.
Proof.
  intros Htable Hk most least. subst most least.
  pose proof (frequencyTable_valid type max draws table Htable) as Hwf.
  destruct (frequencyTable_order type max draws table Hwf Htable)
    as [Hperm Hsorted].
  assert (Hlen : List.length table = max).
  { rewrite <- (length_map FrequencyData.number),
      (Permutation_length Hperm).
    unfold range1. now rewrite length_map, length_seq. }
  assert (Hnd : NoDup (map FrequencyData.number table)).
  { apply (Permutation_NoDup (Permutation_sym Hperm)), range1_NoDup. }
  unfold lastn. rewrite Hlen.
  split; [| split; [| split]].
  - rewrite length_map, length_firstn. lia.
  - rewrite length_map, length_skipn. lia.
  - rewrite <- firstn_map, <- skipn_map.
    apply NoDup_firstn_skipn; [lia | exact Hnd].
  - intros n m Hn Hm.
    apply in_map_iff in Hn as (e & <- & He).
    apply in_map_iff in Hm as (e' & <- & He').
    apply (skipn_In_le k) in He'; [| lia].
    rewrite <- (firstn_skipn k table) in Hsorted.
    pose proof (StronglySorted_app_inv _ _ _ Hsorted e e' He He') as Hord.
    apply (firstn_incl k) in He.
    assert (He'' : In e' table).
    { rewrite <- (firstn_skipn k table). apply in_or_app. now right. }
    destruct (frequencyTable_In type max draws table e Hwf Htable He)
      as (_ & <- & _).
    destruct (frequencyTable_In type max draws table e' Hwf Htable He'')
      as (_ & <- & _).
    unfold keyThenIndex in Hord. lia.
Qed.

(** When the full analysis is returned, it names ten most common and ten
    least common numbers, twenty different numbers in all, and four most
    common and four least common stars, eight different stars in all; no
    least common number occurs in the history more often than a most
    common one, and likewise for the stars. *)
Theorem analyzeFrequency_most_and_least (draws : list Draw.t)
    (a : FrequencyAnalysis) :
  analyzeFrequency draws = Some a ->
  (List.length (mostCommonNumbers a) = 10%nat
   /\ List.length (leastCommonNumbers a) = 10%nat
   /\ NoDup (mostCommonNumbers a ++ leastCommonNumbers a)
   /\ forall n m, In n (mostCommonNumbers a) -> In m (leastCommonNumbers a) ->
        occurrences TNumbers m draws <= occurrences TNumbers n draws)
  /\ (List.length (mostCommonStars a) = 4%nat
      /\ List.length (leastCommonStars a) = 4%nat
      /\ NoDup (mostCommonStars a ++ leastCommonStars a)
      /\ forall n m, In n (mostCommonStars a) -> In m (leastCommonStars a) ->
           occurrences TStars m draws <= occurrences TStars n draws).
Proof.
  unfold analyzeFrequency, calculateNumberFrequency, calculateStarFrequency.
  destruct (frequencyTable TNumbers 50 draws) as [nf|] eqn:En;
    [| discriminate].
  destruct (frequencyTable TStars 12 draws) as [sf|] eqn:Es;
    [| discriminate].
  cbv zeta. intros [= <-].
  cbn [mostCommonNumbers leastCommonNumbers mostCommonStars leastCommonStars].
  split.
  - apply (table_ends TNumbers 50 draws nf 10 En). lia.
  - apply (table_ends TStars 12 draws sf 4 Es). lia.
Qed.

Lemma analyzeFrequency_most_and_least_witness :
  exists a,
    analyzeFrequency
      [Draw.mk "2024-01-09" [1; 2; 3; 49; 50] [3; 4];
       Draw.mk "2024-01-05" [1; 2; 3; 4; 5] [1; 2]] = Some a
    /\ List.length (mostCommonNumbers a) = 10%nat
    /\ NoDup (mostCommonStars a ++ leastCommonStars a).
Proof.
  eexists. split; [vm_compute; reflexivity |].
  match goal with
  | |- List.length (mostCommonNumbers ?a) = _ /\ _ =>
      pose proof (analyzeFrequency_most_and_least
                    [Draw.mk "2024-01-09" [1; 2; 3; 49; 50] [3; 4];
                     Draw.mk "2024-01-05" [1; 2; 3; 4; 5] [1; 2]] a
                    ltac:(vm_compute; reflexivity)) as H
  end.
  split; [apply H | apply H].
Defined.

Lemma filter_negb_length {A : Type} (f : A -> bool) (l : list A) :
  (List.length (filter f l) + List.length (filter (fun x => negb (f x)) l)
   = List.length l)%nat.
Proof.
  induction l as [|x l IH]; simpl; [reflexivity |].
  destruct (f x); simpl; lia.
Qed.

Lemma countConsecutive_bounds (l : list Z) :
  0 <= countConsecutive l <= Z.of_nat (List.length l).
Proof.
  induction l as [|a l IH]; [simpl; lia |].
  destruct l as [|b l]; [simpl; lia |].
  change (countConsecutive (a :: b :: l))
    with ((if b - a =? 1 then 1 else 0) + countConsecutive (b :: l)).
  cbn [List.length] in *. destruct (b - a =? 1); lia.
Qed.

Lemma recentCounts_fold (l : list Draw.t) (c : PatternCounts) :
  let c' := fold_left tallyDraw l c in
  let total :=
    fold_right Z.add 0
      (map (fun d => Z.of_nat (List.length (Draw.numbers d))) l) in
  FrequencyModel.evenCount c' + FrequencyModel.oddCount c'
    = FrequencyModel.evenCount c + FrequencyModel.oddCount c + total
  /\ FrequencyModel.lowCount c' + FrequencyModel.highCount c'
     = FrequencyModel.lowCount c + FrequencyModel.highCount c + total
  /\ FrequencyModel.evenCount c <= FrequencyModel.evenCount c'
  /\ FrequencyModel.oddCount c <= FrequencyModel.oddCount c'
  /\ FrequencyModel.lowCount c <= FrequencyModel.lowCount c'
  /\ FrequencyModel.highCount c <= FrequencyModel.highCount c'
  /\ consecutiveCount c <= consecutiveCount c' <= consecutiveCount c + total.
Proof.
  revert c. induction l as [|d l IH]; intros c; cbv zeta.
  - simpl. lia.
  - cbn [fold_left map fold_right].
    specialize (IH (tallyDraw c d)). cbv zeta in IH.
    remember (fold_left tallyDraw l (tallyDraw c d)) as c' eqn:Ec'.
    clear Ec'. unfold tallyDraw in IH.
    cbn [FrequencyModel.evenCount FrequencyModel.oddCount
         FrequencyModel.lowCount FrequencyModel.highCount
         consecutiveCount] in IH.
    pose proof (filter_negb_length (fun n => jsmod n 2 =? 0) (Draw.numbers d)).
    pose proof (filter_negb_length (fun n => n <=? 25) (Draw.numbers d)).
    pose proof (countConsecutive_bounds (sort ascending (Draw.numbers d)))
      as Hc.
    rewrite sort_length in Hc. cbv beta in *. lia.
Qed.

(** The two ratios of the recent patterns are made of counts that each
    add up to the number of numbers in the ten most recent draws, and the
    number of consecutive pairs is at most that number; on the empty
    history all of them are zero. *)
Theorem analyzeRecentPatterns_counts (draws : list Draw.t) :
  let total :=
    fold_right Z.add 0
      (map (fun d => Z.of_nat (List.length (Draw.numbers d)))
           (firstn 10 draws)) in
  let r := analyzeRecentPatterns draws in
  exists evens odds lows highs,
    evenOddRatio r = ratio evens odds
    /\ lowHighRatio r = ratio lows highs
    /\ 0 <= evens /\ 0 <= odds /\ evens + odds = total
    /\ 0 <= lows /\ 0 <= highs /\ lows + highs = total
    /\ 0 <= consecutiveNumbers r <= total.
Proof.
  cbv zeta. unfold analyzeRecentPatterns.
  destruct draws as [|d draws].
  - exists 0, 0, 0, 0. simpl. repeat split; try reflexivity; lia.
  - change (List.length (d :: draws) =? 0)%nat with false. cbv iota zeta.
    cbn [evenOddRatio lowHighRatio consecutiveNumbers].
    pose proof (recentCounts_fold (firstn 10 (d :: draws))
                  (mkPatternCounts 0 0 0 0 0)) as H.
    cbv zeta in H. fold (recentCounts (d :: draws)) in H.
    cbn [FrequencyModel.evenCount FrequencyModel.oddCount
         FrequencyModel.lowCount FrequencyModel.highCount
         consecutiveCount] in H.
    exists (FrequencyModel.evenCount (recentCounts (d :: draws))),
           (FrequencyModel.oddCount (recentCounts (d :: draws))),
           (FrequencyModel.lowCount (recentCounts (d :: draws))),
           (FrequencyModel.highCount (recentCounts (d :: draws))).
    split; [reflexivity |]. split; [reflexivity |]. lia.
Qed.

(** ** smartCombinationGenerator.ts: the selections and the ranking *)

Lemma strictly_ascending (l : list Z) :
  StronglySorted Z.le l -> NoDup l -> StronglySorted Z.lt l.
Proof.
  induction 1 as [|x l Hs IH Hx]; intros Hnd; constructor;
    inversion Hnd as [|? ? Hnin Hnd']; subst.
  - now apply IH.
  - rewrite Forall_forall in *. intros y Hy.
    specialize (Hx y Hy). assert (x <> y) by (intros ->; contradiction). lia.
Qed.

Lemma generateSlot_ascending (sin : Js.number -> Js.number)
    (draws : list Draw.t) (numberProbs starProbs : list NumberProbability.t)
    (i : Z) :
  let combo := generateSlot sin draws numberProbs starProbs i in
  StronglySorted Z.le (GeneratedCombination.numbers combo)
  /\ StronglySorted Z.le (GeneratedCombination.stars combo).
Proof.
  unfold generateSlot.
  destruct (i =? 0); [| destruct (i =? 1); [| destruct (i =? 2)]];
    cbv zeta iota beta;
    unfold GeneratedCombination.ofScore, scoreCombination;
    cbn [GeneratedCombination.numbers GeneratedCombination.stars
         CombinationScore.numbers CombinationScore.stars];
    split; apply sort_ascending_Sorted.
Qed.

Lemma generateSlot_own_score (sin : Js.number -> Js.number)
    (draws : list Draw.t) (numberProbs starProbs : list NumberProbability.t)
    (i : Z) :
  let combo := generateSlot sin draws numberProbs starProbs i in
  let score :=
    scoreCombination (GeneratedCombination.numbers combo)
      (GeneratedCombination.stars combo) draws in
  GeneratedCombination.probabilityScore combo
    = CombinationScore.probabilityScore score
  /\ GeneratedCombination.winChance combo = CombinationScore.winChance score
  /\ GeneratedCombination.breakdown combo = CombinationScore.breakdown score.
Proof.
  unfold generateSlot.
  destruct (if i =? 0 then _ else _) as [numbers stars].
  cbv zeta. repeat split.
Qed.

(** Each combination that the generator returns lists its numbers and its
    stars in strictly ascending order, and its score, its chance and its
    breakdown are those of [scoreCombination] on these numbers and stars. *)
Theorem generateTopCombinations_entries (sin : Js.number -> Js.number)
    (draws : list Draw.t) (count : Z) :
  Forall (fun combo =>
            let score :=
              scoreCombination (GeneratedCombination.numbers combo)
                (GeneratedCombination.stars combo) draws in
            StronglySorted Z.lt (GeneratedCombination.numbers combo)
            /\ StronglySorted Z.lt (GeneratedCombination.stars combo)
            /\ GeneratedCombination.probabilityScore combo
               = CombinationScore.probabilityScore score
            /\ GeneratedCombination.winChance combo
               = CombinationScore.winChance score
            /\ GeneratedCombination.breakdown combo
               = CombinationScore.breakdown score)
         (generateTopCombinations sin draws count).
Proof.
  unfold generateTopCombinations. cbv zeta.
  set (slots := map _ (map Z.of_nat (seq 0 _))).
  assert (Hre : forall index combos c,
            In c (reRank index combos) ->
            exists c' r, In c' combos
                         /\ c = GeneratedCombination.withRank c' r).
  { intros index combos. revert index.
    induction combos as [|c' combos IH]; intros index c; simpl; [tauto |].
    intros [<- | Hc].
    - exists c', (index + 1). split; [now left | reflexivity].
    - destruct (IH _ _ Hc) as (c'' & r & Hin & ->).
      exists c'', r. split; [now right | reflexivity]. }
  apply Forall_forall. intros c Hc.
  apply Hre in Hc as (c' & r & Hc' & ->).
  apply sort_In in Hc'. unfold slots in Hc'.
  apply in_map_iff in Hc' as (i & <- & _).
  destruct (generateSlot_valid sin draws i) as [(_ & Hn & _) (_ & Hs & _)].
  destruct (generateSlot_ascending sin draws
              (getAllNumberProbabilities draws TNumbers)
              (getAllNumberProbabilities draws TStars) i) as [Hn' Hs'].
  destruct (generateSlot_own_score sin draws
              (getAllNumberProbabilities draws TNumbers)
              (getAllNumberProbabilities draws TStars) i) as (H1 & H2 & H3).
  cbv zeta in *. unfold GeneratedCombination.withRank.
  cbn [GeneratedCombination.numbers GeneratedCombination.stars
       GeneratedCombination.probabilityScore GeneratedCombination.winChance
       GeneratedCombination.breakdown].
  split; [now apply strictly_ascending |].
  split; [now apply strictly_ascending |].
  split; [exact H1 |]. split; [exact H2 | exact H3].
Qed.

Lemma firstn_idem {A : Type} (k : nat) (l : list A) :
  firstn k (firstn k l) = firstn k l.
Proof. now rewrite firstn_firstn, Nat.min_id. Qed.

(** The selections never leave the head of the ranking: the best numbers
    are among the 15 first of it, the pattern numbers among the 20 first,
    the weighted numbers among the 25 first and the weighted stars among
    the 6 first, whatever [Math.sin] computes. *)
Theorem selections_from_top (sin : Js.number -> Js.number)
    (draws : list Draw.t) (seed : Z) :
  let numberProbs := getAllNumberProbabilities draws TNumbers in
  let starProbs := getAllNumberProbabilities draws TStars in
  incl (selectBestNumbers numberProbs)
       (map numberOf (firstn 15 numberProbs))
  /\ incl (selectBestStars starProbs) (map numberOf (firstn 2 starProbs))
  /\ incl (selectPatternNumbers numberProbs)
          (map numberOf (firstn 20 numberProbs))
  /\ incl (selectWeightedRandomNumbers sin numberProbs seed)
          (map numberOf (firstn 25 numberProbs))
  /\ incl (selectWeightedRandomStars sin starProbs seed)
          (map numberOf (firstn 6 starProbs)).
Proof.
  intros numberProbs starProbs.
  pose proof (getAllNumberProbabilities_distinct draws TNumbers) as Hn.
  pose proof (getAllNumberProbabilities_distinct draws TStars) as Hs.
  pose proof (getAllNumberProbabilities_length draws TNumbers) as Ln.
  pose proof (getAllNumberProbabilities_length draws TStars) as Ls.
  simpl maxNumber in Ln, Ls. fold numberProbs in Hn, Ln.
  fold starProbs in Hs, Ls.
  assert (Htop : forall k probs,
            NoDup (map numberOf probs) ->
            NoDup (map numberOf (firstn k probs))).
  { intros k probs H. rewrite map_numberOf_firstn. now apply firstn_NoDup. }
  split; [| split; [| split; [| split]]].
  - replace (selectBestNumbers numberProbs)
      with (selectBestNumbers (firstn 15 numberProbs))
      by (unfold selectBestNumbers; now rewrite firstn_idem).
    apply (selectBestNumbers_good (firstn 15 numberProbs)).
    + now apply Htop.
    + rewrite length_firstn. lia.
  - replace (selectBestStars starProbs)
      with (selectBestStars (firstn 2 starProbs))
      by (unfold selectBestStars; now rewrite firstn_idem).
    apply (selectBestStars_good (firstn 2 starProbs)).
    + now apply Htop.
    + rewrite length_firstn. lia.
  - replace (selectPatternNumbers numberProbs)
      with (selectPatternNumbers (firstn 20 numberProbs))
      by (unfold selectPatternNumbers; now rewrite firstn_idem).
    apply (selectPatternNumbers_good (firstn 20 numberProbs)).
    + now apply Htop.
    + rewrite length_firstn. lia.
  - unfold selectWeightedRandomNumbers.
    replace (selectWeighted sin 12345 67890 25 5 numberProbs seed)
      with (selectWeighted sin 12345 67890 25 5 (firstn 25 numberProbs) seed)
      by (unfold selectWeighted; now rewrite firstn_idem).
    apply (selectWeighted_good (firstn 25 numberProbs)).
    + now apply Htop.
    + lia.
    + rewrite length_firstn. lia.
  - unfold selectWeightedRandomStars.
    replace (selectWeighted sin 54321 98760 6 2 starProbs seed)
      with (selectWeighted sin 54321 98760 6 2 (firstn 6 starProbs) seed)
      by (unfold selectWeighted; now rewrite firstn_idem).
    apply (selectWeighted_good (firstn 6 starProbs)).
    + now apply Htop.
    + lia.
    + rewrite length_firstn. lia.
Qed.

Lemma scoreAll_In (index : Z) (combinations : list Combination)
    (draws : list Draw.t) (c : GeneratedCombination.t) :
  In c (scoreAll index combinations draws) ->
  exists combo i,
    In combo combinations
    /\ c = GeneratedCombination.ofScore
             (scoreCombination (combinationNumbers combo)
                (combinationStars combo) draws)
             (i + 1)
             (calculateConfidence
                (CombinationScore.probabilityScore
                   (scoreCombination (combinationNumbers combo)
                      (combinationStars combo) draws)) i).
Proof.
  revert index. induction combinations as [|combo rest IH]; intros index;
    simpl; [tauto |].
  intros [<- | Hc].
  - exists combo, index. split; [now left | reflexivity].
  - destruct (IH _ Hc) as (combo' & i & Hin & ->).
    exists combo', i. split; [now right | reflexivity].
Qed.

Lemma scoreAll_fields (index : Z) (combinations : list Combination)
    (draws : list Draw.t) :
  map (fun c => mkCombination (GeneratedCombination.numbers c)
                  (GeneratedCombination.stars c))
      (scoreAll index combinations draws)
  = combinations.
Proof.
  revert index. induction combinations as [|[numbers stars] rest IH];
    intros index; simpl; [reflexivity |].
  now rewrite IH.
Qed.

(** The ranking of given combinations that each hold a number or a star
    (the empty combination scores NaN, and the place that the sort gives
    a NaN score is left to the engine) returns each of them once, with the
    score, the chance and the breakdown that [scoreCombination] gives it,
    and numbers the results 1, 2, ... in the order returned. *)
Theorem rankCombinations_entries (combinations : list Combination)
    (draws : list Draw.t) :
  Forall (fun combo =>
            (0 < List.length (combinationNumbers combo)
                 + List.length (combinationStars combo))%nat) combinations ->
  let r := rankCombinations combinations draws in
  map GeneratedCombination.rank r = range1 (List.length combinations)
  /\ Permutation
       (map (fun c => mkCombination (GeneratedCombination.numbers c)
                        (GeneratedCombination.stars c)) r)
       combinations
  /\ Forall (fun c =>
               let score :=
                 scoreCombination (GeneratedCombination.numbers c)
                   (GeneratedCombination.stars c) draws in
               GeneratedCombination.probabilityScore c
                 = CombinationScore.probabilityScore score
               /\ GeneratedCombination.winChance c
                  = CombinationScore.winChance score
               /\ GeneratedCombination.breakdown c
                  = CombinationScore.breakdown score) r.
Proof.
  intros Hsome. unfold rankCombinations. cbv zeta.
  set (scored := scoreAll 0 combinations draws).
  set (sorted := sort _ scored).
  assert (Hlen : List.length sorted = List.length combinations).
  { unfold sorted, scored. rewrite sort_length.
    rewrite <- (length_map (fun c => mkCombination
                              (GeneratedCombination.numbers c)
                              (GeneratedCombination.stars c))).
    now rewrite scoreAll_fields. }
  split; [| split].
  - rewrite (reRank_ranks 0), Hlen. reflexivity.
  - rewrite reRank_map by reflexivity.
    eapply perm_trans; [apply Permutation_map, sort_perm |].
    unfold scored. rewrite scoreAll_fields. apply Permutation_refl.
  - apply Forall_forall. intros c Hc.
    assert (Hre : exists c' r, In c' sorted
                               /\ c = GeneratedCombination.withRank c' r).
    { revert Hc. generalize 0. clear Hlen.
      induction sorted as [|c' rest IH]; intros index; simpl; [tauto |].
      intros [<- | Hc].
      - exists c', (index + 1). split; [now left | reflexivity].
      - destruct (IH _ Hc) as (c'' & r & Hin & ->).
        exists c'', r. split; [now right | reflexivity]. }
    destruct Hre as (c' & r & Hc' & ->).
    apply sort_In in Hc'. apply scoreAll_In in Hc' as (combo & i & _ & ->).
    cbv zeta. repeat split.
Qed.

Lemma rankCombinations_entries_witness :
  map GeneratedCombination.rank
      (rankCombinations [mkCombination [1; 2; 3; 4; 5] [1; 2];
                         mkCombination [7] []] [])
  = range1 2.
Proof.
  refine (proj1 (rankCombinations_entries
                   [mkCombination [1; 2; 3; 4; 5] [1; 2];
                    mkCombination [7] []] [] _)).
  repeat (apply Forall_cons; [simpl; lia |]). apply Forall_nil.
Defined.

(** The ranking of combinations of five numbers and two stars is by
    descending score: the scores are whole numbers of tenths between 0 and
    100 that never increase along the result. *)
Theorem rankCombinations_sorted (combinations : list Combination)
    (draws : list Draw.t) :
  Forall (fun combo =>
            List.length (combinationNumbers combo) = 5%nat
            /\ List.length (combinationStars combo) = 2%nat) combinations ->
  exists tenths,
    map GeneratedCombination.probabilityScore
        (rankCombinations combinations draws)
    = map tenth tenths
    /\ Forall (fun t => 0 <= t <= 1000) tenths
    /\ StronglySorted (fun earlier later => later <= earlier) tenths.
Proof.
  intros Hall. rewrite Forall_forall in Hall.
  unfold rankCombinations. rewrite reRank_map by reflexivity.
  set (sorted := sort _ _).
  destruct (tenths_list GeneratedCombination.probabilityScore sorted)
    as (tenths & Hmap & Hrange).
  { apply Forall_forall. intros c Hc. apply sort_In in Hc.
    apply scoreAll_In in Hc as (combo & i & Hin & ->).
    destruct (Hall combo Hin) as [H5 H2].
    unfold GeneratedCombination.ofScore.
    cbn [GeneratedCombination.probabilityScore].
    now apply scoreCombination_tenths. }
  exists tenths. split; [exact Hmap |]. split; [exact Hrange |].
  apply tenths_Sorted; [exact Hrange |]. rewrite <- Hmap. apply Sorted_map.
  apply Sorted_impl
    with (R := inOrder (descendingByNumber
                          GeneratedCombination.probabilityScore)).
  - intros x y Hxy Hpos. apply Hxy. now apply descendingByNumber_Gt.
  - apply sort_Sorted. intros x y. apply descendingByNumber_asym.
Qed.

Lemma rankCombinations_sorted_witness :
  exists tenths,
    map GeneratedCombination.probabilityScore
        (rankCombinations [mkCombination [1; 2; 3; 4; 5] [1; 2];
                           mkCombination [10; 20; 30; 40; 50] [11; 12]] [])
    = map tenth tenths
    /\ Forall (fun t => 0 <= t <= 1000) tenths
    /\ StronglySorted (fun earlier later => later <= earlier) tenths.
Proof.
  apply (rankCombinations_sorted
           [mkCombination [1; 2; 3; 4; 5] [1; 2];
            mkCombination [10; 20; 30; 40; 50] [11; 12]] []).
  repeat (apply Forall_cons; [split; reflexivity |]). apply Forall_nil.
Defined.
